(** * Gridsync gateway layer ([gridsync/tahoe.py]): a shallow embedding

    The development follows the Python module: the string primitives it
    relies on, the process runner ([CommandProtocol], [_win32_popen],
    [Tahoe.command]), the files of a node directory and the [Tahoe] object,
    the rootcap bootstrap, the gateway lifecycle, the link/unlink lock, the
    alias table, the grid-status parsers and the magic-folder
    orchestration. Definitions come first; the statements proved about them
    follow. *)

From Stdlib Require Import ZArith String Ascii List Bool Lia Sorted Permutation.
From stdpp Require Import base gmap strings list pretty.
Import ListNotations.

Local Open Scope string_scope.
Local Open Scope Z_scope.
Set Warnings "-register-all".

(** ** Python string primitives used by the module *)

Module PyStr.

(** [str.isspace] on the ASCII range: TAB..CR, FS..US and the blank. *)
Definition is_space (c : ascii) : bool :=
  let n := nat_of_ascii c in
  ((9 <=? n)%nat && (n <=? 13)%nat) || ((28 <=? n)%nat && (n <=? 32)%nat).

Definition nl : ascii := ascii_of_nat 10.

(** The one-character string holding a double quote. *)
Definition dquote : string := String (ascii_of_nat 34) EmptyString.

Fixpoint lstrip (s : string) : string :=
  match s with
  | EmptyString => EmptyString
  | String c r => if is_space c then lstrip r else s
  end.

Fixpoint rstrip (s : string) : string :=
  match s with
  | EmptyString => EmptyString
  | String c r =>
      match rstrip r with
      | EmptyString => if is_space c then EmptyString else String c EmptyString
      | r' => String c r'
      end
  end.

(** [s.strip()] *)
Definition strip (s : string) : string := rstrip (lstrip s).

(** [s.startswith(p)] *)
Definition startswith (p s : string) : bool := String.prefix p s.

(** [s.endswith(suf)] *)
Fixpoint endswith (suf s : string) : bool :=
  String.eqb suf s ||
  match s with
  | EmptyString => false
  | String _ r => endswith suf r
  end.

(** [sub in s] *)
Fixpoint contains (sub s : string) : bool :=
  String.prefix sub s ||
  match s with
  | EmptyString => false
  | String _ r => contains sub r
  end.

(** [s.split(sep)] for a one-character separator: never empty. *)
Fixpoint split (sep : ascii) (s : string) : list string :=
  match s with
  | EmptyString => [EmptyString]
  | String c r =>
      if Ascii.eqb c sep then EmptyString :: split sep r
      else match split sep r with
           | l :: ls => String c l :: ls
           | [] => [String c EmptyString]
           end
  end.

(** [s.split(sep, 1)]: [None] when [sep] does not occur (the caller's
    two-name unpacking then raises [ValueError]). *)
Fixpoint split_once (sep : ascii) (s : string) : option (string * string) :=
  match s with
  | EmptyString => None
  | String c r =>
      if Ascii.eqb c sep then Some (EmptyString, r)
      else match split_once sep r with
           | Some (a, b) => Some (String c a, b)
           | None => None
           end
  end.

(** [f.readlines()]: the lines keep their terminator. *)
Fixpoint readlines (s : string) : list string :=
  match s with
  | EmptyString => []
  | String c r =>
      if Ascii.eqb c nl then String c EmptyString :: readlines r
      else match readlines r with
           | l :: ls => String c l :: ls
           | [] => [String c EmptyString]
           end
  end.

(** Truthiness of a [str]. *)
Definition nonempty (s : string) : bool :=
  match s with EmptyString => false | _ => true end.

(** [os.path.join(a, b)] on POSIX. *)
Definition path_join (a b : string) : string :=
  if startswith "/" b then b
  else if negb (nonempty a) then b
  else if endswith "/" a then a +:+ b
  else a +:+ "/" +:+ b.

(** [os.path.basename(p)]: what follows the last slash. *)
Definition basename (p : string) : string := List.last (split "/"%char p) EmptyString.

(** [int(s)] for the decimal texts met here: optional blanks around an
    optional sign and at least one digit; anything else is a [ValueError]
    ([None]). *)
Definition digit_of (c : ascii) : option Z :=
  let n := nat_of_ascii c in
  if ((48 <=? n)%nat && (n <=? 57)%nat) then Some (Z.of_nat n - 48) else None.

Fixpoint digits (acc : Z) (s : string) : option Z :=
  match s with
  | EmptyString => Some acc
  | String c r =>
      match digit_of c with
      | Some d => digits (10 * acc + d) r
      | None => None
      end
  end.

Definition unsigned_int (s : string) : option Z :=
  match s with
  | EmptyString => None
  | _ => digits 0 s
  end.

Definition int (s : string) : option Z :=
  match strip s with
  | String "-" r => Z.opp <$> unsigned_int r
  | String "+" r => unsigned_int r
  | t => unsigned_int t
  end.

End PyStr.

(** ** Exceptions and outcomes *)

Inductive exn : Type :=
| TahoeCommandError (msg : string)
| TahoeWebError (msg : string)
| OSError (msg : string)
| NodedirExistsError
| ConnectError
| ValueError
| KeyError (key : string)
| TypeError
| AttributeError
| IndexError.

Inductive outcome (A : Type) : Type :=
| Ret (a : A)
| Raise (e : exn).
Arguments Ret {A} a.
Arguments Raise {A} e.

Definition raised {A} (o : outcome A) : bool :=
  match o with Ret _ => false | Raise _ => true end.

(** ** The process runner: [CommandProtocol], [_win32_popen], [Tahoe.command] *)

Module Process.
Import PyStr.

(** [reason.value] handed to [processExited] / [processEnded]. *)
Inductive reason : Type :=
| ProcessDone
| ProcessTerminated (status : Z).

(** What [command] yields: the pid (trigger seen) or the captured output. *)
Inductive value : Type :=
| Pid (pid : Z)
| Output (text : string).

(** A [CommandProtocol] instance. [done] is [None] until the Deferred has
    been called; [output] is the [BytesIO] buffer; [received] collects the
    lines passed to [parent.line_received]. *)
Record CommandProtocol : Type := Protocol {
  trigger : option string;
  done : option (outcome value);
  output : string;
  received : list string
}.

(** [CommandProtocol(parent, callback_trigger)] *)
Definition init (callback_trigger : option string) : CommandProtocol :=
  Protocol callback_trigger None EmptyString [].

(** [self.trigger and self.trigger in line] *)
Definition triggers (t : option string) (line : string) : bool :=
  match t with
  | Some s => nonempty s && contains s line
  | None => false
  end.

(** Body of the [for line in ...] loop of [outReceived]. *)
Definition on_line (pid : Z) (p : CommandProtocol) (line : string) : CommandProtocol :=
  let p := if nonempty line
           then Protocol (trigger p) (done p) (output p) (received p ++ [line])%list
           else p in
  match done p with
  | None =>
      if triggers (trigger p) line
      then Protocol (trigger p) (Some (Ret (Pid pid))) (output p) (received p)
      else p
  | Some _ => p
  end.

Definition outReceived (pid : Z) (p : CommandProtocol) (data : string) : CommandProtocol :=
  let p := Protocol (trigger p) (done p) (output p +:+ data) (received p) in
  fold_left (on_line pid) (split nl (strip data)) p.

Definition errReceived (pid : Z) (p : CommandProtocol) (data : string) : CommandProtocol :=
  outReceived pid p data.

Definition processEnded (p : CommandProtocol) (why : reason) : CommandProtocol :=
  match done p with
  | None => Protocol (trigger p) (Some (Ret (Output (output p)))) (output p) (received p)
  | Some _ => p
  end.

Definition processExited (p : CommandProtocol) (why : reason) : CommandProtocol :=
  match done p, why with
  | None, ProcessTerminated _ =>
      Protocol (trigger p) (Some (Raise (TahoeCommandError (strip (output p)))))
               (output p) (received p)
  | _, _ => p
  end.

(** A child process as the reactor reports it: the data delivered on its
    pipes (a flag tells stderr from stdout), then its exit, then the end
    of the process once the pipes are closed. *)
Record spawned : Type := Spawned {
  sp_pid : Z;
  sp_data : list (bool * string);
  sp_reason : reason
}.

Definition deliver (pid : Z) (p : CommandProtocol) (d : bool * string) : CommandProtocol :=
  if fst d then errReceived pid p (snd d) else outReceived pid p (snd d).

Definition run_protocol (proc : spawned) (p : CommandProtocol) : CommandProtocol :=
  let p := fold_left (deliver (sp_pid proc)) (sp_data proc) p in
  let p := processExited p (sp_reason proc) in
  processEnded p (sp_reason proc).

(** A child process as [subprocess.Popen] shows it: the lines read from
    the merged pipe and [returncode] as [poll()] leaves it at end of file. *)
Record popened : Type := Popened {
  po_pid : Z;
  po_lines : list string;
  po_returncode : option Z
}.

(** Truthiness of [proc.returncode]. *)
Definition truthy_code (rc : option Z) : bool :=
  match rc with
  | Some c => negb (c =? 0)
  | None => false
  end.

Section Runner.

(** [str()] of the bytes held by the buffer. *)
Variable str_of_bytes : string -> string.
(** [which('tahoe')] *)
Variable which_tahoe : list string.
(** [sys.platform == 'win32' and getattr(sys, 'frozen', False)] *)
Variable win32_frozen : bool.
(** The two launchers, as the operating system answers them. *)
Variable spawnProcess : string -> list string -> spawned.
Variable Popen : list string -> popened.

(** The reading loop of [_win32_popen]: returns at the first line holding
    the trigger, otherwise hands back the buffer filled so far. *)
Fixpoint read_lines (callback_trigger : option string) (lines : list string) (buf : string)
  : bool * string :=
  match lines with
  | [] => (false, buf)
  | line :: rest =>
      let buf := buf +:+ line in
      if triggers callback_trigger (rstrip line) then (true, buf)
      else read_lines callback_trigger rest buf
  end.

Definition _win32_popen (args : list string) (callback_trigger : option string)
  : outcome value :=
  let proc := Popen args in
  let '(hit, buf) := read_lines callback_trigger (po_lines proc) EmptyString in
  if hit then Ret (Pid (po_pid proc))
  else if truthy_code (po_returncode proc)
       then Raise (TahoeCommandError (strip (str_of_bytes buf)))
       else Ret (Output (strip (str_of_bytes buf))).

(** [self.executable if self.executable else which('tahoe')[0]]; [None] is
    the [IndexError] of indexing an empty list. *)
Definition select_exe (executable : option string) : option string :=
  match executable with
  | Some e => if nonempty e then Some e else head which_tahoe
  | None => head which_tahoe
  end.

(** [Tahoe.command]. [None] would be a Deferred that never fires; the
    protocol always fires it by [processEnded]. *)
Definition command (executable : option string) (nodedir : string)
    (args : list string) (callback_trigger : option string) : option (outcome value) :=
  match select_exe executable with
  | None => Some (Raise IndexError)
  | Some exe =>
      let args := ([exe] ++ ["-d"; nodedir] ++ args)%list in
      if win32_frozen then Some (_win32_popen args callback_trigger)
      else done (run_protocol (spawnProcess exe args) (init callback_trigger))
  end.

End Runner.

(** The lines the runner inspects for the trigger. *)
Definition streamed_lines (proc : spawned) : list string :=
  flat_map (fun d => split nl (strip (snd d))) (sp_data proc).

Definition abnormal (why : reason) : bool :=
  match why with ProcessDone => false | ProcessTerminated _ => true end.

(** Everything written to the buffer. *)
Definition captured (data : list string) : string :=
  fold_left String.append data EmptyString.

End Process.

(** ** Files of a node directory *)

Module Fs.
Import PyStr.

(** A path names a directory or a regular file with its text and its
    permission bits. *)
Inductive node : Type :=
| Dir
| Reg (content : string) (mode : Z).

(** [os.path.exists] *)
Definition exists_ (fs : gmap string node) (path : string) : bool :=
  bool_decide (is_Some (fs !! path)).

(** [os.path.isfile] *)
Definition isfile (fs : gmap string node) (path : string) : bool :=
  match fs !! path with Some (Reg _ _) => true | _ => false end.

(** [os.path.isdir] *)
Definition isdir (fs : gmap string node) (path : string) : bool :=
  match fs !! path with Some Dir => true | _ => false end.

(** [open(path).read()]; [None] is the [OSError] of a failed [open]. *)
Definition read (fs : gmap string node) (path : string) : option string :=
  match fs !! path with
  | Some (Reg content _) => Some content
  | _ => None
  end.

(** [os.path.dirname] *)
Definition dirname (path : string) : string :=
  let parts := removelast (split "/"%char path) in
  let head := String.concat "/" parts in
  if negb (nonempty head) && startswith "/" path then "/" else head.

(** [with open(path, 'w') as f: f.write(text)]. The file is created with
    mode [0o666 & ~umask]; an existing file keeps its mode. The [open]
    fails when the path is a directory or its parent is not one. *)
Definition write (umask : Z) (fs : gmap string node) (path text : string)
  : outcome (gmap string node) :=
  match fs !! path with
  | Some Dir => Raise (OSError ("Is a directory: " +:+ path))
  | Some (Reg _ mode) => Ret (<[path := Reg text mode]> fs)
  | None =>
      if isdir fs (dirname path)
      then Ret (<[path := Reg text (Z.land 438 (Z.lnot umask))]> fs)
      else Raise (OSError ("No such file or directory: " +:+ path))
  end.

(** Permission bits that grant nothing to group and others. *)
Definition owner_only (mode : Z) : bool := Z.land mode 63 =? 0.

End Fs.

(** ** The [Tahoe] object *)

Module Gateway.
Import PyStr.

(** A reference to a [Tahoe] object held in a folder entry: the arguments
    it was constructed with. *)
Record client_ref : Type := Client {
  client_nodedir : string;
  client_executable : option string
}.

(** One entry of [self.magic_folders]: a dict with optional keys. *)
Record folder : Type := Folder {
  directory : option string;
  folder_nodedir : option string;
  client : option client_ref;
  collective_dircap : option string;
  upload_dircap : option string;
  member : option string
}.

(** The attributes set by [__init__], save the [Config] and the lock. *)
Record Tahoe : Type := Build {
  executable : option string;
  nodedir : string;
  rootcap_path : string;
  pidfile : string;
  nodeurl : option string;
  shares_happy : option Z;
  name : string;
  api_token : option string;
  magic_folders_dir : string;
  rootcap : option string;
  magic_folders : gmap string folder
}.

(** [Tahoe(nodedir, executable)] for a given [nodedir] free of [~]. *)
Definition new (nodedir_arg : string) (executable_arg : option string) : Tahoe :=
  {| executable := executable_arg;
     nodedir := nodedir_arg;
     rootcap_path := path_join (path_join nodedir_arg "private") "rootcap";
     pidfile := path_join nodedir_arg "twistd.pid";
     nodeurl := None;
     shares_happy := None;
     name := basename nodedir_arg;
     api_token := None;
     magic_folders_dir := path_join nodedir_arg "magic-folders";
     rootcap := None;
     magic_folders := ∅ |}.

Definition set_rootcap (self : Tahoe) (cap : option string) : Tahoe :=
  {| executable := executable self; nodedir := nodedir self;
     rootcap_path := rootcap_path self; pidfile := pidfile self;
     nodeurl := nodeurl self; shares_happy := shares_happy self;
     name := name self; api_token := api_token self;
     magic_folders_dir := magic_folders_dir self;
     rootcap := cap; magic_folders := magic_folders self |}.

Definition set_magic_folders (self : Tahoe) (m : gmap string folder) : Tahoe :=
  {| executable := executable self; nodedir := nodedir self;
     rootcap_path := rootcap_path self; pidfile := pidfile self;
     nodeurl := nodeurl self; shares_happy := shares_happy self;
     name := name self; api_token := api_token self;
     magic_folders_dir := magic_folders_dir self;
     rootcap := rootcap self; magic_folders := m |}.

Definition set_nodeurl (self : Tahoe) (url : option string) : Tahoe :=
  {| executable := executable self; nodedir := nodedir self;
     rootcap_path := rootcap_path self; pidfile := pidfile self;
     nodeurl := url; shares_happy := shares_happy self;
     name := name self; api_token := api_token self;
     magic_folders_dir := magic_folders_dir self;
     rootcap := rootcap self; magic_folders := magic_folders self |}.

End Gateway.

(** An HTTP response: status code and decoded body. *)
Record response : Type := Response { code : Z; content : string }.

(** ** Capability graph bootstrap: [mkdir], [create_rootcap] *)

Module Rootcap.
Import PyStr Gateway.

Section Daemon.

(** [treq.post(url, params=...)] as the local daemon answers it; [None]
    stands for [ConnectError]. *)
Variable treq_post : string -> list (string * string) -> option response.
(** The file-creation mask of the process. *)
Variable umask : Z.

Definition mkdir (self : Tahoe) : outcome string :=
  match nodeurl self with
  | None => Raise TypeError
  | Some url =>
      match treq_post (url +:+ "uri") [("t", "mkdir")] with
      | None => Raise ConnectError
      | Some resp =>
          if code resp =? 200 then Ret (strip (content resp))
          else Raise (TahoeWebError
                        ("Error creating Tahoe-LAFS directory: " +:+ pretty (code resp)))
      end
  end.

Definition already_exists (self : Tahoe) : exn :=
  OSError ("Rootcap file already exists: " +:+ rootcap_path self).

(** [create_rootcap]: the outcome, the object and the files afterwards. *)
Definition create_rootcap (self : Tahoe) (fs : gmap string Fs.node)
  : outcome string * Tahoe * gmap string Fs.node :=
  if Fs.exists_ fs (rootcap_path self) then (Raise (already_exists self), self, fs)
  else
    match mkdir self with
    | Raise e => (Raise e, self, fs)
    | Ret cap =>
        let self := set_rootcap self (Some cap) in
        match Fs.write umask fs (rootcap_path self) cap with
        | Raise e => (Raise e, self, fs)
        | Ret fs' => (Ret cap, self, fs')
        end
    end.

End Daemon.

End Rootcap.

(** ** Gateway lifecycle: [stop], [_stop_magic_folder_subclients] *)

Module Lifecycle.
Import PyStr.

(** A node directory as [stop] sees it: its path, the text of its
    [twistd.pid] when that is a file, and the node directories that
    [get_nodedirs(self.magic_folders_dir)] lists below it, in that order. *)
Inductive nodetree : Type :=
| Node (dir : string) (pid : option string) (subs : list nodetree).

Definition node_dir (n : nodetree) : string := let 'Node d _ _ := n in d.
Definition node_pid (n : nodetree) : option string := let 'Node _ p _ := n in p.
Definition node_subs (n : nodetree) : list nodetree := let 'Node _ _ s := n in s.

(** What a call does to the outside world. *)
Inductive event : Type :=
| LogNoPidFile (nodedir : string)
| LogKillError (errno : Z)
| Kill (pid : Z)
| Remove (path : string)
| Command (nodedir : string) (args : list string).

Definition ESRCH : Z := 3.
Definition EINVAL : Z := 22.

Section Stop.

(** [sys.platform == 'win32'] *)
Variable win32 : bool.
(** [os.kill(pid, signal.SIGTERM)]: [Some errno] is an [OSError]. *)
Variable os_kill : Z -> option Z.
(** [Tahoe(nodedir, ...).command(args)] as the process runner resolves it. *)
Variable command : string -> list string -> outcome Process.value.

(** [gatherResults]: every task has run; the first failure, if any, is the
    failure of the whole. *)
Definition gather (first rest : outcome unit) : outcome unit :=
  match first with
  | Ret _ => rest
  | Raise e => Raise e
  end.

(** The part of [stop] that precedes [_stop_magic_folder_subclients], for
    a node whose pid file holds [text]: the outcome, whether the pid file
    is still there, and the events. *)
Definition stop_self (dir text : string) : outcome unit * bool * list event :=
  if win32 then
    match int text with
    | None => (Raise ValueError, true, [])
    | Some pid =>
        let logged :=
          match os_kill pid with
          | Some errno =>
              if (errno =? ESRCH) || (errno =? EINVAL) then []
              else [LogKillError errno]
          | None => []
          end in
        (Ret tt, false, [Kill pid] ++ logged ++ [Remove (path_join dir "twistd.pid")])%list
    end
  else
    match command dir ["stop"] with
    | Ret _ | Raise (TahoeCommandError _) => (Ret tt, true, [Command dir ["stop"]])
    | Raise e => (Raise e, true, [Command dir ["stop"]])
    end.

(** [stop], with [_stop_magic_folder_subclients] as the inner loop: every
    listed node directory gets a fresh [Tahoe] whose [stop] is run. *)
Fixpoint stop (n : nodetree) : outcome unit * nodetree * list event :=
  let 'Node dir pid subs := n in
  match pid with
  | None => (Ret tt, n, [LogNoPidFile dir])
  | Some text =>
      let '(r, kept, evs) := stop_self dir text in
      let pid' := if kept then pid else None in
      match r with
      | Raise e => (Raise e, Node dir pid' subs, evs)
      | Ret _ =>
          let '(rs, subs', evs') :=
            (fix stop_subclients (tasks : list nodetree)
               : outcome unit * list nodetree * list event :=
               match tasks with
               | [] => (Ret tt, [], [])
               | t :: rest =>
                   let '(r1, t', e1) := stop t in
                   let '(r2, rest', e2) := stop_subclients rest in
                   (gather r1 r2, t' :: rest', e1 ++ e2)%list
               end) subs in
          (rs, Node dir pid' subs', evs ++ evs')%list
      end
  end.

(** The inner loop on its own. *)
Fixpoint _stop_magic_folder_subclients (tasks : list nodetree)
  : outcome unit * list nodetree * list event :=
  match tasks with
  | [] => (Ret tt, [], [])
  | t :: rest =>
      let '(r1, t', e1) := stop t in
      let '(r2, rest', e2) := _stop_magic_folder_subclients rest in
      (gather r1 r2, t' :: rest', e1 ++ e2)%list
  end.

End Stop.

End Lifecycle.

(** ** [Tahoe.link], [Tahoe.unlink] under the gateway's [DeferredLock] *)

Module Lock.

(** A call issued against the gateway. *)
Inductive op : Type :=
| Link (dircap childname childcap : string)
| Unlink (dircap childname : string).

(** The URL posted by the call. *)
Definition request (nodeurl : string) (o : op) : string :=
  match o with
  | Link dircap childname childcap =>
      nodeurl +:+ "uri/" +:+ dircap +:+ "/?t=uri&name=" +:+ childname +:+ "&uri=" +:+ childcap
  | Unlink dircap childname =>
      nodeurl +:+ "uri/" +:+ dircap +:+ "/?t=unlink&name=" +:+ childname
  end.

(** Where the coroutine of a call stands: not yet called; suspended on
    [self.lock.acquire()]; suspended on [treq.post] inside the [try], the
    lock held; returned or raised, after the [finally]. *)
Inductive pc : Type :=
| Start
| Waiting
| Posting
| Finished (result : outcome unit).

Inductive event : Type :=
| Enter (task : nat) (url : string)
| Exit (task : nat).

(** The gateway's [DeferredLock] ([locked] and [waiting], each waiter
    with the URL its coroutine will post), the calls and the record of
    requests entered and left. *)
Record state : Type := State {
  locked : bool;
  waiting : list (nat * string);
  tasks : list pc;
  log : list event
}.

Definition init (n : nat) : state := State false [] (replicate n Start) [].

(** What a call concludes from the answer to its request, after the lock
    is released: [None] is the [ConnectError] passing through [finally]. *)
Definition conclude (answer : option response) : outcome unit :=
  match answer with
  | None => Raise ConnectError
  | Some resp =>
      if code resp =? 200 then Ret tt else Raise (TahoeWebError (content resp))
  end.

(** [DeferredLock.release]: the lock is handed to the first waiter, whose
    coroutine resumes at once and posts its request. *)
Definition release (s : state) : state :=
  match waiting s with
  | [] => State false [] (tasks s) (log s)
  | (j, url) :: rest =>
      State true rest (<[j := Posting]> (tasks s)) (log s ++ [Enter j url])
  end.

Section Steps.

Variable nodeurl : string.
Variable ops : list op.

(** One turn of the reactor: a call finds the lock free and posts; a call
    finds it held and queues; the request in flight is answered (or fails
    to connect), the [finally] releases the lock and the call concludes. *)
Inductive step : state -> state -> Prop :=
| step_call_free i o s :
    tasks s !! i = Some Start -> ops !! i = Some o -> locked s = false ->
    step s (State true (waiting s) (<[i := Posting]> (tasks s))
                  (log s ++ [Enter i (request nodeurl o)]))
| step_call_busy i o s :
    tasks s !! i = Some Start -> ops !! i = Some o -> locked s = true ->
    step s (State true (waiting s ++ [(i, request nodeurl o)])
                  (<[i := Waiting]> (tasks s)) (log s))
| step_answer i answer s :
    tasks s !! i = Some Posting ->
    step s (release (State (locked s) (waiting s)
                           (<[i := Finished (conclude answer)]> (tasks s))
                           (log s ++ [Exit i]))).

Definition reachable (s : state) : Prop := rtc step (init (length ops)) s.

End Steps.

(** Reading a record of requests: [Some None] when every request entered
    was left before the next one was entered, [Some (Some i)] when in
    addition the request of [i] is still in flight at the end, [None] when
    two requests overlap. *)
Fixpoint scan (inside : option nat) (l : list event) : option (option nat) :=
  match l with
  | [] => Some inside
  | Enter i _ :: rest =>
      match inside with
      | None => scan (Some i) rest
      | Some _ => None
      end
  | Exit i :: rest =>
      match inside with
      | Some j => if Nat.eqb i j then scan None rest else None
      | None => None
      end
  end.

Definition is_finished (p : pc) : bool :=
  match p with Finished _ => true | _ => false end.

(** The invariant kept by every turn of the reactor: the record of
    requests is well bracketed and ends inside the request of the one call
    that is posting, if any; the lock is held exactly then; the queue holds
    distinct calls, all suspended on [acquire]. *)
Record inv (s : state) (cur : option nat) : Prop := Inv {
  inv_scan : scan None (log s) = Some cur;
  inv_posting : forall i, tasks s !! i = Some Posting <-> cur = Some i;
  inv_locked : locked s = true <-> is_Some cur;
  inv_waiting : forall j url, (j, url) ∈ waiting s -> tasks s !! j = Some Waiting;
  inv_nodup : NoDup (waiting s).*1
}.

End Lock.

(** ** [Tahoe.get_aliases], [Tahoe.get_alias] *)

Module Aliases.
Import PyStr.

(** One pass of the loop body of [get_aliases]. *)
Definition add_line (aliases : gmap string string) (line : string) : gmap string string :=
  if startswith "#" line then aliases
  else match split_once ":"%char line with
       | Some (name, cap) => <[name +:+ ":" := strip cap]> aliases
       | None => aliases
       end.

(** [get_aliases]: [None] is the bare [return] taken on [IOError]. *)
Definition get_aliases (fs : gmap string Fs.node) (nodedir : string)
  : option (gmap string string) :=
  let aliases_file := path_join (path_join nodedir "private") "aliases" in
  match Fs.read fs aliases_file with
  | Some text => Some (fold_left add_line (readlines text) ∅)
  | None => None
  end.

(** [get_alias]: the loop over [items()] returns the value stored under the
    key equal to [alias]; falling off the loop, or the [AttributeError] on a
    missing table, gives [None]. *)
Definition get_alias (fs : gmap string Fs.node) (nodedir : string) (alias : string)
  : option string :=
  let alias := if negb (endswith ":" alias) then alias +:+ ":" else alias in
  match get_aliases fs nodedir with
  | Some aliases => aliases !! alias
  | None => None
  end.

End Aliases.

(** ** Grid status: [_parse_welcome_page], [get_grid_status] *)

(** A decoded JSON document, as [json.loads] returns it. Numbers are the
    integers; objects keep their members in order and are read by key
    (the first member with that key). *)
Inductive json : Type :=
| JNull
| JBool (b : bool)
| JNum (n : Z)
| JStr (s : string)
| JArr (items : list json)
| JObj (members : list (string * json)).

Module Json.

Fixpoint assoc (k : string) (members : list (string * json)) : option json :=
  match members with
  | [] => None
  | (k', v) :: rest => if String.eqb k k' then Some v else assoc k rest
  end.

Definition is_str (k : string) (j : json) : bool :=
  match j with JStr s => String.eqb k s | _ => false end.

(** [k in j] *)
Definition contains (k : string) (j : json) : outcome bool :=
  match j with
  | JObj members => Ret (bool_decide (is_Some (assoc k members)))
  | JArr items => Ret (existsb (is_str k) items)
  | JStr s => Ret (PyStr.contains k s)
  | _ => Raise TypeError
  end.

(** [j[k]] for a string key *)
Definition getitem (j : json) (k : string) : outcome json :=
  match j with
  | JObj members =>
      match assoc k members with
      | Some v => Ret v
      | None => Raise (KeyError k)
      end
  | _ => Raise TypeError
  end.

Fixpoint chars (s : string) : list json :=
  match s with
  | EmptyString => []
  | String c r => JStr (String c EmptyString) :: chars r
  end.

(** The items a [for] loop over [j] visits; [len(j)] is their number. *)
Definition iterate (j : json) : outcome (list json) :=
  match j with
  | JArr items => Ret items
  | JObj members => Ret (map (fun m => JStr (fst m)) members)
  | JStr s => Ret (chars s)
  | _ => Raise TypeError
  end.

(** [bool(j)] *)
Definition truthy (j : json) : bool :=
  match j with
  | JNull => false
  | JBool b => b
  | JNum n => negb (n =? 0)
  | JStr s => PyStr.nonempty s
  | JArr items => match items with [] => false | _ => true end
  | JObj members => match members with [] => false | _ => true end
  end.

(** [n + j] for an [int] on the left *)
Definition add (n : Z) (j : json) : outcome Z :=
  match j with
  | JNum m => Ret (n + m)
  | JBool b => Ret (n + if b then 1 else 0)
  | _ => Raise TypeError
  end.

(** [j.startswith(p)] *)
Definition startswith (p : string) (j : json) : outcome bool :=
  match j with
  | JStr s => Ret (PyStr.startswith p s)
  | _ => Raise AttributeError
  end.

End Json.

Module GridStatus.
Import PyStr.

Fixpoint drop (n : nat) (s : string) : string :=
  match n, s with
  | O, _ => s
  | S k, String _ r => drop k r
  | S _, EmptyString => EmptyString
  end.

(** The pattern [(.+?)suf] anchored at the head of [s]: the shortest
    non-empty run of characters other than the newline that is followed
    by [suf]. *)
Fixpoint lazy_group (suf : string) (s : string) : option string :=
  match s with
  | EmptyString => None
  | String c r =>
      if Ascii.eqb c nl then None
      else if String.prefix suf r then Some (String c EmptyString)
      else match lazy_group suf r with
           | Some g => Some (String c g)
           | None => None
           end
  end.

(** [re.search(pre + '(.+?)' + suf, s).group(1)] for literal [pre], [suf]. *)
Fixpoint search (pre suf : string) (s : string) : option string :=
  match (if String.prefix pre s then lazy_group suf (drop (String.length pre) s) else None) with
  | Some g => Some g
  | None =>
      match s with
      | EmptyString => None
      | String _ r => search pre suf r
      end
  end.

(** [re.findall(pre + '(.+?)' + suf, s)]: the matches from left to right,
    each search resuming where the previous match ended; [skip] counts the
    characters still covered by the last match. *)
Fixpoint findall_from (pre suf : string) (skip : nat) (s : string) : list string :=
  match s with
  | EmptyString => []
  | String _ r =>
      match skip with
      | S k => findall_from pre suf k r
      | O =>
          match (if String.prefix pre s
                 then lazy_group suf (drop (String.length pre) s) else None) with
          | Some g =>
              g :: findall_from pre suf
                     (String.length pre + String.length g + String.length suf - 1)%nat r
          | None => findall_from pre suf O r
          end
      end
  end.

Definition findall (pre suf : string) (s : string) : list string :=
  findall_from pre suf O s.

Section Parsers.

(** [gridsync.util.dehumanized_size]; [None] stands for its [ValueError]. *)
Variable dehumanized_size : string -> option Z.
(** [json.loads]; [None] stands for [JSONDecodeError]. *)
Variable json_loads : string -> option json.
(** [treq.get]; [None] stands for [ConnectError]. *)
Variable treq_get : string -> option response.

(** [int(match.group(1)) if match else 0] *)
Definition int_or_zero (m : option string) : outcome Z :=
  match m with
  | Some g => match int g with Some n => Ret n | None => Raise ValueError end
  | None => Ret 0
  end.

Definition add_cell (available_space : Z) (s : string) : Z :=
  match dehumanized_size s with
  | Some size => available_space + size
  | None => available_space
  end.

Definition _parse_welcome_page (html : string) : outcome (Z * Z * Z) :=
  match int_or_zero (search "Connected to <span>" "</span>" html) with
  | Raise e => Raise e
  | Ret servers_connected =>
      match int_or_zero (search "of <span>" "</span> known storage servers" html) with
      | Raise e => Raise e
      | Ret servers_known =>
          let available_space :=
            fold_left add_cell
              (findall (dquote +:+ "service-available-space" +:+ dquote +:+ ">")
                       "</td>" html) 0 in
          Ret (servers_connected, servers_known, available_space)
      end
  end.

(** One pass of [for server in servers]; the accumulator holds
    [(servers_connected, available_space)]. *)
Definition count_server (acc : Z * Z) (server : json) : outcome (Z * Z) :=
  let '(servers_connected, available_space) := acc in
  match Json.getitem server "connection_status" with
  | Raise e => Raise e
  | Ret status =>
      match Json.startswith "Connected" status with
      | Raise e => Raise e
      | Ret false => Ret acc
      | Ret true =>
          let servers_connected := servers_connected + 1 in
          match Json.getitem server "available_space" with
          | Raise e => Raise e
          | Ret space =>
              if Json.truthy space
              then match Json.getitem server "available_space" with
                   | Raise e => Raise e
                   | Ret space' =>
                       match Json.add available_space space' with
                       | Raise e => Raise e
                       | Ret total => Ret (servers_connected, total)
                       end
                   end
              else Ret (servers_connected, available_space)
          end
      end
  end.

Fixpoint count_servers (acc : Z * Z) (servers : list json) : outcome (Z * Z) :=
  match servers with
  | [] => Ret acc
  | server :: rest =>
      match count_server acc server with
      | Raise e => Raise e
      | Ret acc' => count_servers acc' rest
      end
  end.

(** [get_grid_status]; [Ret None] is a bare [return]. *)
Definition get_grid_status (nodeurl : option string) : outcome (option (Z * Z * Z)) :=
  match nodeurl with
  | None => Ret None
  | Some url =>
      if negb (nonempty url) then Ret None
      else
        match treq_get (url +:+ "?t=json") with
        | None => Ret None
        | Some resp =>
            if code resp =? 200 then
              match json_loads (content resp) with
              | None =>
                  match _parse_welcome_page (content resp) with
                  | Raise e => Raise e
                  | Ret r => Ret (Some r)
                  end
              | Some doc =>
                  match Json.contains "servers" doc with
                  | Raise e => Raise e
                  | Ret false => Ret (Some (0, 0, 0))
                  | Ret true =>
                      match Json.getitem doc "servers" with
                      | Raise e => Raise e
                      | Ret servers =>
                          match Json.iterate servers with
                          | Raise e => Raise e
                          | Ret items =>
                              let servers_known := Z.of_nat (length items) in
                              match count_servers (0, 0) items with
                              | Raise e => Raise e
                              | Ret (servers_connected, available_space) =>
                                  Ret (Some (servers_connected, servers_known,
                                             available_space))
                              end
                          end
                      end
                  end
              end
            else Ret None
        end
  end.

End Parsers.

(** The status triple in the words of the specification: the number of
    servers whose connection status starts with ["Connected"], the number
    of servers, and the sum of the connected servers' available space, a
    null or absent space counting for zero. *)
Definition is_connected (server : json) : bool :=
  match server with
  | JObj members =>
      match Json.assoc "connection_status" members with
      | Some (JStr s) => startswith "Connected" s
      | _ => false
      end
  | _ => false
  end.

Definition space_or_zero (server : json) : Z :=
  match server with
  | JObj members =>
      match Json.assoc "available_space" members with
      | Some (JNum n) => n
      | _ => 0
      end
  | _ => 0
  end.

Definition status_by_spec (servers : list json) : Z * Z * Z :=
  let connected := List.filter is_connected servers in
  (Z.of_nat (length connected), Z.of_nat (length servers),
   fold_left Z.add (map space_or_zero connected) 0).

(** A server entry the structured parser can read: an object whose
    ["connection_status"] is a string and which, when connected, carries an
    ["available_space"] member that is null or an integer. *)
Definition readable (server : json) : bool :=
  match server with
  | JObj members =>
      match Json.assoc "connection_status" members with
      | Some (JStr s) =>
          negb (startswith "Connected" s) ||
          match Json.assoc "available_space" members with
          | Some JNull | Some (JNum _) => true
          | _ => false
          end
      | _ => false
      end
  | _ => false
  end.

(** Modelled from the spec: [gridsync.util.dehumanized_size] is not among
    the sources; the specification's example fixes the two values used
    here, ["1kB"] being 1024 bytes and ["N/A"] not being a size. *)
Definition dehumanized_size_example (s : string) : option Z :=
  if String.eqb s "1kB" then Some 1024 else None.

(** The welcome page of the specification's example. *)
Definition space_cell (text : string) : string :=
  "<td class=" +:+ dquote +:+ "service-available-space" +:+ dquote +:+ ">" +:+ text +:+ "</td>".

Definition welcome_html : string :=
  String nl "        Connected to <span>3</span>of <span>10</span> known storage servers" +:+
  String nl "        " +:+ space_cell "N/A" +:+
  String nl "        " +:+ space_cell "1kB" +:+
  String nl "        " +:+ space_cell "1kB" +:+
  String nl "    ".

(** The three servers of the specification's structured example. *)
Definition example_servers : list json :=
  [ JObj [("connection_status", JStr "Trying to connect");
          ("nodeid", JStr "v0-aaaaaaaaaaaaaaaaaaaaaaaa");
          ("version", JNull); ("available_space", JNull);
          ("nickname", JStr "node1")];
    JObj [("connection_status", JStr "Connected to tcp:node2:4567 via tcp");
          ("nodeid", JStr "v0-bbbbbbbbbbbbbbbbbbbbbbbb");
          ("version", JStr "tahoe-lafs/1.12.1"); ("available_space", JNum 1024);
          ("nickname", JStr "node2")];
    JObj [("connection_status", JStr "Connected to tcp:node3:5678 via tcp");
          ("nodeid", JStr "v0-cccccccccccccccccccccccc");
          ("version", JStr "tahoe-lafs/1.12.1"); ("available_space", JNum 2048);
          ("nickname", JStr "node3")] ].

End GridStatus.

(** ** Magic-folder orchestration *)

Module MagicFolder.
Import PyStr Gateway.

(** What the orchestration asks of its surroundings: the operating
    system, the configuration file, the process runner, the daemon's web
    API, and the methods of [Tahoe] objects that are not unfolded here. A
    gateway is named by its node directory. *)
Inductive call : Type :=
| Makedirs (path : string)
| Rmtree (path : string)
| ConfigGet (nodedir section option : string)
| ReadCapFromFile (path : string)
| RunCommand (nodedir : string) (args : list string)
| CreateClient (nodedir : string) (settings : list (string * option string))
| Start (nodedir : string)
| Stop (nodedir : string)
| AwaitReady (nodedir : string)
| GetJson (nodedir : string) (cap : string)
| GetAlias (nodedir : string) (alias : string)
| GetMagicFolderDircap (nodedir : string)
| LinkCall (nodedir : string) (dircap : option string) (childname : string)
           (childcap : option string).

(** What comes back: nothing ([None]), a string, a decoded document, the
    receiver as the method left it, or an exception. *)
Inductive answer : Type :=
| ANone
| AStr (s : string)
| AJson (j : json)
| ASelf (g : Tahoe)
| ARaise (e : exn).

(** The surroundings answer a call knowing everything that happened
    before it. *)
Definition environment : Type := list (call * answer) -> call -> answer.

(** A computation runs in an environment on the gateway object and the
    record of calls made so far. *)
Definition M (A : Type) : Type :=
  environment -> Tahoe * list (call * answer) -> outcome A * (Tahoe * list (call * answer)).

#[global] Instance M_ret : MRet M := fun A a _ st => (Ret a, st).

#[global] Instance M_bind : MBind M := fun A B f m env st =>
  match m env st with
  | (Ret a, st') => f a env st'
  | (Raise e, st') => (Raise e, st')
  end.

Definition raise {A} (e : exn) : M A := fun _ st => (Raise e, st).

(** [try: m except ...: h] *)
Definition catch {A} (m : M A) (h : exn -> M A) : M A := fun env st =>
  match m env st with
  | (Ret a, st') => (Ret a, st')
  | (Raise e, st') => h e env st'
  end.

Definition get_self : M Tahoe := fun _ st => (Ret st.1, st).

Definition put_self (g : Tahoe) : M unit := fun _ st => (Ret tt, (g, st.2)).

Definition ask (c : call) : M answer := fun env st =>
  let a := env st.2 c in (Ret a, (st.1, (st.2 ++ [(c, a)])%list)).

Definition lift {A} (o : outcome A) : M A := fun _ st => (o, st).

(** Reading an answer as the result of a call made for its effect, of a
    call returning a string or [None], and of a method that may have
    updated its receiver. *)
Definition as_unit (a : answer) : outcome unit :=
  match a with
  | ARaise e => Raise e
  | _ => Ret tt
  end.

Definition as_str (a : answer) : outcome (option string) :=
  match a with
  | ARaise e => Raise e
  | AStr s => Ret (Some s)
  | ANone => Ret None
  | _ => Raise TypeError
  end.

Definition as_self (a : answer) : outcome (option Tahoe) :=
  match a with
  | ARaise e => Raise e
  | ASelf g => Ret (Some g)
  | _ => Ret None
  end.

Definition perform (c : call) : M unit := a ← ask c; lift (as_unit a).

Definition ask_str (c : call) : M (option string) := a ← ask c; lift (as_str a).

Definition perform_on_self (c : call) : M unit :=
  a ← ask c;
  g' ← lift (as_self a);
  g ← get_self;
  put_self (default g g').

(** The string behind [if s:], when the test succeeds. *)
Definition if_truthy (s : option string) : option string :=
  match s with
  | Some t => if nonempty t then Some t else None
  | None => None
  end.

(** [data[1]['ro_uri']] *)
Definition ro_uri (data : answer) : outcome json :=
  match data with
  | AJson (JArr items) =>
      match items !! 1%nat with
      | Some d => Json.getitem d "ro_uri"
      | None => Raise IndexError
      end
  | AJson (JObj _) => Raise (KeyError "1")
  | AJson (JStr s) => if (2 <=? String.length s)%nat then Raise TypeError else Raise IndexError
  | ARaise e => Raise e
  | _ => Raise TypeError
  end.

Definition empty_folder : folder := Folder None None None None None None.

Section Orchestration.

(** [str.format] of a decoded value; on a string it is the string. *)
Variable str_of_json : json -> string.
(** [os.path.realpath(os.path.expanduser(path))] *)
Variable realpath : string -> string.

(** [self.magic_folders[basename] = {'directory': path, 'client': subclient}] *)
Definition register (basename path : string) (subclient : client_ref) : M unit :=
  self ← get_self;
  put_self (set_magic_folders self
              (<[basename := Folder (Some path) None (Some subclient) None None None]>
                 (magic_folders self))).

Definition _create_magic_folder_subclient (path : string) (join_code : option string)
  : M (option client_ref) :=
  self ← get_self;
  let basename := basename path in
  let subclient := Client (path_join (magic_folders_dir self) basename) (executable self) in
  let sub := client_nodedir subclient in
  register basename path subclient;;
  nickname ← ask_str (ConfigGet (nodedir self) "node" "nickname");
  introducer ← ask_str (ConfigGet (nodedir self) "client" "introducer.furl");
  needed ← ask_str (ConfigGet (nodedir self) "client" "shares.needed");
  happy ← ask_str (ConfigGet (nodedir self) "client" "shares.happy");
  total ← ask_str (ConfigGet (nodedir self) "client" "shares.total");
  perform (CreateClient sub [("nickname", nickname); ("introducer", introducer);
                             ("shares-needed", needed); ("shares-happy", happy);
                             ("shares-total", total)]);;
  perform (Start sub);;
  perform (AwaitReady sub);;
  match if_truthy join_code with
  | Some join_code =>
      match split "+"%char join_code with
      | [collective_cap; personal_cap] =>
          join_code ←
            (if startswith "URI:DIR2:" collective_cap then
               ask (RunCommand sub ["add-alias"; "magic:"; collective_cap]);;
               data ← ask (GetJson (nodedir self) collective_cap);
               collective_cap_ro ← lift (ro_uri data);
               mret (str_of_json collective_cap_ro +:+ "+" +:+ personal_cap)
             else mret join_code);
          perform (RunCommand sub ["magic-folder"; "join"; join_code; path]);;
          perform (Stop sub);;
          perform (Start sub);;
          mret (Some subclient)
      | _ => raise ValueError
      end
  | None =>
      perform (RunCommand sub ["magic-folder"; "create"; "magic:"; "admin"; path]);;
      perform (Stop sub);;
      perform (Start sub);;
      rootcap ← ask_str (ReadCapFromFile (rootcap_path self));
      collective ← ask_str (GetAlias sub "magic");
      perform (LinkCall (nodedir self) rootcap (basename +:+ " (collective)") collective);;
      personal ← ask_str (GetMagicFolderDircap sub);
      perform (LinkCall (nodedir self) rootcap (basename +:+ " (personal)") personal);;
      mret None
  end.

(** What escapes [try: ... except OSError: pass]. *)
Definition past_oserror (o : outcome unit) : option exn :=
  match o with
  | Ret _ | Raise (OSError _) => None
  | Raise e => Some e
  end.

(** [os.makedirs] inside [try ... except OSError: pass] *)
Definition makedirs_quietly (path : string) : M unit :=
  a ← ask (Makedirs path);
  match past_oserror (as_unit a) with
  | Some e => raise e
  | None => mret tt
  end.

(** [self.get_magic_folder_client(name)] *)
Definition get_magic_folder_client (self : Tahoe) (name : string) : option client_ref :=
  magic_folders self !! name ≫= client.

(** [self.magic_folders[name]['upload_dircap'] = cap] on the [defaultdict] *)
Definition with_upload_dircap (self : Tahoe) (name cap : string) : Tahoe :=
  let f := default empty_folder (magic_folders self !! name) in
  set_magic_folders self
    (<[name := Folder (directory f) (folder_nodedir f) (client f)
                      (collective_dircap f) (Some cap) (member f)]>
       (magic_folders self)).

Definition cache_upload_dircap (name cap : string) : M unit :=
  self ← get_self;
  put_self (with_upload_dircap self name cap).

(** Where [get_magic_folder_dircap] reads the capability of [name] and
    the registry key it caches it under: the subclient's private directory
    when the folder has one, the gateway's own otherwise. *)
Definition dircap_file (self : Tahoe) (name : string) : string * string :=
  match get_magic_folder_client self name with
  | Some _ =>
      (path_join (path_join (path_join (magic_folders_dir self) name) "private")
                 "magic_folder_dircap", name)
  | None =>
      (path_join (path_join (nodedir self) "private") "magic_folder_dircap", "default")
  end.

(** [self.get_magic_folder_dircap(name)] *)
Definition get_magic_folder_dircap (name : string) : M (option string) :=
  self ← get_self;
  match magic_folders self !! name ≫= upload_dircap with
  | Some cap => mret (Some cap)
  | None =>
      cap ← ask_str (ReadCapFromFile (dircap_file self name).1);
      match if_truthy cap with
      | Some c => cache_upload_dircap (dircap_file self name).2 c
      | None => mret tt
      end;;
      mret cap
  end.

Definition create_magic_folder (path : string) (join_code : option string) : M unit :=
  self ← get_self;
  makedirs_quietly (magic_folders_dir self);;
  let path := realpath path in
  makedirs_quietly path;;
  let name := basename path in
  fallback ←
    @catch bool
          (perform (RunCommand (nodedir self)
                      ["magic-folder"; "create"; "-n"; name; name +:+ ":"; "admin"; path]);;
           mret false)
          (fun e =>
             match e with
             | TahoeCommandError msg =>
                 if endswith "not recognized" msg
                 then _create_magic_folder_subclient path join_code;; mret true
                 else mret false
             | _ => raise e
             end);
  match fallback with
  | true => mret tt
  | false =>
      perform_on_self (Stop (nodedir self));;
      perform_on_self (Start (nodedir self));;
      self ← get_self;
      rootcap ← ask_str (ReadCapFromFile (rootcap_path self));
      collective ← ask_str (GetAlias (nodedir self) name);
      perform (LinkCall (nodedir self) rootcap (name +:+ " (collective)") collective);;
      personal ← get_magic_folder_dircap name;
      perform (LinkCall (nodedir self) rootcap (name +:+ " (personal)") personal);;
      mret tt
  end.

Definition remove_magic_folder (name : string) : M unit :=
  self ← get_self;
  match magic_folders self !! name with
  | Some f =>
      let client := client f in
      put_self (set_magic_folders self (delete name (magic_folders self)));;
      match client with
      | Some c =>
          perform (RunCommand (nodedir self) ["magic-folder"; "leave"]);;
          perform (Stop (client_nodedir c));;
          ask (Rmtree (client_nodedir c));;
          mret tt
      | None =>
          perform (RunCommand (nodedir self) ["magic-folder"; "leave"; "-n"; name])
      end
  | None => mret tt
  end.

End Orchestration.

(** A daemon too old for [magic-folder create -n]: the native command is
    refused as "not recognized", everything else succeeds, and the
    metadata of any directory reports one read-only capability. *)
Definition old_daemon : environment := fun _ c =>
  match c with
  | RunCommand _ ("magic-folder" :: "create" :: "-n" :: _) =>
      ARaise (TahoeCommandError "Unknown command: -n not recognized")
  | GetJson _ _ =>
      AJson (JArr [JStr "dirnode"; JObj [("ro_uri", JStr "URI:DIR2-RO:aaa:bbb")]])
  | ReadCapFromFile _ => AStr "URI:DIR2:root:cap"
  | GetAlias _ _ => AStr "URI:DIR2:coll:cap"
  | GetMagicFolderDircap _ => AStr "URI:DIR2:pers:cap"
  | _ => ANone
  end.

Definition str_of_string (j : json) : string :=
  match j with JStr s => s | _ => EmptyString end.

Definition example_gateway : Tahoe :=
  set_nodeurl (new "/home/u/.tahoe" None) (Some "http://127.0.0.1:3456/").

(** The calls of a record, without their answers. *)
Definition calls (trace : list (call * answer)) : list call := map fst trace.

(** What the record of a run says about a join command sent to [sub]
    with the code [code]: the read-write capability was handed to [sub]
    under the alias [magic:], and the code is made of the read-only
    capability reported by the metadata of the collective, followed by the
    personal capability. *)
Definition join_explained (str_of_json : json -> string) (self : Tahoe)
    (sub collective personal : string) (trace : list (call * answer)) (code : string)
  : Prop :=
  In (RunCommand sub ["add-alias"; "magic:"; collective]) (calls trace) /\
  exists data ro,
    In (GetJson (nodedir self) collective, data) trace /\
    ro_uri data = Ret ro /\
    code = str_of_json ro +:+ "+" +:+ personal.

Definition is_link (c : call) : bool :=
  match c with LinkCall _ _ _ _ => true | _ => false end.

End MagicFolder.

(** ** Readiness: [get_connected_servers], [is_ready], [await_ready] *)

Module Readiness.
Import PyStr Gateway.

Section Polling.

(** [treq.get]; [None] stands for [ConnectError]. *)
Variable treq_get : string -> option response.

(** [get_connected_servers]; [Ret None] is a bare [return] or falling off
    the end. *)
Definition get_connected_servers (self : Tahoe) : outcome (option Z) :=
  match nodeurl self with
  | None => Ret None
  | Some url =>
      if negb (nonempty url) then Ret None
      else
        match treq_get url with
        | None => Ret None
        | Some resp =>
            if code resp =? 200 then
              match GridStatus.search "Connected to <span>" "</span>" (content resp) with
              | Some g =>
                  match int g with
                  | Some n => Ret (Some n)
                  | None => Raise ValueError
                  end
              | None => Ret None
              end
            else Ret None
        end
  end.

(** Truthiness of an optional integer. *)
Definition nonzero (n : option Z) : bool :=
  match n with
  | Some k => negb (k =? 0)
  | None => false
  end.

Definition is_ready (self : Tahoe) : outcome bool :=
  if negb (nonzero (shares_happy self)) then Ret false
  else
    match get_connected_servers self with
    | Raise e => Raise e
    | Ret connected_servers =>
        if negb (nonzero connected_servers) then Ret false
        else if default 0 (shares_happy self) <=? default 0 connected_servers
             then Ret true
             else Ret false
    end.

End Polling.

(** [await_ready]: the daemon's answers change from one poll to the next,
    [treq_get_at k] being what it answers to the poll that follows [k]
    sleeps of 0.2 s. The loop has no bound: [fuel] limits the number of
    sleeps the model follows, [None] meaning that the call has not returned
    within them. A call that returns has slept [k] times. *)
Fixpoint await_ready (fuel : nat) (treq_get_at : nat -> string -> option response)
    (self : Tahoe) (k : nat) : option (outcome nat) :=
  match is_ready (treq_get_at k) self with
  | Raise e => Some (Raise e)
  | Ret true => Some (Ret k)
  | Ret false =>
      match fuel with
      | O => None
      | S fuel' => await_ready fuel' treq_get_at self (S k)
      end
  end.

End Readiness.

(** ** Reading capabilities back: [read_cap_from_file], [get_rootcap] *)

Module Caps.
Import PyStr Gateway.

(** [read_cap_from_file]; [None] is the bare [return] on [OSError]. *)
Definition read_cap_from_file (fs : gmap string Fs.node) (filepath : string)
  : option string :=
  match Fs.read fs filepath with
  | Some text => Some (strip text)
  | None => None
  end.

(** Truthiness of an optional string. *)
Definition truthy (s : option string) : bool :=
  match s with Some t => nonempty t | None => false end.

(** [get_rootcap]: the value returned and the object afterwards. *)
Definition get_rootcap (self : Tahoe) (fs : gmap string Fs.node)
  : option string * Tahoe :=
  if negb (truthy (rootcap self))
  then let cap := read_cap_from_file fs (rootcap_path self) in
       (cap, set_rootcap self cap)
  else (rootcap self, self).

End Caps.

(** ** Node directories on disk: [get_nodedirs] *)

Module Nodedirs.
Import PyStr.

(** [sorted] on strings, by insertion; strings compare by code point. *)
Fixpoint insert_sorted (x : string) (l : list string) : list string :=
  match l with
  | [] => [x]
  | y :: rest => if String.leb x y then x :: l else y :: insert_sorted x rest
  end.

Definition sorted (l : list string) : list string := fold_right insert_sorted [] l.

(** The order [sorted] sorts by. *)
Definition le (a b : string) : Prop := String.leb a b = true.

(** The test of the loop body: a directory holding a [tahoe.cfg] file. *)
Definition is_nodedir (fs : gmap string Fs.node) (filepath : string) : bool :=
  Fs.isdir fs filepath && Fs.isfile fs (path_join filepath "tahoe.cfg").

Section Listing.

(** [os.listdir]; [None] stands for its [OSError]. *)
Variable listdir : string -> option (list string).

Definition get_nodedirs (fs : gmap string Fs.node) (basedir : string) : list string :=
  match listdir basedir with
  | Some filenames =>
      sorted (List.filter (is_nodedir fs) (map (path_join basedir) filenames))
  | None => sorted []
  end.

End Listing.

End Nodedirs.

(** ** The folder registry: [load_magic_folders] *)

Module Registry.
Import PyStr Gateway.

(** [self.magic_folders[key] = value] for every item of the persisted
    table. *)
Definition merge_table (registry : gmap string folder) (items : list (string * folder))
  : gmap string folder :=
  fold_left (fun m item => <[item.1 := item.2]> m) items registry.

Section Discovery.

(** [Config(os.path.join(nodedir, 'tahoe.cfg')).get('magic_folder',
    'local.directory')] *)
Variable local_directory : string -> option string.

(** One pass of the loop over the node directories found on disk. *)
Definition discover (registry : gmap string folder) (nodedir : string)
  : gmap string folder :=
  let folder_name := basename nodedir in
  match registry !! folder_name with
  | Some _ => registry
  | None =>
      <[folder_name := Folder (local_directory nodedir) (Some nodedir) None None None None]>
        registry
  end.

(** [load_magic_folders]: [data] is what [yaml.safe_load] returned for the
    persisted table ([None] when the file could not be opened or is empty),
    [nodedirs] what [get_nodedirs(self.magic_folders_dir)] lists. *)
Definition load_magic_folders (data : option (list (string * folder)))
    (nodedirs : list string) (self : Tahoe) : Tahoe :=
  let registry :=
    match data with
    | Some items => merge_table (magic_folders self) items
    | None => magic_folders self
    end in
  set_magic_folders self (fold_left discover nodedirs registry).

End Discovery.

(** The value a key ends up with after [merge_table]: that of its last
    item. *)
Fixpoint last_item (k : string) (items : list (string * folder)) : option folder :=
  match items with
  | [] => None
  | (k', v) :: rest =>
      match last_item k rest with
      | Some v' => Some v'
      | None => if String.eqb k k' then Some v else None
      end
  end.

End Registry.

(** ** Provisioning a node: [create_client] *)

Module ClientArgs.
Import PyStr.

(** A keyword value: [None], a string or an integer. *)
Inductive pyval : Type :=
| VNone
| VStr (s : string)
| VInt (n : Z).

(** [str(value)] *)
Definition str (v : pyval) : string :=
  match v with
  | VNone => "None"
  | VStr s => s
  | VInt n => pretty n
  end.

Definition valid_kwargs : list string :=
  ["nickname"; "introducer"; "shares-needed"; "shares-happy"; "shares-total"].

Definition mem (k : string) (l : list string) : bool := existsb (String.eqb k) l.

(** The body of the loop over [kwargs.items()]. *)
Definition option_args (item : string * pyval) : list string :=
  let '(key, value) := item in
  if mem key valid_kwargs then ["--" +:+ key; str value]
  else if mem key ["needed"; "happy"; "total"] then ["--shares-" +:+ key; str value]
  else [].

Definition create_client_args (kwargs : list (string * pyval)) : list string :=
  (["create-client"; "--webport=tcp:0:interface=127.0.0.1"] ++ flat_map option_args kwargs)%list.

(** [create_client]: [command] is [self.command]. *)
Definition create_client (fs : gmap string Fs.node) (nodedir : string)
    (command : list string -> outcome Process.value) (kwargs : list (string * pyval))
  : outcome unit :=
  if Fs.exists_ fs nodedir then Raise NodedirExistsError
  else match command (create_client_args kwargs) with
       | Ret _ => Ret tt
       | Raise e => Raise e
       end.

(** The long spelling of a keyword. *)
Definition long_key (key : string) : string :=
  if mem key ["needed"; "happy"; "total"] then "shares-" +:+ key else key.

Definition recognised (key : string) : bool :=
  mem key valid_kwargs || mem key ["needed"; "happy"; "total"].

End ClientArgs.

(** ** Choosing the executable: [Tahoe.version], [select_executable] *)

Module Executable.
Import PyStr.

(** [s.split()]: the words between runs of blanks. *)
Fixpoint words_from (cur : string) (s : string) : list string :=
  match s with
  | EmptyString => if nonempty cur then [cur] else []
  | String c r =>
      if is_space c
      then (if nonempty cur then [cur] else []) ++ words_from EmptyString r
      else words_from (cur +:+ String c EmptyString) r
  end.

Definition words (s : string) : list string := words_from EmptyString s.

(** [Tahoe.version]: [(self.executable, output.split()[1])] *)
Definition version (executable : string) (output : outcome string)
  : outcome (string * string) :=
  match output with
  | Raise e => Raise e
  | Ret text =>
      match words text with
      | _ :: v :: _ => Ret (executable, v)
      | _ => Raise IndexError
      end
  end.

(** [(int(version.split('.')[0]), int(version.split('.')[1]))]; [None]
    stands for the [IndexError] or [ValueError] the handler catches. *)
Definition major_minor (version : string) : option (Z * Z) :=
  match split "."%char version with
  | major :: rest =>
      match int major with
      | None => None
      | Some m =>
          match rest with
          | minor :: _ =>
              match int minor with
              | Some n => Some (m, n)
              | None => None
              end
          | [] => None
          end
      end
  | [] => None
  end.

(** [(major, minor) >= (1, 12)] *)
Definition at_least_1_12 (v : Z * Z) : bool :=
  (1 <? fst v) || ((fst v =? 1) && (12 <=? snd v)).

(** Whether the loop body returns the executable. *)
Definition accepted (version : string) : bool :=
  match major_minor version with
  | Some v => at_least_1_12 v
  | None => String.eqb version "unknown"
  end.

Fixpoint first_accepted (results : list (string * string)) : option string :=
  match results with
  | [] => None
  | (executable, version) :: rest =>
      if accepted version then Some executable else first_accepted rest
  end.

(** [gatherResults] over the [version()] calls: the first failure fails
    the whole. *)
Fixpoint gather (tasks : list (outcome (string * string)))
  : outcome (list (string * string)) :=
  match tasks with
  | [] => Ret []
  | Raise e :: _ => Raise e
  | Ret r :: rest =>
      match gather rest with
      | Ret rs => Ret (r :: rs)
      | Raise e => Raise e
      end
  end.

Section Select.

(** [sys.platform == 'darwin' and getattr(sys, 'frozen', False)] *)
Variable darwin_frozen : bool.
Variable pkgdir : string.
(** [which('tahoe')] *)
Variable which_tahoe : list string.
(** The output of [command(['--version'])] for an executable. *)
Variable version_output : string -> outcome string.

Definition select_executable : outcome (option string) :=
  if darwin_frozen then Ret (Some (path_join (path_join pkgdir "Tahoe-LAFS") "tahoe"))
  else
    match which_tahoe with
    | [] => Ret None
    | executables =>
        match gather (map (fun e => version e (version_output e)) executables) with
        | Raise e => Raise e
        | Ret results => Ret (first_accepted results)
        end
    end.

End Select.

End Executable.

(** ** Liveness of the link/unlink lock *)

Module Liveness.
Import Lock.

(** What the reactor's turns also keep, besides [Lock.inv]: no call is
    lost (there are as many as were issued), every call suspended on
    [acquire] is in the lock's queue, and the queue is empty whenever the
    lock is free. *)
Record settled (n : nat) (s : state) : Prop := Settled {
  settled_length : length (tasks s) = n;
  settled_queued : forall i, tasks s !! i = Some Waiting -> exists url, (i, url) ∈ waiting s;
  settled_held : waiting s <> [] -> locked s = true
}.

(** The turns of the reactor a call still needs: the call itself and
    the answer to its request. *)
Definition weight (p : pc) : nat :=
  match p with
  | Start => 2
  | Waiting => 1
  | Posting => 1
  | Finished _ => 0
  end.

Definition remaining (s : state) : nat := sum_list (map weight (tasks s)).

End Liveness.

(** ** Invitations *)

Module Sharing.
Import PyStr Gateway MagicFolder.

(** A computation that leaves the gateway object as it found it, whatever
    its surroundings answer and whether it returns or raises. *)
Definition keeps_self {A} (m : M A) : Prop :=
  forall env st, (m env st).2.1 = st.1.

(** [self.magic_folder_invite(name, nickname)]: the command is run by the
    folder's subclient when it has one, by the gateway otherwise;
    [code.strip()] on [None] raises [AttributeError]. *)
Definition magic_folder_invite (name nickname : string) : M string :=
  self ← get_self;
  code ← match get_magic_folder_client self name with
         | Some client =>
             ask_str (RunCommand (client_nodedir client)
                        ["magic-folder"; "invite"; "magic:"; nickname])
         | None =>
             ask_str (RunCommand (nodedir self)
                        ["magic-folder"; "invite"; "-n"; name; name +:+ ":"; nickname])
         end;
  match code with
  | Some text => mret (strip text)
  | None => raise AttributeError
  end.

(** What [magic_folder_invite] makes of the answer to its command. *)
Definition invitation (a : answer) : outcome string :=
  match as_str a with
  | Ret (Some text) => Ret (strip text)
  | Ret None => Raise AttributeError
  | Raise e => Raise e
  end.

End Sharing.

(** ** Subscripting decoded JSON *)

Module Subscript.

(** [repr] of a key that a decoded object cannot hold. *)
Definition repr (key : json) : string :=
  match key with
  | JNull => "None"
  | JBool true => "True"
  | JBool false => "False"
  | JNum n => pretty n
  | JStr s => s
  | _ => EmptyString
  end.

(** The position an integer subscript denotes in a sequence of length
    [len]: negative subscripts count from the end. *)
Definition position (len : nat) (n : Z) : option nat :=
  if (0 <=? n) && (n <? Z.of_nat len) then Some (Z.to_nat n)
  else if (n <? 0) && (0 <=? n + Z.of_nat len) then Some (Z.to_nat (n + Z.of_nat len))
  else None.

(** The integer behind a subscript, [bool] being a subclass of [int]. *)
Definition as_index (key : json) : option Z :=
  match key with
  | JNum n => Some n
  | JBool b => Some (if b then 1 else 0)
  | _ => None
  end.

Fixpoint char_at (s : string) (i : nat) : option string :=
  match s, i with
  | String c _, O => Some (String c EmptyString)
  | String _ r, S i' => char_at r i'
  | EmptyString, _ => None
  end.

(** [container[key]] *)
Definition item (container key : json) : outcome json :=
  match container with
  | JObj members =>
      match key with
      | JStr k =>
          match Json.assoc k members with
          | Some v => Ret v
          | None => Raise (KeyError k)
          end
      | JArr _ | JObj _ => Raise TypeError
      | _ => Raise (KeyError (repr key))
      end
  | JArr items =>
      match as_index key with
      | Some n =>
          match position (length items) n ≫= (items !!.) with
          | Some v => Ret v
          | None => Raise IndexError
          end
      | None => Raise TypeError
      end
  | JStr s =>
      match as_index key with
      | Some n =>
          match position (String.length s) n ≫= char_at s with
          | Some c => Ret (JStr c)
          | None => Raise IndexError
          end
      | None => Raise TypeError
      end
  | _ => Raise TypeError
  end.

(** [then_ o f]: [f] applied to what [o] returns, unless it raises. *)
Definition then_ {A B} (o : outcome A) (f : A -> outcome B) : outcome B :=
  match o with
  | Ret a => f a
  | Raise e => Raise e
  end.

End Subscript.

(** ** Folders found under the rootcap: [get_json],
    [get_magic_folders_from_rootcap] *)

Module Discovery.
Import PyStr Gateway Subscript.

(** [s.split(sep)[0]] for a non-empty [sep]: what precedes its first
    occurrence, all of [s] when there is none. *)
Fixpoint before (sep s : string) : string :=
  if String.prefix sep s then EmptyString
  else match s with
       | EmptyString => EmptyString
       | String c r => String c (before sep r)
       end.

(** One value of the [defaultdict(dict)] returned: the keys
    ['collective'] and ['personal'], when set. *)
Record links : Type := Links {
  collective : option json;
  personal : option json
}.

Definition no_links : links := Links None None.

(** [data_dict['rw_uri'] if 'rw_uri' in data_dict else data_dict['ro_uri']] *)
Definition uri_of (data_dict : json) : outcome json :=
  then_ (Json.contains "rw_uri" data_dict) (fun has =>
    if has : bool then Json.getitem data_dict "rw_uri"
    else Json.getitem data_dict "ro_uri").

(** The loop over [content[1]['children'].items()]. *)
Fixpoint collect (folders : gmap string links) (items : list (string * json))
  : outcome (gmap string links) :=
  match items with
  | [] => Ret folders
  | (name, data) :: rest =>
      then_ (item data (JNum 1)) (fun data_dict =>
        if endswith " (collective)" name then
          let prefix := before " (collective)" name in
          then_ (uri_of data_dict) (fun cap =>
            collect (<[prefix := Links (Some cap)
                                   (personal (default no_links (folders !! prefix)))]>
                       folders) rest)
        else if endswith " (personal)" name then
          let prefix := before " (personal)" name in
          then_ (uri_of data_dict) (fun cap =>
            collect (<[prefix := Links (collective (default no_links (folders !! prefix)))
                                   (Some cap)]>
                       folders) rest)
        else collect folders rest)
  end.

(** [d.items()] *)
Definition items_of (d : json) : outcome (list (string * json)) :=
  match d with
  | JObj members => Ret members
  | _ => Raise AttributeError
  end.

Definition folders_of (content : json) : outcome (gmap string links) :=
  then_ (item content (JNum 1)) (fun listing =>
  then_ (Json.getitem listing "children") (fun children =>
  then_ (items_of children) (collect ∅))).

(** Truthiness of an optional decoded value. *)
Definition truthy (content : option json) : bool :=
  match content with
  | Some j => Json.truthy j
  | None => false
  end.

Section Fetching.

(** [treq.get]; [None] stands for [ConnectError]. *)
Variable treq_get : string -> option response.
(** [json.loads] *)
Variable json_loads : string -> outcome json.

(** [get_json]; [Ret None] is a bare [return] or falling off the end. *)
Definition get_json (self : Tahoe) (cap : option string) : outcome (option json) :=
  if negb (Caps.truthy cap) || negb (Caps.truthy (nodeurl self)) then Ret None
  else
    let uri := default EmptyString (nodeurl self) +:+ "uri/" +:+ default EmptyString cap
               +:+ "/?t=json" in
    match treq_get uri with
    | None => Ret None
    | Some resp =>
        if code resp =? 200
        then then_ (json_loads (content resp)) (fun j => Ret (Some j))
        else Ret None
    end.

(** [get_magic_folders_from_rootcap]: what it returns or raises, and the
    object afterwards. *)
Definition get_magic_folders_from_rootcap (self : Tahoe) (fs : gmap string Fs.node)
    (content : option json) : outcome (option (gmap string links)) * Tahoe :=
  let '(fetched, self') :=
    if negb (truthy content)
    then let '(cap, self') := Caps.get_rootcap self fs in (get_json self' cap, self')
    else (Ret content, self) in
  (then_ fetched (fun content =>
     match content with
     | Some c =>
         if Json.truthy c then then_ (folders_of c) (fun folders => Ret (Some folders))
         else Ret None
     | None => Ret None
     end), self').

End Fetching.

(** The names under which [create_magic_folder] links a folder. *)
Definition collective_name (name : string) : string := name +:+ " (collective)".
Definition personal_name (name : string) : string := name +:+ " (personal)".

(** The children of a rootcap under which the folders [fs] were linked,
    [entry cap] being what the gateway lists for a child. *)
Definition linked (entry : json -> json) (fs : list (string * (json * json)))
  : list (string * json) :=
  flat_map (fun f => [(collective_name f.1, entry f.2.1);
                      (personal_name f.1, entry f.2.2)]) fs.

(** The folders found once the children of [fs] have been visited. *)
Definition found_after (acc : gmap string links) (fs : list (string * (json * json)))
  : gmap string links :=
  foldl (fun acc f => <[f.1 := Links (Some f.2.1) (Some f.2.2)]> acc) acc fs.

(** A folder name that holds neither suffix. *)
Definition plain (name : string) : Prop :=
  contains " (collective)" name = false /\ contains " (personal)" name = false.

End Discovery.

(** ** Members of a folder: the loop of [get_magic_folder_members] *)

Module Members.
Import PyStr Subscript.

(** [cap.split(':')[-1]] *)
Definition fingerprint (cap : string) : string :=
  List.last (split ":"%char cap) EmptyString.

(** [children[member][1]['ro_uri']] *)
Definition readcap_of (children member : json) : outcome json :=
  then_ (item children member) (fun data =>
  then_ (item data (JNum 1)) (fun metadata =>
  Json.getitem metadata "ro_uri")).

(** The loop over [children]: the list built so far and the value last
    assigned to [self.magic_folders[name]['member']], which stays assigned
    when a later iteration raises. *)
Fixpoint visit (children : json) (magic_folder_dircap : option string)
    (todo : list json) (members : list (json * json)) (mine : option json)
  : outcome (list (json * json)) * option json :=
  match todo with
  | [] => (Ret members, mine)
  | member :: rest =>
      match readcap_of children member with
      | Raise e => (Raise e, mine)
      | Ret readcap =>
          match MagicFolder.if_truthy magic_folder_dircap with
          | Some cap =>
              match readcap with
              | JStr text =>
                  if String.eqb (fingerprint text) (fingerprint cap)
                  then visit children magic_folder_dircap rest
                         ((member, readcap) :: members) (Some member)
                  else visit children magic_folder_dircap rest
                         (members ++ [(member, readcap)]) mine
              | _ => (Raise AttributeError, mine)
              end
          | None =>
              visit children magic_folder_dircap rest (members ++ [(member, readcap)]) mine
          end
      end
  end.

(** The body of [if content:], given the content and what
    [self.get_magic_folder_dircap(name)] returns. *)
Definition members_of (content : json) (magic_folder_dircap : option string)
  : outcome (list (json * json)) * option json :=
  match then_ (item content (JNum 1)) (fun listing => Json.getitem listing "children") with
  | Raise e => (Raise e, None)
  | Ret children =>
      match Json.iterate children with
      | Raise e => (Raise e, None)
      | Ret todo => visit children magic_folder_dircap todo [] None
      end
  end.

(** Whether a member is the local one. *)
Definition is_mine (magic_folder_dircap : string) (m : string * string) : bool :=
  String.eqb (fingerprint m.2) (fingerprint magic_folder_dircap).

Definition as_json (m : string * string) : json * json := (JStr m.1, JStr m.2).

End Members.

(** ** Subclients after a restart: [_start_magic_folder_subclients] *)

Module Restart.
Import PyStr Gateway.

(** One pass of the loop: a folder with a node directory gets a client
    for it. *)
Definition with_client (executable : option string) (settings : folder) : folder :=
  match MagicFolder.if_truthy (folder_nodedir settings) with
  | Some nodedir =>
      Folder (directory settings) (folder_nodedir settings)
             (Some (Client nodedir executable))
             (collective_dircap settings) (upload_dircap settings) (member settings)
  | None => settings
  end.

(** [_start_magic_folder_subclients]: the object afterwards and the node
    directories of the clients whose [start] is gathered. *)
Definition _start_magic_folder_subclients (self : Tahoe) : Tahoe * list string :=
  (set_magic_folders self (with_client (executable self) <$> magic_folders self),
   omap (fun item : string * folder => MagicFolder.if_truthy (folder_nodedir item.2))
        (map_to_list (magic_folders self))).

End Restart.

(** * Statements *)

Lemma endswith_app_self (a suf : string) : PyStr.endswith suf (a +:+ suf) = true.
Proof.
  induction a as [|c a IH]; simpl.
  - destruct suf; simpl; rewrite ?Ascii.eqb_refl, ?String.eqb_refl; reflexivity.
  - rewrite IH. apply orb_true_r.
Qed.

(** *** Aliases *)

(** C9: alias lookup does not depend on whether the caller wrote the
    trailing colon: for a name [a] that does not end in [":"],
    [get_alias a] and [get_alias (a + ":")] return the same result. *)
Theorem get_alias_colon_invariant (fs : gmap string Fs.node) (nodedir a : string) :
  PyStr.endswith ":" a = false ->
  Aliases.get_alias fs nodedir a = Aliases.get_alias fs nodedir (a +:+ ":").
Proof.
  intros Ha. unfold Aliases.get_alias.
  rewrite Ha, endswith_app_self. reflexivity.
Qed.

(** *** The process runner *)

Section ProcessFacts.
Import Process.

Lemma on_line_output pid p line : output (on_line pid p line) = output p.
Proof.
  unfold on_line. destruct (PyStr.nonempty line); simpl;
    destruct (done p); simpl; try reflexivity;
    destruct (triggers (trigger p) line); reflexivity.
Qed.

Lemma on_line_trigger pid p line : trigger (on_line pid p line) = trigger p.
Proof.
  unfold on_line. destruct (PyStr.nonempty line); simpl;
    destruct (done p); simpl; try reflexivity;
    destruct (triggers (trigger p) line); reflexivity.
Qed.

Lemma on_line_done pid p line :
  done (on_line pid p line) =
  match done p with
  | Some r => Some r
  | None => if triggers (trigger p) line then Some (Ret (Pid pid)) else None
  end.
Proof.
  unfold on_line. destruct (PyStr.nonempty line); simpl;
    destruct (done p) eqn:E; simpl; try reflexivity;
    destruct (triggers (trigger p) line); simpl; auto.
Qed.

Lemma lines_fold pid lines : forall p,
  let q := fold_left (on_line pid) lines p in
  output q = output p /\ trigger q = trigger p /\
  done q = match done p with
           | Some r => Some r
           | None => if existsb (triggers (trigger p)) lines
                     then Some (Ret (Pid pid)) else None
           end.
Proof.
  induction lines as [|l ls IH]; intros p; simpl.
  - destruct (done p); auto.
  - destruct (IH (on_line pid p l)) as (Ho & Ht & Hd).
    rewrite Ho, Ht, Hd, on_line_output, on_line_trigger, on_line_done.
    repeat split.
    destruct (done p); [reflexivity|].
    destruct (triggers (trigger p) l); reflexivity.
Qed.

Lemma deliver_fold pid data : forall p,
  let q := fold_left (deliver pid) data p in
  output q = fold_left String.append (map snd data) (output p) /\
  trigger q = trigger p /\
  done q = match done p with
           | Some r => Some r
           | None =>
               if existsb (triggers (trigger p))
                    (flat_map (fun d => PyStr.split PyStr.nl (PyStr.strip (snd d))) data)
               then Some (Ret (Pid pid)) else None
           end.
Proof.
  induction data as [|d ds IH]; intros p; simpl.
  - destruct (done p); auto.
  - destruct (IH (deliver pid p d)) as (Ho & Ht & Hd).
    assert (Hs : output (deliver pid p d) = output p +:+ snd d /\
                 trigger (deliver pid p d) = trigger p /\
                 done (deliver pid p d) =
                 match done p with
                 | Some r => Some r
                 | None => if existsb (triggers (trigger p))
                                (PyStr.split PyStr.nl (PyStr.strip (snd d)))
                           then Some (Ret (Pid pid)) else None
                 end).
    { unfold deliver, errReceived, outReceived.
      destruct (fst d);
        match goal with |- context [fold_left (on_line pid) ?ls ?q] =>
          destruct (lines_fold pid ls q) as (A & B & C) end;
        simpl in *; rewrite A, B, C; auto. }
    destruct Hs as (So & St & Sd).
    rewrite Ho, Ht, Hd, So, St, Sd. repeat split.
    rewrite existsb_app.
    destruct (done p); [reflexivity|].
    destruct (existsb _ (PyStr.split _ _)); reflexivity.
Qed.

(** What the Deferred of a spawned process resolves to. *)
Lemma run_protocol_done proc t :
  done (run_protocol proc (init t)) =
  Some (if existsb (triggers t) (streamed_lines proc) then Ret (Pid (sp_pid proc))
        else if abnormal (sp_reason proc)
             then Raise (TahoeCommandError (PyStr.strip (captured (map snd (sp_data proc)))))
             else Ret (Output (captured (map snd (sp_data proc))))).
Proof.
  unfold run_protocol, streamed_lines, captured.
  destruct (deliver_fold (sp_pid proc) (sp_data proc) (init t)) as (Ho & Ht & Hd).
  simpl in Ho, Ht, Hd.
  set (q := fold_left (deliver (sp_pid proc)) (sp_data proc) (init t)) in *.
  unfold processExited, processEnded.
  destruct (existsb _ _); rewrite Hd; simpl.
  - rewrite Hd. exact Hd.
  - destruct (sp_reason proc); simpl; rewrite ?Hd; simpl; rewrite ?Ho; reflexivity.
Qed.

Lemma read_lines_spec t lines : forall buf,
  read_lines t lines buf =
  (existsb (fun l => triggers t (PyStr.rstrip l)) lines,
   snd (read_lines t lines buf)) /\
  (existsb (fun l => triggers t (PyStr.rstrip l)) lines = false ->
   snd (read_lines t lines buf) = fold_left String.append lines buf).
Proof.
  induction lines as [|l ls IH]; intros buf; simpl.
  - auto.
  - destruct (triggers t (PyStr.rstrip l)); simpl.
    + split; [reflexivity | discriminate].
    + apply IH.
Qed.

End ProcessFacts.



(** *** Grid status *)

Section GridStatusFacts.
Import GridStatus.

Lemma count_server_readable acc server :
  readable server = true ->
  count_server acc server =
  Ret (if is_connected server
       then (fst acc + 1, snd acc + space_or_zero server)
       else acc).
Proof.
  destruct acc as [c a]. unfold readable, count_server, is_connected, space_or_zero.
  destruct server as [| | | |?|members]; try discriminate. simpl.
  destruct (Json.assoc "connection_status" members) as [[| | |s| |]|]; try discriminate.
  simpl. destruct (PyStr.startswith "Connected" s); simpl; [|reflexivity].
  destruct (Json.assoc "available_space" members) as [[| |n| | |]|]; try discriminate; simpl.
  - intros _. rewrite Z.add_0_r. reflexivity.
  - intros _. destruct (Z.eqb_spec n 0) as [->|]; simpl; [|reflexivity].
    rewrite Z.add_0_r. reflexivity.
Qed.

Lemma count_servers_readable servers : forall c a,
  forallb readable servers = true ->
  count_servers (c, a) servers =
  Ret (c + Z.of_nat (length (List.filter is_connected servers)),
       fold_left Z.add (map space_or_zero (List.filter is_connected servers)) a).
Proof.
  induction servers as [|s rest IH]; intros c a H.
  - simpl. rewrite Z.add_0_r. reflexivity.
  - cbn [forallb] in H. apply andb_prop in H as [Hs Hrest].
    cbn [count_servers List.filter].
    rewrite (count_server_readable (c, a) s Hs).
    destruct (is_connected s); cbn [fst snd].
    + rewrite (IH _ _ Hrest). cbn [length map fold_left]. f_equal. f_equal. lia.
    + apply (IH _ _ Hrest).
Qed.

Lemma assoc_is_Some k members v :
  Json.assoc k members = Some v -> bool_decide (is_Some (Json.assoc k members)) = true.
Proof. intros ->. apply bool_decide_eq_true. eauto. Qed.

End GridStatusFacts.

(** C6, as the code has it. For a 200 response: when the body decodes to
    an object whose ["servers"] member is a list of readable entries, the
    result is the triple of the specification (connected count, server
    count, sum of the connected servers' space, a null space counting for
    zero); when the body does not decode, the result is that of the
    welcome-page parser. On the two examples of the specification these are
    (2, 3, 3072) and, with ["1kB"] worth 1024 and ["N/A"] not a size,
    (3, 10, 2048). *)
Theorem grid_status_two_tier
    (dehumanized_size : string -> option Z) (json_loads : string -> option json)
    (treq_get : string -> option response) (url body : string) :
  PyStr.nonempty url = true ->
  treq_get (url +:+ "?t=json") = Some (Response 200 body) ->
  let result := GridStatus.get_grid_status dehumanized_size json_loads treq_get (Some url) in
  (forall members servers,
      json_loads body = Some (JObj members) ->
      Json.assoc "servers" members = Some (JArr servers) ->
      forallb GridStatus.readable servers = true ->
      result = Ret (Some (GridStatus.status_by_spec servers))) /\
  (json_loads body = None ->
   result = match GridStatus._parse_welcome_page dehumanized_size body with
            | Raise e => Raise e
            | Ret r => Ret (Some r)
            end) /\
  (forallb GridStatus.readable GridStatus.example_servers = true /\
   GridStatus.status_by_spec GridStatus.example_servers = (2, 3, 3072)) /\
  (dehumanized_size "N/A" = None -> dehumanized_size "1kB" = Some 1024 ->
   GridStatus._parse_welcome_page dehumanized_size GridStatus.welcome_html
   = Ret (3, 10, 2048)).
Proof.
  intros Hurl Hget result. subst result. unfold GridStatus.get_grid_status.
  rewrite Hurl, Hget. simpl. repeat split.
  - intros members servers Hdoc Hsrv Hread. rewrite Hdoc. simpl.
    rewrite (assoc_is_Some _ _ _ Hsrv), Hsrv. simpl.
    rewrite (count_servers_readable servers 0 0 Hread). reflexivity.
  - intros ->. reflexivity.
  - intros Hna Hkb. unfold GridStatus._parse_welcome_page.
    replace (GridStatus.search "Connected to <span>" "</span>" GridStatus.welcome_html)
      with (Some "3") by (vm_compute; reflexivity).
    replace (GridStatus.search "of <span>" "</span> known storage servers"
               GridStatus.welcome_html)
      with (Some "10") by (vm_compute; reflexivity).
    replace (GridStatus.findall _ _ GridStatus.welcome_html)
      with ["N/A"; "1kB"; "1kB"] by (vm_compute; reflexivity).
    simpl. unfold GridStatus.add_cell. rewrite Hna, Hkb. reflexivity.
Qed.

(** The structured example of the specification, served by a daemon whose
    status endpoint answers 200. *)
Lemma grid_status_two_tier_witness :
  GridStatus.get_grid_status GridStatus.dehumanized_size_example
    (fun _ => Some (JObj [("servers", JArr GridStatus.example_servers)]))
    (fun _ => Some (Response 200 "{...}"))
    (Some "http://127.0.0.1:3456/")
  = Ret (Some (2, 3, 3072)).
Proof.
  destruct (grid_status_two_tier GridStatus.dehumanized_size_example
    (fun _ => Some (JObj [("servers", JArr GridStatus.example_servers)]))
    (fun _ => Some (Response 200 "{...}"))
    "http://127.0.0.1:3456/" "{...}" eq_refl eq_refl) as (H & _ & (Hr & Hs) & _).
  rewrite <- Hs. apply (H _ _ eq_refl eq_refl Hr).
Defined.

(** C6 as stated fails for an absent space: a connected server without an
    ["available_space"] member makes the call raise [KeyError], where the
    claim promises (1, 1, 0). *)
Lemma grid_status_absent_space_raises :
  let servers := [JObj [("connection_status", JStr "Connected to tcp:node2:4567 via tcp");
                        ("nickname", JStr "node2")]] in
  let result := GridStatus.get_grid_status GridStatus.dehumanized_size_example
                  (fun _ => Some (JObj [("servers", JArr servers)]))
                  (fun _ => Some (Response 200 "{...}"))
                  (Some "http://127.0.0.1:3456/") in
  GridStatus.status_by_spec servers = (1, 1, 0) /\
  result = Raise (KeyError "available_space") /\
  result <> Ret (Some (GridStatus.status_by_spec servers)).
Proof. repeat split. discriminate. Qed.

(** The alias file of the test suite: both spellings find the capability. *)
Lemma get_alias_colon_invariant_witness :
  let fs : gmap string Fs.node :=
    {[ "/home/u/.tahoe/private/aliases" := Fs.Reg "test_alias: test_cap" 384 ]} in
  Aliases.get_alias fs "/home/u/.tahoe" "test_alias" = Some "test_cap" /\
  Aliases.get_alias fs "/home/u/.tahoe" "test_alias"
  = Aliases.get_alias fs "/home/u/.tahoe" "test_alias:".
Proof.
  split; [vm_compute; reflexivity|].
  apply (get_alias_colon_invariant _ "/home/u/.tahoe" "test_alias"). reflexivity.
Defined.

(** *** Rootcap bootstrap *)

Section RootcapFacts.
Import Gateway Rootcap.

Lemma mkdir_not_exists_error treq_post self e :
  mkdir treq_post self = Raise e -> e <> already_exists self.
Proof.
  unfold mkdir, already_exists.
  destruct (nodeurl self); [|intros [= <-]; discriminate].
  destruct (treq_post _ _) as [resp|]; [|intros [= <-]; discriminate].
  destruct (code resp =? 200); intros [= <-]; discriminate.
Qed.

Lemma write_not_exists_error umask fs self text e :
  Fs.write umask fs (rootcap_path self) text = Raise e -> e <> already_exists self.
Proof.
  unfold Fs.write, already_exists.
  destruct (fs !! rootcap_path self) as [[|]|]; try discriminate.
  - intros [= <-]. discriminate.
  - destruct (Fs.isdir _ _); [discriminate|]. intros [= <-]. discriminate.
Qed.

Lemma exists_after_write umask fs fs' path text :
  Fs.write umask fs path text = Ret fs' ->
  Fs.exists_ fs' path = true /\ Fs.read fs' path = Some text.
Proof.
  unfold Fs.write, Fs.exists_, Fs.read.
  destruct (fs !! path) as [[|]|]; try discriminate.
  - intros [= <-]. rewrite lookup_insert_eq. split; [|reflexivity].
    apply bool_decide_eq_true. eauto.
  - destruct (Fs.isdir _ _); [|discriminate]. intros [= <-].
    rewrite lookup_insert_eq. split; [|reflexivity].
    apply bool_decide_eq_true. eauto.
Qed.

End RootcapFacts.




(** C8, as the code has it. With no rootcap path, a daemon answering the
    [mkdir] request with status 200 and a writable private directory,
    [create_rootcap] returns the stripped body as the capability, stores it
    in the file, created with mode [0o666 & ~umask] and nothing else, and
    caches it in the [rootcap] attribute; the file is owner-only exactly
    when the umask clears the group and other read/write bits. *)
Theorem create_rootcap_fresh
    (treq_post : string -> list (string * string) -> option response) (umask : Z)
    (self : Gateway.Tahoe) (fs : gmap string Fs.node) (url body : string) :
  Fs.exists_ fs (Gateway.rootcap_path self) = false ->
  Gateway.nodeurl self = Some url ->
  treq_post (url +:+ "uri") [("t", "mkdir")] = Some (Response 200 body) ->
  Fs.isdir fs (Fs.dirname (Gateway.rootcap_path self)) = true ->
  let cap := PyStr.strip body in
  let mode := Z.land 438 (Z.lnot umask) in
  Rootcap.create_rootcap treq_post umask self fs
  = (Ret cap, Gateway.set_rootcap self (Some cap),
     <[Gateway.rootcap_path self := Fs.Reg cap mode]> fs) /\
  Fs.owner_only mode = (Z.land (Z.lnot umask) 54 =? 0).
Proof.
  intros Hex Hurl Hpost Hdir cap mode. split.
  - unfold Rootcap.create_rootcap, Rootcap.mkdir. rewrite Hex, Hurl, Hpost. simpl.
    fold cap. unfold Fs.write.
    unfold Fs.exists_ in Hex. apply bool_decide_eq_false in Hex.
    destruct (fs !! Gateway.rootcap_path self) eqn:E; [exfalso; apply Hex; eauto|].
    change (Gateway.rootcap_path (Gateway.set_rootcap self (Some cap)))
      with (Gateway.rootcap_path self).
    rewrite ?E, Hdir. reflexivity.
  - unfold Fs.owner_only, mode. f_equal.
    rewrite (Z.land_comm 438), <- Z.land_assoc. reflexivity.
Qed.

(** Under the usual mask 0o022 the rootcap file comes out with mode 0o644. *)
Lemma create_rootcap_fresh_witness :
  let self := Gateway.set_nodeurl (Gateway.new "/home/u/.tahoe" None)
                (Some "http://127.0.0.1:3456/") in
  let fs : gmap string Fs.node := {[ "/home/u/.tahoe/private" := Fs.Dir ]} in
  let post := fun (_ : string) (_ : list (string * string)) =>
                Some (Response 200 "URI:DIR2:abc234:def567") in
  Rootcap.create_rootcap post 18 self fs
  = (Ret "URI:DIR2:abc234:def567",
     Gateway.set_rootcap self (Some "URI:DIR2:abc234:def567"),
     <["/home/u/.tahoe/private/rootcap" := Fs.Reg "URI:DIR2:abc234:def567" 420]> fs).
Proof.
  intros self fs post.
  apply (create_rootcap_fresh post 18 self fs "http://127.0.0.1:3456/"
           "URI:DIR2:abc234:def567" eq_refl eq_refl eq_refl eq_refl).
Defined.

(** C8 as stated fails on the permissions: under the mask 0o022 the file
    written by [create_rootcap] is readable by group and others. *)
Lemma create_rootcap_not_owner_only :
  let self := Gateway.set_nodeurl (Gateway.new "/home/u/.tahoe" None)
                (Some "http://127.0.0.1:3456/") in
  let fs : gmap string Fs.node := {[ "/home/u/.tahoe/private" := Fs.Dir ]} in
  let post := fun (_ : string) (_ : list (string * string)) =>
                Some (Response 200 "URI:DIR2:abc234:def567") in
  let '(r, _, fs') := Rootcap.create_rootcap post 18 self fs in
  r = Ret "URI:DIR2:abc234:def567" /\
  fs' !! "/home/u/.tahoe/private/rootcap" = Some (Fs.Reg "URI:DIR2:abc234:def567" 420) /\
  Fs.owner_only 420 = false.
Proof. vm_compute. repeat split. Qed.

(** *** Lifecycle *)

Section LifecycleFacts.
Import Lifecycle.
Variable win32 : bool.
Variable os_kill : Z -> option Z.
Variable command : string -> list string -> outcome Process.value.

Local Abbreviation stop := (Lifecycle.stop win32 os_kill command).
Local Abbreviation stop_subclients :=
  (Lifecycle._stop_magic_folder_subclients win32 os_kill command).

Lemma stop_unfold dir text subs :
  stop (Node dir (Some text) subs) =
  let '(r, kept, evs) := stop_self win32 os_kill command dir text in
  let pid' := if kept then Some text else None in
  match r with
  | Raise e => (Raise e, Node dir pid' subs, evs)
  | Ret _ =>
      let '(rs, subs', evs') := stop_subclients subs in
      (rs, Node dir pid' subs', (evs ++ evs')%list)
  end.
Proof.
  cbn [Lifecycle.stop].
  destruct (stop_self win32 os_kill command dir text) as [[r kept] evs].
  destruct r as [[]|e]; [|reflexivity].
  lazymatch goal with |- context [match ?x with pair _ _ => _ end] =>
    assert (E : x = stop_subclients subs) end.
  { clear. induction subs as [|t rest IH]; [reflexivity|].
    cbn [Lifecycle._stop_magic_folder_subclients]. rewrite <- IH. reflexivity. }
  rewrite E. reflexivity.
Qed.

Lemma stop_subclients_spec subs :
  let '(rs, subs', evs) := stop_subclients subs in
  subs' = map (fun s => (stop s).1.2) subs /\
  (rs = Ret tt -> Forall (fun s => (stop s).1.1 = Ret tt) subs) /\
  Forall (fun s => incl (stop s).2 evs) subs.
Proof.
  induction subs as [|t rest IH]; cbn [Lifecycle._stop_magic_folder_subclients].
  - repeat split; constructor.
  - destruct (stop t) as [[r1 t'] e1] eqn:Et.
    destruct (stop_subclients rest) as [[r2 rest'] e2].
    destruct IH as (IH1 & IH2 & IH3). repeat split.
    + cbn [map]. rewrite Et, IH1. reflexivity.
    + intros Hr. destruct r1 as [[]|]; [|discriminate]. simpl in Hr.
      constructor; [rewrite Et; reflexivity | auto].
    + constructor.
      * rewrite Et. simpl. apply incl_appl, incl_refl.
      * eapply Forall_impl; [exact IH3|].
        intros s Hs. simpl in Hs. apply incl_appr. exact Hs.
Qed.

End LifecycleFacts.

(** C4, as the code has it. A missing pid file is not an error: [stop]
    logs it and returns at once, leaving the node tree as it was and doing
    nothing else, so that no subclient is stopped on that path. When the
    pid file is there and the call completes, through the signal path or
    the daemon's [stop] command, the [stop] of every listed subclient has
    run to completion inside the call: its outcome is a success, its events
    are among the events of the call, and the tree afterwards holds the
    subclients as their own [stop] leaves them. *)
Theorem stop_paths
    (win32 : bool) (os_kill : Z -> option Z)
    (command : string -> list string -> outcome Process.value)
    (dir : string) (pid : option string) (subs : list Lifecycle.nodetree) :
  let stop := Lifecycle.stop win32 os_kill command in
  let '(r, n', evs) := stop (Lifecycle.Node dir pid subs) in
  (pid = None ->
   r = Ret tt /\ n' = Lifecycle.Node dir pid subs /\ evs = [Lifecycle.LogNoPidFile dir]) /\
  (pid <> None -> r = Ret tt ->
   Lifecycle.node_subs n' = map (fun s => (stop s).1.2) subs /\
   Forall (fun s => (stop s).1.1 = Ret tt /\ incl (stop s).2 evs) subs).
Proof.
  intros stop. subst stop. destruct pid as [text|].
  - rewrite stop_unfold.
    destruct (Lifecycle.stop_self win32 os_kill command dir text) as [[r kept] evs].
    destruct r as [[]|e].
    + pose proof (stop_subclients_spec win32 os_kill command subs) as H.
      destruct (Lifecycle._stop_magic_folder_subclients win32 os_kill command subs)
        as [[rs subs'] evs'].
      destruct H as (H1 & H2 & H3).
      split; [discriminate|]. intros _ Hr. split; [exact H1|].
      specialize (H2 Hr). rewrite Forall_forall in *.
      intros s Hs. split; [auto|].
      apply incl_appr. auto.
    + split; [discriminate|]. intros _ [=].
  - simpl. split; [auto|]. intros H. contradiction.
Qed.

(** A parent with a pid file and one running subclient, off Windows: both
    daemons are told to stop. *)
Lemma stop_paths_witness :
  let sub := Lifecycle.Node "/home/u/.tahoe/magic-folders/Docs" (Some "4243") [] in
  Lifecycle.stop false (fun _ => None) (fun _ _ => Ret (Process.Output "STOPPING"))
    (Lifecycle.Node "/home/u/.tahoe" (Some "4242") [sub])
  = (Ret tt, Lifecycle.Node "/home/u/.tahoe" (Some "4242") [sub],
     [Lifecycle.Command "/home/u/.tahoe" ["stop"];
      Lifecycle.Command "/home/u/.tahoe/magic-folders/Docs" ["stop"]]) /\
  Forall (fun s =>
            (Lifecycle.stop false (fun _ => None)
               (fun _ _ => Ret (Process.Output "STOPPING")) s).1.1 = Ret tt /\
            incl (Lifecycle.stop false (fun _ => None)
                    (fun _ _ => Ret (Process.Output "STOPPING")) s).2
                 [Lifecycle.Command "/home/u/.tahoe" ["stop"];
                  Lifecycle.Command "/home/u/.tahoe/magic-folders/Docs" ["stop"]])
         [sub].
Proof.
  intros sub. split; [reflexivity|].
  pose proof (stop_paths false (fun _ => None) (fun _ _ => Ret (Process.Output "STOPPING"))
                "/home/u/.tahoe" (Some "4242") [sub]) as H.
  cbv zeta in H.
  change (Lifecycle.stop false (fun _ => None)
            (fun _ _ => Ret (Process.Output "STOPPING"))
            (Lifecycle.Node "/home/u/.tahoe" (Some "4242") [sub]))
    with (Ret tt, Lifecycle.Node "/home/u/.tahoe" (Some "4242") [sub],
          [Lifecycle.Command "/home/u/.tahoe" ["stop"];
           Lifecycle.Command "/home/u/.tahoe/magic-folders/Docs" ["stop"]]) in H.
  destruct H as [_ H]. apply H; [discriminate | reflexivity].
Defined.

(** C4 as stated fails on the missing-pid-file path: the parent has no pid
    file, its subclient is running; [stop] succeeds, leaves the subclient's
    pid file in place and issues no [stop] to it. *)
Lemma stop_missing_pid_skips_subclients :
  let sub := Lifecycle.Node "/home/u/.tahoe/magic-folders/Docs" (Some "4243") [] in
  let parent := Lifecycle.Node "/home/u/.tahoe" None [sub] in
  let stop := Lifecycle.stop false (fun _ => None)
                (fun _ _ => Ret (Process.Output "STOPPING")) in
  stop parent = (Ret tt, parent, [Lifecycle.LogNoPidFile "/home/u/.tahoe"]) /\
  (stop sub).2 = [Lifecycle.Command "/home/u/.tahoe/magic-folders/Docs" ["stop"]] /\
  ~ incl (stop sub).2 (stop parent).2.
Proof.
  repeat split. intros H. specialize (H _ (or_introl eq_refl)).
  simpl in H. destruct H as [H|[]]. discriminate.
Qed.

(** *** The link/unlink lock *)

Section LockFacts.
Import Lock.

Lemma scan_app l1 : forall inside l2,
  scan inside (l1 ++ l2) = scan inside l1 ≫= λ cur, scan cur l2.
Proof.
  induction l1 as [|e l1 IH]; intros inside l2; [reflexivity|].
  destruct e as [i url|i]; simpl; destruct inside as [j|]; try reflexivity.
  - apply IH.
  - destruct (Nat.eqb i j); [apply IH | reflexivity].
Qed.

Lemma lookup_update (l : list pc) i k x y :
  l !! i = Some y ->
  <[i := x]> l !! k = if decide (i = k) then Some x else l !! k.
Proof.
  intros Hi. destruct (decide (i = k)) as [->|Hne].
  - apply list_lookup_insert_eq. eapply lookup_lt_Some; eauto.
  - apply list_lookup_insert_ne. exact Hne.
Qed.

Lemma inv_init n : inv (init n) None.
Proof.
  constructor; simpl; try reflexivity.
  - intros i. split; [|discriminate].
    intros H. apply lookup_replicate in H as [H _]. discriminate.
  - split; [discriminate | intros [? [=]]].
  - intros j url H. inversion H.
  - constructor.
Qed.

Lemma inv_step nodeurl ops s s' :
  (exists cur, inv s cur) -> step nodeurl ops s s' -> exists cur', inv s' cur'.
Proof.
  intros [cur [Hscan Hpost Hlock Hwait Hnd]] Hstep.
  destruct Hstep as [i o s Hi Ho Hfree | i o s Hi Ho Hbusy | i answer s Hi].
  - (* the lock is free: the call posts *)
    assert (cur = None) as ->.
    { destruct cur; [|reflexivity]. destruct Hlock as [_ Hl].
      rewrite Hl in Hfree by eauto. discriminate. }
    exists (Some i); constructor; simpl.
    + rewrite scan_app, Hscan. reflexivity.
    + intros k. rewrite (lookup_update _ _ _ _ _ Hi).
      destruct (decide (i = k)) as [->|Hne]; [tauto|].
      rewrite Hpost. split; [discriminate | intros [= ?]; contradiction].
    + split; eauto.
    + intros j url Hj. rewrite (lookup_update _ _ _ _ _ Hi).
      specialize (Hwait _ _ Hj).
      destruct (decide (i = j)) as [->|]; [congruence | exact Hwait].
    + exact Hnd.
  - (* the lock is held: the call queues *)
    exists cur; constructor; simpl.
    + exact Hscan.
    + intros k. rewrite (lookup_update _ _ _ _ _ Hi).
      destruct (decide (i = k)) as [->|Hne]; [|apply Hpost].
      split; [discriminate|]. intros Hc. apply Hpost in Hc. congruence.
    + split; [intros _; apply Hlock, Hbusy | reflexivity].
    + intros j url Hj. rewrite (lookup_update _ _ _ _ _ Hi).
      apply elem_of_app in Hj as [Hj|Hj].
      * specialize (Hwait _ _ Hj).
        destruct (decide (i = j)) as [->|]; [congruence | exact Hwait].
      * apply list_elem_of_singleton in Hj as [= -> ->].
        rewrite decide_True by reflexivity. reflexivity.
    + rewrite fmap_app. apply NoDup_app. split; [exact Hnd|]. split.
      * intros j Hj Hj'. apply list_elem_of_singleton in Hj'. simpl in Hj'. subst j.
        apply list_elem_of_fmap in Hj as [[j url] [-> Hj]]. simpl in Hi.
        specialize (Hwait _ _ Hj). simpl in Hwait. congruence.
      * simpl. apply NoDup_singleton.
  - (* the request in flight is answered: release, then conclude *)
    assert (cur = Some i) as -> by (apply Hpost, Hi).
    unfold release. simpl.
    destruct (waiting s) as [|[j url] rest] eqn:Hq.
    + exists None; constructor; simpl.
      * rewrite scan_app, Hscan. simpl. rewrite Nat.eqb_refl. reflexivity.
      * intros k. rewrite (lookup_update _ _ _ _ _ Hi).
        destruct (decide (i = k)) as [->|Hne]; [split; discriminate|].
        rewrite Hpost. split; [intros [= ?]; contradiction | discriminate].
      * split; [discriminate | intros [? [=]]].
      * intros j url H. inversion H.
      * constructor.
    + assert (Hj : tasks s !! j = Some Waiting) by (apply (Hwait j url); left).
      assert (Hij : i <> j) by congruence.
      assert (Hj' : <[i := Finished (conclude answer)]> (tasks s) !! j = Some Waiting).
      { rewrite (lookup_update _ _ _ _ _ Hi), decide_False by exact Hij. exact Hj. }
      simpl in Hnd. apply NoDup_cons in Hnd as [Hjrest Hnd].
      exists (Some j); constructor; simpl.
      * rewrite !scan_app, Hscan. simpl. rewrite Nat.eqb_refl. reflexivity.
      * intros k. rewrite (lookup_update _ _ _ _ _ Hj').
        destruct (decide (j = k)) as [->|Hne]; [tauto|].
        rewrite (lookup_update _ _ _ _ _ Hi).
        destruct (decide (i = k)) as [->|Hne'].
        -- split; [discriminate | intros [= ?]; contradiction].
        -- rewrite Hpost. split; intros [= ?]; contradiction.
      * split; eauto.
      * intros k url' Hk. rewrite (lookup_update _ _ _ _ _ Hj').
        assert (Hk' : tasks s !! k = Some Waiting) by (apply (Hwait k url'); right; exact Hk).
        destruct (decide (j = k)) as [->|Hne].
        -- exfalso. apply Hjrest. apply list_elem_of_fmap. exists (k, url'). auto.
        -- rewrite (lookup_update _ _ _ _ _ Hi).
           destruct (decide (i = k)) as [->|]; [congruence | exact Hk'].
      * exact Hnd.
Qed.

Lemma inv_reachable nodeurl ops s :
  reachable nodeurl ops s -> exists cur, inv s cur.
Proof.
  unfold reachable. revert s. apply rtc_ind_r.
  - exists None. apply inv_init.
  - intros y z _ Hstep IH. eapply inv_step; eauto.
Qed.

End LockFacts.

(** C5: in every state reached by calls to [link] and [unlink] on one
    gateway, at most one request is in flight; the record of requests is
    well bracketed (each request entered is left before the next one is
    entered); the lock is held exactly while a request is in flight, so a
    call that has returned or raised, whatever the answer to its request,
    holds it no more: if the lock is held then, another call is posting;
    and once every call has concluded the lock is free. *)
Theorem link_unlink_serialized (nodeurl : string) (ops : list Lock.op) (s : Lock.state) :
  Lock.reachable nodeurl ops s ->
  (forall i j, Lock.tasks s !! i = Some Lock.Posting ->
               Lock.tasks s !! j = Some Lock.Posting -> i = j) /\
  (exists cur, Lock.scan None (Lock.log s) = Some cur) /\
  (Lock.locked s = true <-> exists i, Lock.tasks s !! i = Some Lock.Posting) /\
  (forall i r, Lock.tasks s !! i = Some (Lock.Finished r) -> Lock.locked s = true ->
               exists j, j <> i /\ Lock.tasks s !! j = Some Lock.Posting) /\
  (Forall (fun p => Lock.is_finished p = true) (Lock.tasks s) -> Lock.locked s = false).
Proof.
  intros Hreach.
  destruct (inv_reachable _ _ _ Hreach) as [cur [Hscan Hpost Hlock Hwait Hnd]].
  assert (Hheld : Lock.locked s = true <-> exists i, Lock.tasks s !! i = Some Lock.Posting).
  { rewrite Hlock. split.
    - intros [i ->]. exists i. apply Hpost. reflexivity.
    - intros [i Hi]. apply Hpost in Hi. eauto. }
  repeat split.
  - intros i j Hi Hj. apply Hpost in Hi, Hj. congruence.
  - eauto.
  - apply Hheld.
  - apply Hheld.
  - intros i r Hi Hl. apply Hheld in Hl as [j Hj]. exists j. split; [|exact Hj].
    intros ->. congruence.
  - intros Hall. apply not_true_is_false. intros Hl.
    apply Hheld in Hl as [j Hj].
    rewrite Forall_forall in Hall.
    specialize (Hall Lock.Posting (list_elem_of_lookup_2 _ _ _ Hj)). discriminate.
Qed.

(** Two calls on one gateway: the [link] posts, the [unlink] queues behind
    it, the [link] is answered with status 500 and raises; the lock has
    passed to the [unlink], whose request is now the one in flight. *)
Lemma link_unlink_serialized_witness :
  let url := "http://127.0.0.1:3456/" in
  let ops := [Lock.Link "URI:DIR2:root" "Docs (collective)" "URI:DIR2:c";
              Lock.Unlink "URI:DIR2:root" "Bob"] in
  let s := Lock.State true []
             [Lock.Finished (Raise (TahoeWebError "oops")); Lock.Posting]
             [Lock.Enter 0 (Lock.request url (Lock.Link "URI:DIR2:root" "Docs (collective)"
                                                "URI:DIR2:c"));
              Lock.Exit 0;
              Lock.Enter 1 (Lock.request url (Lock.Unlink "URI:DIR2:root" "Bob"))] in
  Lock.reachable url ops s /\
  (forall i r, Lock.tasks s !! i = Some (Lock.Finished r) -> Lock.locked s = true ->
               exists j, j <> i /\ Lock.tasks s !! j = Some Lock.Posting).
Proof.
  intros url ops s.
  assert (Hreach : Lock.reachable url ops s).
  { unfold Lock.reachable.
    eapply rtc_l.
    { apply (Lock.step_call_free url ops 0%nat
               (Lock.Link "URI:DIR2:root" "Docs (collective)" "URI:DIR2:c"));
        reflexivity. }
    eapply rtc_l.
    { apply (Lock.step_call_busy url ops 1%nat (Lock.Unlink "URI:DIR2:root" "Bob"));
        reflexivity. }
    eapply rtc_l.
    { apply (Lock.step_answer url ops 0%nat (Some (Response 500 "oops"))); reflexivity. }
    apply rtc_refl. }
  split; [exact Hreach|].
  apply (link_unlink_serialized url ops s Hreach).
Defined.

(** *** Magic folders *)

Ltac run_monad :=
  unfold mbind, mret, MagicFolder.M_bind, MagicFolder.M_ret, MagicFolder.perform,
    MagicFolder.perform_on_self, MagicFolder.ask_str, MagicFolder.ask,
    MagicFolder.get_self, MagicFolder.put_self, MagicFolder.raise, MagicFolder.lift,
    MagicFolder.catch in *;
  cbn [fst snd] in *.

(** Splits on whether the next call of the computation returns or raises. *)
Ltac next_call :=
  match goal with
  | |- context [MagicFolder.as_unit ?a] => destruct (MagicFolder.as_unit a) as [[]|?]
  | |- context [MagicFolder.as_str ?a] => destruct (MagicFolder.as_str a) as [?|?]
  | |- context [MagicFolder.as_self ?a] => destruct (MagicFolder.as_self a) as [[?|]|?]
  end.

(** C10: [remove_magic_folder] on a name that is not in the registry
    does nothing: it succeeds, makes no call (no command, no stop, no
    deletion) and leaves the object as it was. On a name that is in the
    registry the entry is deleted, whether the folder is owned by a
    subclient or native, and whatever the commands answer; nothing else of
    the object changes. *)
Theorem remove_magic_folder_frame
    (env : MagicFolder.environment) (self : Gateway.Tahoe)
    (trace : list (MagicFolder.call * MagicFolder.answer)) (name : string) :
  let '(r, (self', trace')) := MagicFolder.remove_magic_folder name env (self, trace) in
  (Gateway.magic_folders self !! name = None ->
   r = Ret tt /\ self' = self /\ trace' = trace) /\
  (forall f, Gateway.magic_folders self !! name = Some f ->
   self' = Gateway.set_magic_folders self (delete name (Gateway.magic_folders self)) /\
   Gateway.magic_folders self' !! name = None /\
   exists a rest,
     trace' = (trace ++
               (MagicFolder.RunCommand (Gateway.nodedir self)
                  (match Gateway.client f with
                   | Some _ => ["magic-folder"; "leave"]
                   | None => ["magic-folder"; "leave"; "-n"; name]
                   end), a) :: rest)%list).
Proof.
  unfold MagicFolder.remove_magic_folder. run_monad.
  destruct (Gateway.magic_folders self !! name) as [f|] eqn:Hf.
  - assert (Hdel : Gateway.magic_folders
                     (Gateway.set_magic_folders self (delete name (Gateway.magic_folders self)))
                   !! name = None) by apply lookup_delete_eq.
    destruct (Gateway.client f) as [c|] eqn:Hc; run_monad.
    + next_call; try next_call;
        (split; [discriminate|]; intros f' [= <-]; split; [reflexivity|];
         split; [exact Hdel|]; rewrite Hc; do 2 eexists;
         rewrite <- ?app_assoc; simpl; reflexivity).
    + next_call;
        (split; [discriminate|]; intros f' [= <-]; split; [reflexivity|];
         split; [exact Hdel|]; rewrite Hc; do 2 eexists;
         rewrite <- ?app_assoc; simpl; reflexivity).
  - split; [auto | discriminate].
Qed.

(** *** Joining a folder through a subclient *)

Lemma split_two_nonempty sep s a b :
  PyStr.split sep s = [a; b] -> PyStr.nonempty s = true.
Proof. destruct s; [discriminate | reflexivity]. Qed.

(** One step of a computation at a time: each lemma below runs the first
    action of a sequence and leaves the rest folded. *)
Section Stepping.
Import MagicFolder.
Context {B : Type}.
Variable env : environment.

Lemma step_ret {A} (f : A -> M B) (a : A) st : (mret a ≫= f) env st = f a env st.
Proof. reflexivity. Qed.

Lemma step_raise {A} (f : A -> M B) e st : (raise e ≫= f) env st = (Raise e, st).
Proof. reflexivity. Qed.

Lemma step_lift {A} (f : A -> M B) (o : outcome A) st :
  (lift o ≫= f) env st =
  match o with Ret a => f a env st | Raise e => (Raise e, st) end.
Proof. unfold mbind, M_bind, lift. destruct o; reflexivity. Qed.

Lemma step_assoc {A C} (m : M A) (h : A -> M C) (f : C -> M B) st :
  ((m ≫= h) ≫= f) env st = (m ≫= (fun a => h a ≫= f)) env st.
Proof.
  unfold mbind, M_bind. destruct (m env st) as [[a|e] st']; reflexivity.
Qed.

Lemma step_get_self (f : Gateway.Tahoe -> M B) g t :
  (get_self ≫= f) env (g, t) = f g env (g, t).
Proof. reflexivity. Qed.

Lemma step_put_self (f : unit -> M B) g' g t :
  (put_self g' ≫= f) env (g, t) = f tt env (g', t).
Proof. reflexivity. Qed.

Lemma step_ask (f : answer -> M B) c g t :
  (ask c ≫= f) env (g, t) = f (env t c) env (g, (t ++ [(c, env t c)])%list).
Proof. reflexivity. Qed.

Lemma step_perform (f : unit -> M B) c g t :
  (perform c ≫= f) env (g, t) =
  match as_unit (env t c) with
  | Ret u => f u env (g, (t ++ [(c, env t c)])%list)
  | Raise e => (Raise e, (g, (t ++ [(c, env t c)])%list))
  end.
Proof.
  unfold perform, mbind, M_bind, ask, lift. cbn [fst snd].
  destruct (as_unit (env t c)); reflexivity.
Qed.

Lemma step_ask_str (f : option string -> M B) c g t :
  (ask_str c ≫= f) env (g, t) =
  match as_str (env t c) with
  | Ret s => f s env (g, (t ++ [(c, env t c)])%list)
  | Raise e => (Raise e, (g, (t ++ [(c, env t c)])%list))
  end.
Proof.
  unfold ask_str, mbind, M_bind, ask, lift. cbn [fst snd].
  destruct (as_str (env t c)); reflexivity.
Qed.

Lemma step_perform_on_self (f : unit -> M B) c g t :
  (perform_on_self c ≫= f) env (g, t) =
  match as_self (env t c) with
  | Ret g' => f tt env (default g g', (t ++ [(c, env t c)])%list)
  | Raise e => (Raise e, (g, (t ++ [(c, env t c)])%list))
  end.
Proof.
  unfold perform_on_self, mbind, M_bind, ask, lift, put_self, get_self. cbn [fst snd].
  destruct (as_self (env t c)); reflexivity.
Qed.

Lemma step_makedirs (f : unit -> M B) path g t :
  (makedirs_quietly path ≫= f) env (g, t) =
  match past_oserror (as_unit (env t (Makedirs path))) with
  | None => f tt env (g, (t ++ [(Makedirs path, env t (Makedirs path))])%list)
  | Some e => (Raise e, (g, (t ++ [(Makedirs path, env t (Makedirs path))])%list))
  end.
Proof.
  unfold makedirs_quietly, mbind, M_bind, ask, raise, mret, M_ret. cbn [fst snd].
  destruct (past_oserror (as_unit (env t (Makedirs path)))); reflexivity.
Qed.

Lemma step_try_command (f : bool -> M B) (h : exn -> M bool) c b g t :
  (catch (perform c ≫= fun _ => mret b) h ≫= f) env (g, t) =
  match as_unit (env t c) with
  | Ret _ => f b env (g, (t ++ [(c, env t c)])%list)
  | Raise e => (h e ≫= f) env (g, (t ++ [(c, env t c)])%list)
  end.
Proof.
  unfold catch, perform, mbind, M_bind, ask, lift, mret, M_ret. cbn [fst snd].
  destruct (as_unit (env t c)) as [[]|e]; reflexivity.
Qed.

Lemma step_dircap (f : option string -> M B) name g t :
  (get_magic_folder_dircap name ≫= f) env (g, t) =
  match Gateway.magic_folders g !! name ≫= Gateway.upload_dircap with
  | Some cap => f (Some cap) env (g, t)
  | None =>
      let c := ReadCapFromFile (dircap_file g name).1 in
      match as_str (env t c) with
      | Ret cap =>
          f cap env
            (match if_truthy cap with
             | Some text => with_upload_dircap g (dircap_file g name).2 text
             | None => g
             end, (t ++ [(c, env t c)])%list)
      | Raise e => (Raise e, (g, (t ++ [(c, env t c)])%list))
      end
  end.
Proof.
  unfold get_magic_folder_dircap. rewrite step_assoc, step_get_self.
  destruct (Gateway.magic_folders g !! name ≫= Gateway.upload_dircap); [reflexivity|].
  rewrite step_assoc, step_ask_str. cbv zeta.
  destruct (as_str _) as [cap|e]; [|reflexivity].
  rewrite step_assoc. destruct (if_truthy cap); reflexivity.
Qed.

Lemma fallback_trace {A} (m : M A) (k : bool -> M unit) st :
  (forall st', (k true env st').2.2 = st'.2) ->
  (((m ≫= fun _ => mret true) ≫= k) env st).2.2 = (m env st).2.2.
Proof.
  intros Hk. unfold mbind, M_bind, mret, M_ret.
  destruct (m env st) as [[a|e] st']; [apply Hk | reflexivity].
Qed.

End Stepping.

(** Runs the next action, names the answer of the surroundings and splits
    on whether the action returns or raises. *)
Ltac name_answer :=
  match goal with
  | |- context [?e ?t ?c] =>
      match type of e with
      | MagicFolder.environment => let a := fresh "a" in set (a := e t c); clearbody a
      end
  end.

Ltac step :=
  first [ rewrite step_get_self | rewrite step_put_self | rewrite step_ret
        | rewrite step_raise | rewrite step_assoc
        | rewrite step_ask; name_answer
        | rewrite step_perform; name_answer;
          match goal with |- context [MagicFolder.as_unit ?a] =>
            destruct (MagicFolder.as_unit a) as [[]|?] end
        | rewrite step_ask_str; name_answer;
          match goal with |- context [MagicFolder.as_str ?a] =>
            destruct (MagicFolder.as_str a) as [?|?] end
        | rewrite step_perform_on_self; name_answer;
          match goal with |- context [MagicFolder.as_self ?a] =>
            destruct (MagicFolder.as_self a) as [?|?] end
        | rewrite step_makedirs; name_answer;
          match goal with |- context [MagicFolder.past_oserror ?o] =>
            destruct (MagicFolder.past_oserror o) as [?|] end
        | rewrite step_dircap; cbv zeta;
          match goal with |- context [?m !! ?k ≫= Gateway.upload_dircap] =>
            destruct (m !! k ≫= Gateway.upload_dircap);
            [|name_answer;
              match goal with |- context [MagicFolder.as_str ?a] =>
                destruct (MagicFolder.as_str a) as [?|?] end]
          end
        | rewrite step_lift;
          match goal with |- context [match ?o with Ret _ => _ | Raise _ => _ end] =>
            destruct o eqn:? end ];
  cbv beta.

Ltac split_membership H :=
  unfold MagicFolder.calls in H; rewrite ?map_app, ?in_app_iff in H; cbn [map In fst] in H.

(** Settles the end of a run: a join command found in the record is older
    than the run, or it is the one sent with the diminished code. *)
Ltac close_leaf :=
  hnf; unfold mret, MagicFolder.M_ret; cbn [snd fst];
  let H := fresh "H" in
  intros H; split_membership H;
  repeat (destruct H as [H|H]);
  first [ left; exact H | contradiction | discriminate
        | injection H as <- <-; right; split;
          [ unfold MagicFolder.calls; rewrite ?map_app, ?in_app_iff;
            cbn [map In fst]; tauto
          | match goal with Hro : MagicFolder.ro_uri ?data = Ret ?ro |- _ =>
              exists data, ro; rewrite ?in_app_iff; cbn [In]; repeat split; auto; tauto
            end ] ].

Ltac at_leaf :=
  match goal with
  | |- _ (snd (snd (Raise _, _))) => solve [close_leaf]
  | |- _ (snd (snd (mret _ _ _))) => solve [close_leaf]
  end.

Section JoinFacts.
Import MagicFolder.
Variable str_of_json : json -> string.
Variable env : environment.

Lemma subclient_join_code self t0 path join_code collective personal :
  PyStr.split "+"%char join_code = [collective; personal] ->
  PyStr.startswith "URI:DIR2:" collective = true ->
  let sub := PyStr.path_join (Gateway.magic_folders_dir self) (PyStr.basename path) in
  let run := _create_magic_folder_subclient str_of_json path (Some join_code) env (self, t0) in
  forall code p,
    In (RunCommand sub ["magic-folder"; "join"; code; p]) (calls run.2.2) ->
    In (RunCommand sub ["magic-folder"; "join"; code; p]) (calls t0) \/
    join_explained str_of_json self sub collective personal run.2.2 code.
Proof.
  intros Hsplit Hrw sub run code p. subst run.
  set (ok := fun t : list (call * answer) =>
         In (RunCommand sub ["magic-folder"; "join"; code; p]) (calls t) ->
         In (RunCommand sub ["magic-folder"; "join"; code; p]) (calls t0) \/
         join_explained str_of_json self sub collective personal t code).
  change (ok (_create_magic_folder_subclient str_of_json path (Some join_code) env
                (self, t0)).2.2).
  unfold _create_magic_folder_subclient, register.
  cbn [if_truthy]. rewrite (split_two_nonempty _ _ _ _ Hsplit), Hsplit, Hrw.
  cbn [Gateway.client_nodedir]. fold sub.
  repeat (step; try at_leaf).
Qed.

End JoinFacts.

(** C1, as the code has it. When [create_magic_folder] is given a join
    code [collective + "+" + personal] whose collective capability is
    read-write, every [magic-folder join] command sent to the subclient
    carries, in place of that capability, the read-only capability that the
    gateway's [get_json] reported for it, followed by the personal
    capability; and by then the read-write capability itself has been
    handed to the subclient in an [add-alias magic:] command. *)
Theorem join_code_is_diminished
    (str_of_json : json -> string) (realpath : string -> string)
    (env : MagicFolder.environment) (self : Gateway.Tahoe)
    (path join_code collective personal : string) :
  PyStr.split "+"%char join_code = [collective; personal] ->
  PyStr.startswith "URI:DIR2:" collective = true ->
  let sub := PyStr.path_join (Gateway.magic_folders_dir self)
               (PyStr.basename (realpath path)) in
  let trace := (MagicFolder.create_magic_folder str_of_json realpath path
                  (Some join_code) env (self, [])).2.2 in
  forall code p,
    In (MagicFolder.RunCommand sub ["magic-folder"; "join"; code; p])
       (MagicFolder.calls trace) ->
    MagicFolder.join_explained str_of_json self sub collective personal trace code.
Proof.
  intros Hsplit Hrw sub trace code p. subst trace.
  set (ok := fun t : list (MagicFolder.call * MagicFolder.answer) =>
         In (MagicFolder.RunCommand sub ["magic-folder"; "join"; code; p])
            (MagicFolder.calls t) ->
         MagicFolder.join_explained str_of_json self sub collective personal t code).
  change (ok (MagicFolder.create_magic_folder str_of_json realpath path
                (Some join_code) env (self, [])).2.2).
  unfold MagicFolder.create_magic_folder. cbv zeta.
  do 3 (step; try at_leaf).
  rewrite step_try_command. name_answer.
  destruct (MagicFolder.as_unit a1) as [[]|e].
  - repeat (step; try at_leaf).
  - destruct e; cbv beta iota; try (rewrite step_raise; at_leaf).
    destruct (PyStr.endswith "not recognized" msg).
    + rewrite fallback_trace by reflexivity.
      intros H.
      destruct (subclient_join_code str_of_json env self _ (realpath path) join_code
                  collective personal Hsplit Hrw code p H) as [Hold|Hnew];
        [|exact Hnew].
      exfalso. split_membership Hold.
      repeat (destruct Hold as [Hold|Hold]); first [contradiction | discriminate].
    + repeat (step; try at_leaf).
Qed.

(** The run of the old daemon: the join command carries the read-only
    capability of the collective. *)
Lemma join_code_is_diminished_witness :
  MagicFolder.join_explained MagicFolder.str_of_string MagicFolder.example_gateway
    "/home/u/.tahoe/magic-folders/Docs" "URI:DIR2:ccc:ddd" "URI:DIR2:eee:fff"
    (MagicFolder.create_magic_folder MagicFolder.str_of_string (fun p => p) "/home/u/Docs"
       (Some "URI:DIR2:ccc:ddd+URI:DIR2:eee:fff") MagicFolder.old_daemon
       (MagicFolder.example_gateway, [])).2.2
    "URI:DIR2-RO:aaa:bbb+URI:DIR2:eee:fff".
Proof.
  apply (join_code_is_diminished MagicFolder.str_of_string (fun p => p)
           MagicFolder.old_daemon MagicFolder.example_gateway "/home/u/Docs"
           "URI:DIR2:ccc:ddd+URI:DIR2:eee:fff" "URI:DIR2:ccc:ddd" "URI:DIR2:eee:fff"
           eq_refl eq_refl "URI:DIR2-RO:aaa:bbb+URI:DIR2:eee:fff" "/home/u/Docs").
  vm_compute. repeat (first [left; reflexivity | right]).
Defined.

(** C1 as stated fails in its conclusion: on the subclient path the
    joining subclient is sent the read-write collective capability, in the
    [add-alias] command that precedes the join. *)
Lemma join_hands_over_admin_cap :
  let trace := (MagicFolder.create_magic_folder MagicFolder.str_of_string (fun p => p)
                  "/home/u/Docs" (Some "URI:DIR2:ccc:ddd+URI:DIR2:eee:fff")
                  MagicFolder.old_daemon (MagicFolder.example_gateway, [])).2.2 in
  PyStr.startswith "URI:DIR2:" "URI:DIR2:ccc:ddd" = true /\
  In (MagicFolder.RunCommand "/home/u/.tahoe/magic-folders/Docs"
        ["add-alias"; "magic:"; "URI:DIR2:ccc:ddd"])
     (MagicFolder.calls trace).
Proof.
  split; [reflexivity|]. vm_compute. repeat (first [left; reflexivity | right]).
Qed.


(** A gateway with an empty registry: removing a folder does nothing. *)
Lemma remove_magic_folder_frame_witness :
  MagicFolder.remove_magic_folder "Docs" MagicFolder.old_daemon
    (MagicFolder.example_gateway, [])
  = (Ret tt, (MagicFolder.example_gateway, [])).
Proof.
  pose proof (remove_magic_folder_frame MagicFolder.old_daemon
                MagicFolder.example_gateway [] "Docs") as H.
  destruct (MagicFolder.remove_magic_folder "Docs" MagicFolder.old_daemon
              (MagicFolder.example_gateway, [])) as [r [self' trace']].
  destruct H as [H _]. destruct (H eq_refl) as (-> & -> & ->). reflexivity.
Defined.
(** * Further statements *)

(** *** Stripping *)

Section StripFacts.
Import PyStr.

Lemma rstrip_empty_iff s : rstrip s = EmptyString <-> lstrip s = EmptyString.
Proof.
  induction s as [|c s IH]; simpl; [tauto|].
  destruct (rstrip s) eqn:E.
  - destruct (is_space c); [tauto|]. split; discriminate.
  - destruct (is_space c).
    + split; [discriminate|]. intros H. apply IH in H. discriminate.
    + split; discriminate.
Qed.

Lemma rstrip_idempotent s : rstrip (rstrip s) = rstrip s.
Proof.
  induction s as [|c s IH]; simpl; [reflexivity|].
  destruct (rstrip s) as [|d r] eqn:E.
  - destruct (is_space c) eqn:Ec; simpl; [reflexivity|]. rewrite Ec. reflexivity.
  - change (rstrip (String c (String d r))) with
      (match rstrip (String d r) with
       | EmptyString => if is_space c then EmptyString else String c EmptyString
       | r' => String c r'
       end).
    rewrite IH. reflexivity.
Qed.

Lemma rstrip_head c s d r : rstrip (String c s) = String d r -> d = c.
Proof.
  simpl. destruct (rstrip s); [destruct (is_space c)|]; congruence.
Qed.

Lemma lstrip_fixed c s : is_space c = false -> lstrip (String c s) = String c s.
Proof. intros H. simpl. rewrite H. reflexivity. Qed.

Lemma lstrip_head s d r : lstrip s = String d r -> is_space d = false.
Proof.
  induction s as [|c s IH]; simpl; [discriminate|].
  destruct (is_space c) eqn:E; [exact IH|]. intros [= <- _]. exact E.
Qed.

Lemma strip_idempotent s : strip (strip s) = strip s.
Proof.
  unfold strip.
  destruct (lstrip s) as [|d r] eqn:El; [reflexivity|].
  pose proof (lstrip_head _ _ _ El) as Hd.
  destruct (rstrip (String d r)) as [|d' r'] eqn:Er.
  - reflexivity.
  - pose proof (rstrip_head _ _ _ _ Er) as ->.
    rewrite (lstrip_fixed _ _ Hd), <- Er. apply rstrip_idempotent.
Qed.

End StripFacts.

(** *** Reading the rootcap back *)



(** *** Readiness *)

(** X2: [is_ready] answers [True] exactly when a non-zero threshold is
    set, the welcome page reports a non-zero number of connected servers
    and that number reaches the threshold; it raises exactly when the
    threshold is set and reading the number raises. *)
Theorem is_ready_iff (treq_get : string -> option response) (self : Gateway.Tahoe) :
  (Readiness.is_ready treq_get self = Ret true <->
   exists h c, Gateway.shares_happy self = Some h /\ h <> 0 /\
               Readiness.get_connected_servers treq_get self = Ret (Some c) /\
               c <> 0 /\ h <= c) /\
  (forall e, Readiness.is_ready treq_get self = Raise e <->
             Readiness.nonzero (Gateway.shares_happy self) = true /\
             Readiness.get_connected_servers treq_get self = Raise e).
Proof.
  unfold Readiness.is_ready.
  destruct (Gateway.shares_happy self) as [h|]; cbn [Readiness.nonzero default from_option id].
  2: { split; [|intros e]; split; try discriminate.
       - intros (h & c & [=] & _).
       - intros [[=] _]. }
  destruct (Z.eqb_spec h 0) as [->|Hh]; cbn [negb].
  { split; [|intros e]; split; try discriminate.
    - intros (h & c & [= <-] & Hh & _). contradiction.
    - intros [[=] _]. }
  destruct (Readiness.get_connected_servers treq_get self) as [[c|]|e0];
    cbn [Readiness.nonzero negb default from_option id].
  - destruct (Z.eqb_spec c 0) as [->|Hc]; cbn [negb].
    + split; [|intros e]; split; try discriminate.
      * intros (h' & c' & _ & _ & [= <-] & Hc' & _). contradiction.
      * intros [_ [=]].
    + destruct (Z.leb_spec h c) as [Hle|Hlt].
      * split; [|intros e]; split; try discriminate.
        -- intros _. exists h, c. auto.
        -- reflexivity.
        -- intros [_ [=]].
      * split; [|intros e]; split; try discriminate.
        -- intros (h' & c' & [= <-] & _ & [= <-] & _ & Hle). lia.
        -- intros [_ [=]].
  - split; [|intros e]; split; try discriminate.
    + intros (h' & c' & _ & _ & [=] & _).
    + intros [_ [=]].
  - split; [|intros e]; split; try discriminate.
    + intros (h' & c' & _ & _ & [=] & _).
    + intros [= <-]. auto.
    + intros [_ [= <-]]. reflexivity.
Qed.

(** A gateway that needs two servers, on a page reporting three. *)
Lemma is_ready_iff_witness :
  let page := Response 200 "Connected to <span>3</span>of <span>3</span>" in
  let self :=
    {| Gateway.executable := None; Gateway.nodedir := "/home/u/.tahoe";
       Gateway.rootcap_path := "/home/u/.tahoe/private/rootcap";
       Gateway.pidfile := "/home/u/.tahoe/twistd.pid";
       Gateway.nodeurl := Some "http://127.0.0.1:3456/";
       Gateway.shares_happy := Some 2; Gateway.name := ".tahoe";
       Gateway.api_token := None;
       Gateway.magic_folders_dir := "/home/u/.tahoe/magic-folders";
       Gateway.rootcap := None; Gateway.magic_folders := ∅ |} in
  Readiness.is_ready (fun _ => Some page) self = Ret true.
Proof.
  intros page self.
  apply (proj1 (is_ready_iff (fun _ => Some page) self)).
  exists 2, 3. repeat split; try reflexivity; lia.
Defined.

Section AwaitFacts.
Import Readiness.
Variable treq_get_at : nat -> string -> option response.
Variable self : Gateway.Tahoe.

Lemma await_ready_skip n : forall k fuel,
  (forall j, (j < n)%nat -> is_ready (treq_get_at (k + j)) self = Ret false) ->
  (n <= fuel)%nat ->
  await_ready fuel treq_get_at self k = await_ready (fuel - n) treq_get_at self (k + n).
Proof.
  induction n as [|n IH]; intros k fuel Hfalse Hle.
  - rewrite Nat.sub_0_r, Nat.add_0_r. reflexivity.
  - destruct fuel as [|fuel]; [lia|].
    cbn [await_ready]. rewrite <- (Nat.add_0_r k) at 1.
    rewrite (Hfalse 0%nat) by lia.
    rewrite (IH (S k) fuel); [|intros j Hj|lia].
    + replace (S k + n)%nat with (k + S n)%nat by lia. reflexivity.
    + replace (S k + j)%nat with (k + S j)%nat by lia. apply Hfalse. lia.
Qed.

End AwaitFacts.

(** X3: [await_ready] returns at the first poll that finds the gateway
    ready, after exactly as many sleeps as polls found it not ready; a poll
    that raises ends the wait with that exception; and on a gateway without
    a (non-zero) happiness threshold the call never returns, however long it
    is followed. *)
Theorem await_ready_first_ready
    (treq_get_at : nat -> string -> option response) (self : Gateway.Tahoe)
    (n fuel : nat) :
  (forall k, (k < n)%nat -> Readiness.is_ready (treq_get_at k) self = Ret false) ->
  (n <= fuel)%nat ->
  (Readiness.is_ready (treq_get_at n) self = Ret true ->
   Readiness.await_ready fuel treq_get_at self 0 = Some (Ret n)) /\
  (forall e, Readiness.is_ready (treq_get_at n) self = Raise e ->
   Readiness.await_ready fuel treq_get_at self 0 = Some (Raise e)) /\
  (Readiness.nonzero (Gateway.shares_happy self) = false ->
   Readiness.await_ready fuel treq_get_at self 0 = None).
Proof.
  intros Hfalse Hle.
  pose proof (await_ready_skip treq_get_at self n 0 fuel Hfalse Hle) as Hskip.
  cbn [Nat.add] in Hskip. repeat split.
  - intros Hn. rewrite Hskip.
    destruct (fuel - n)%nat; cbn [Readiness.await_ready]; rewrite Hn; reflexivity.
  - intros e Hn. rewrite Hskip.
    destruct (fuel - n)%nat; cbn [Readiness.await_ready]; rewrite Hn; reflexivity.
  - intros Hno. clear Hfalse Hle Hskip. generalize 0%nat.
    induction fuel as [|fuel IH]; intros k; cbn [Readiness.await_ready];
      unfold Readiness.is_ready at 1; rewrite Hno; cbn [negb]; [reflexivity | apply IH].
Qed.

(** A daemon that reports one connected server at first and three from
    the third poll on, against a threshold of two: two sleeps. *)
Lemma await_ready_first_ready_witness :
  let page := fun n : string =>
    Response 200 ("Connected to <span>" +:+ n +:+ "</span>of <span>3</span>") in
  let daemon := fun (k : nat) (_ : string) =>
    Some (page (if (k <? 2)%nat then "1" else "3")) in
  let self :=
    {| Gateway.executable := None; Gateway.nodedir := "/home/u/.tahoe";
       Gateway.rootcap_path := "/home/u/.tahoe/private/rootcap";
       Gateway.pidfile := "/home/u/.tahoe/twistd.pid";
       Gateway.nodeurl := Some "http://127.0.0.1:3456/";
       Gateway.shares_happy := Some 2; Gateway.name := ".tahoe";
       Gateway.api_token := None;
       Gateway.magic_folders_dir := "/home/u/.tahoe/magic-folders";
       Gateway.rootcap := None; Gateway.magic_folders := ∅ |} in
  Readiness.await_ready 10 daemon self 0 = Some (Ret 2%nat).
Proof.
  intros page daemon self.
  apply (await_ready_first_ready daemon self 2 10).
  - intros [|[|k]] Hk; [reflexivity | reflexivity | lia].
  - lia.
  - reflexivity.
Defined.

(** *** The two readers of the welcome page *)

(** X4: on one welcome page, [get_connected_servers] and
    [_parse_welcome_page] report the same number of connected servers:
    whenever both return, the number of the first is the first component of
    the second, a page without the pattern counting as zero in the second
    and as no answer in the first. *)
Theorem connected_count_agrees
    (dehumanized_size : string -> option Z) (treq_get : string -> option response)
    (self : Gateway.Tahoe) (url html : string) (c k s : Z) :
  Gateway.nodeurl self = Some url ->
  PyStr.nonempty url = true ->
  treq_get url = Some (Response 200 html) ->
  GridStatus._parse_welcome_page dehumanized_size html = Ret (c, k, s) ->
  (forall n, Readiness.get_connected_servers treq_get self = Ret (Some n) -> c = n) /\
  (Readiness.get_connected_servers treq_get self = Ret None -> c = 0) /\
  (forall e, Readiness.get_connected_servers treq_get self <> Raise e).
Proof.
  intros Hurl Hne Hget Hpage.
  unfold Readiness.get_connected_servers. rewrite Hurl, Hne, Hget. cbn [negb code content].
  change (200 =? 200) with true. cbv iota.
  unfold GridStatus._parse_welcome_page, GridStatus.int_or_zero in Hpage.
  destruct (GridStatus.search "Connected to <span>" "</span>" html) as [g|].
  - destruct (PyStr.int g) as [n|]; [|discriminate].
    destruct (GridStatus.search "of <span>" _ html) as [g'|];
      [destruct (PyStr.int g'); [|discriminate]|]; injection Hpage as <- _ _;
      repeat split; congruence.
  - destruct (GridStatus.search "of <span>" _ html) as [g'|];
      [destruct (PyStr.int g'); [|discriminate]|]; injection Hpage as <- _ _;
      repeat split; congruence.
Qed.

(** The page of the welcome-page example: both readers say three. *)
Lemma connected_count_agrees_witness :
  let self := Gateway.set_nodeurl (Gateway.new "/home/u/.tahoe" None)
                (Some "http://127.0.0.1:3456/") in
  Readiness.get_connected_servers
    (fun _ => Some (Response 200 GridStatus.welcome_html)) self = Ret (Some 3).
Proof.
  intros self.
  destruct (connected_count_agrees GridStatus.dehumanized_size_example
              (fun _ => Some (Response 200 GridStatus.welcome_html)) self
              "http://127.0.0.1:3456/" GridStatus.welcome_html 3 10 2048
              eq_refl eq_refl eq_refl) as (H & _ & _).
  - vm_compute. reflexivity.
  - destruct (Readiness.get_connected_servers _ self) as [[n|]|e] eqn:E.
    + rewrite (H n eq_refl). reflexivity.
    + vm_compute in E. discriminate.
    + vm_compute in E. discriminate.
Defined.

(** *** Bounds of the structured status *)

Section StatusBounds.
Import GridStatus.

Lemma count_server_step acc server acc' :
  count_server acc server = Ret acc' ->
  fst acc <= fst acc' <= fst acc + 1.
Proof.
  destruct acc as [c a]. unfold count_server.
  destruct (Json.getitem server "connection_status") as [st|]; [|discriminate].
  destruct (Json.startswith "Connected" st) as [[|]|]; try discriminate.
  - destruct (Json.getitem server "available_space") as [sp|]; [|discriminate].
    destruct (Json.truthy sp).
    + destruct (Json.add a sp); [|discriminate]. intros [= <-]. simpl. lia.
    + intros [= <-]. simpl. lia.
  - intros [= <-]. simpl. lia.
Qed.

Lemma count_servers_bounds servers : forall acc acc',
  count_servers acc servers = Ret acc' ->
  fst acc <= fst acc' <= fst acc + Z.of_nat (length servers).
Proof.
  induction servers as [|s rest IH]; intros acc acc'; cbn [count_servers length].
  - intros [= <-]. lia.
  - destruct (count_server acc s) as [acc1|] eqn:E; [|discriminate].
    intros H. apply IH in H. apply count_server_step in E. lia.
Qed.

End StatusBounds.

(** X5: on the structured path [get_grid_status] never reports more
    connected servers than known servers: whenever the body decodes and the
    call returns a triple, the connected count lies between zero and the
    known count. *)
Theorem grid_status_connected_le_known
    (dehumanized_size : string -> option Z) (json_loads : string -> option json)
    (treq_get : string -> option response) (nodeurl : option string)
    (url body : string) (doc : json) (c k s : Z) :
  nodeurl = Some url ->
  treq_get (url +:+ "?t=json") = Some (Response 200 body) ->
  json_loads body = Some doc ->
  GridStatus.get_grid_status dehumanized_size json_loads treq_get nodeurl
  = Ret (Some (c, k, s)) ->
  0 <= c <= k.
Proof.
  intros -> Hget Hdoc. unfold GridStatus.get_grid_status.
  destruct (PyStr.nonempty url); cbn [negb]; [|discriminate].
  rewrite Hget. cbn [code content]. change (200 =? 200) with true. cbv iota.
  rewrite Hdoc.
  destruct (Json.contains "servers" doc) as [[|]|]; try discriminate.
  - destruct (Json.getitem doc "servers") as [servers|]; [|discriminate].
    destruct (Json.iterate servers) as [items|]; [|discriminate].
    destruct (GridStatus.count_servers (0, 0) items) as [[c' a']|] eqn:E; [|discriminate].
    intros [= <- <- <-]. apply count_servers_bounds in E. simpl in E. lia.
  - intros [= <- <- <-]. lia.
Qed.

(** The three servers of the structured example: two of three. *)
Lemma grid_status_connected_le_known_witness :
  GridStatus.get_grid_status GridStatus.dehumanized_size_example
    (fun _ => Some (JObj [("servers", JArr GridStatus.example_servers)]))
    (fun _ => Some (Response 200 "{...}")) (Some "http://127.0.0.1:3456/")
  = Ret (Some (2, 3, 3072)) /\ 0 <= 2 <= 3.
Proof.
  split; [reflexivity|].
  apply (grid_status_connected_le_known GridStatus.dehumanized_size_example
           (fun _ => Some (JObj [("servers", JArr GridStatus.example_servers)]))
           (fun _ => Some (Response 200 "{...}"))
           (Some "http://127.0.0.1:3456/") "http://127.0.0.1:3456/" "{...}"
           (JObj [("servers", JArr GridStatus.example_servers)]) 2 3 3072
           eq_refl eq_refl eq_refl eq_refl).
Defined.

(** *** What the observation hook sees *)

Section HookFacts.
Import Process.

Lemma on_line_received pid p line :
  received (on_line pid p line) =
  (received p ++ if PyStr.nonempty line then [line] else [])%list.
Proof.
  unfold on_line. destruct (PyStr.nonempty line); simpl;
    destruct (done p); simpl; rewrite ?app_nil_r; try reflexivity;
    destruct (triggers (trigger p) line); simpl; rewrite ?app_nil_r; reflexivity.
Qed.

Lemma lines_received pid lines : forall p,
  received (fold_left (on_line pid) lines p) =
  (received p ++ List.filter PyStr.nonempty lines)%list.
Proof.
  induction lines as [|l ls IH]; intros p; cbn [fold_left List.filter].
  - rewrite app_nil_r. reflexivity.
  - rewrite IH, on_line_received.
    destruct (PyStr.nonempty l); rewrite <- ?app_assoc; reflexivity.
Qed.

Lemma deliver_received pid data : forall p,
  received (fold_left (deliver pid) data p) =
  (received p ++
   List.filter PyStr.nonempty
     (flat_map (fun d => PyStr.split PyStr.nl (PyStr.strip (snd d))) data))%list.
Proof.
  induction data as [|d ds IH]; intros p; cbn [fold_left flat_map].
  - rewrite app_nil_r. reflexivity.
  - rewrite IH. unfold deliver, errReceived, outReceived.
    destruct (fst d); rewrite lines_received; cbn [received];
      rewrite List.filter_app, <- app_assoc; reflexivity.
Qed.

Lemma exit_keeps_log p why :
  received (processEnded (processExited p why) why) = received p /\
  output (processEnded (processExited p why) why) = output p.
Proof.
  unfold processExited, processEnded.
  destruct (done p) eqn:E; [rewrite E; auto|].
  destruct why; cbn [done]; rewrite ?E; auto.
Qed.

End HookFacts.


(** *** Lines of the alias file that do not count *)

Section AliasFacts.
Import PyStr Aliases.

Lemma append_empty s : s +:+ EmptyString = s.
Proof.
  induction s as [|c r IH]; [reflexivity|].
  change (String c r +:+ EmptyString) with (String c (r +:+ EmptyString)).
  rewrite IH. reflexivity.
Qed.

Lemma readlines_nil s : readlines s = [] -> s = EmptyString.
Proof.
  destruct s as [|c r]; [reflexivity|]. simpl.
  destruct (Ascii.eqb c nl); [discriminate|].
  destruct (readlines r); discriminate.
Qed.

Lemma readlines_app a b :
  a = EmptyString \/ endswith (String nl EmptyString) a = true ->
  readlines (a +:+ b) = (readlines a ++ readlines b)%list.
Proof.
  induction a as [|c r IH]; intros Ha; [reflexivity|].
  destruct Ha as [Ha|Ha]; [discriminate|].
  cbn [endswith String.eqb] in Ha.
  change (String c r +:+ b) with (String c (r +:+ b)). cbn [readlines].
  destruct (Ascii.eqb c nl) eqn:Ec.
  - rewrite IH; [reflexivity|].
    destruct r; [left; reflexivity|right].
    rewrite Ascii.eqb_sym, Ec in Ha. exact Ha.
  - assert (Hr : endswith (String nl EmptyString) r = true).
    { rewrite Ascii.eqb_sym, Ec in Ha. exact Ha. }
    rewrite IH by (right; exact Hr).
    destruct (readlines r) as [|l ls] eqn:E; [|reflexivity].
    apply readlines_nil in E. subst r. discriminate.
Qed.

Lemma readlines_one_line line :
  split_once nl line = None -> line <> EmptyString -> readlines line = [line].
Proof.
  induction line as [|c r IH]; intros Hnl Hne; [contradiction|].
  cbn [split_once readlines] in *.
  destruct (Ascii.eqb c nl); [discriminate|].
  destruct r as [|d r']; [reflexivity|].
  rewrite IH; [reflexivity| |discriminate].
  destruct (split_once nl (String d r')) as [[? ?]|]; [discriminate | reflexivity].
Qed.

Lemma readlines_terminated line rest :
  split_once nl line = None ->
  readlines (line +:+ String nl rest) = (line +:+ String nl EmptyString) :: readlines rest.
Proof.
  induction line as [|c r IH]; intros Hnl.
  - reflexivity.
  - cbn [split_once] in Hnl.
    change (String c r +:+ String nl rest) with (String c (r +:+ String nl rest)).
    cbn [readlines].
    destruct (Ascii.eqb c nl); [discriminate|].
    rewrite IH; [reflexivity|].
    destruct (split_once nl r) as [[? ?]|]; [discriminate | reflexivity].
Qed.

Lemma split_once_none_app sep line tail :
  split_once sep line = None -> split_once sep tail = None ->
  split_once sep (line +:+ tail) = None.
Proof.
  induction line as [|c r IH]; intros Hl Ht; [exact Ht|].
  change (String c r +:+ tail) with (String c (r +:+ tail)).
  cbn [split_once] in *.
  destruct (Ascii.eqb c sep); [discriminate|].
  rewrite IH; [reflexivity| |exact Ht].
  destruct (split_once sep r) as [[? ?]|]; [discriminate | reflexivity].
Qed.

Lemma add_line_skips aliases line tail :
  startswith "#" line = true \/ split_once ":"%char line = None ->
  split_once ":"%char tail = None ->
  add_line aliases (line +:+ tail) = aliases.
Proof.
  intros [Hc|Hm] Ht; unfold add_line.
  - destruct line as [|c r]; [discriminate|]. unfold startswith in *.
    change (String c r +:+ tail) with (String c (r +:+ tail)).
    cbn [String.prefix] in *.
    destruct (ascii_dec "#" c); [|discriminate].
    destruct (r +:+ tail); reflexivity.
  - rewrite (split_once_none_app _ _ _ Hm Ht).
    destruct (startswith "#" (line +:+ tail)); reflexivity.
Qed.

End AliasFacts.



(** *** Stopping on Windows *)


(** *** Node directories on disk *)

Section NodedirFacts.
Import Nodedirs.

Lemma insert_sorted_perm x l : Permutation (insert_sorted x l) (x :: l).
Proof.
  induction l as [|y rest IH]; cbn [insert_sorted]; [reflexivity|].
  destruct (String.leb x y); [reflexivity|].
  rewrite IH. apply perm_swap.
Qed.

Lemma sorted_perm l : Permutation (sorted l) l.
Proof.
  induction l as [|x l IH]; cbn [sorted fold_right]; [reflexivity|].
  fold (sorted l). rewrite insert_sorted_perm, IH. reflexivity.
Qed.

Lemma insert_sorted_Sorted x l : Sorted le l -> Sorted le (insert_sorted x l).
Proof.
  induction l as [|y rest IH]; intros Hs; cbn [insert_sorted].
  - repeat constructor.
  - destruct (String.leb x y) eqn:Hxy.
    + constructor; [exact Hs | constructor; exact Hxy].
    + apply Sorted_inv in Hs as [Hrest Hhd].
      constructor; [apply IH, Hrest|].
      destruct rest as [|z rest']; cbn [insert_sorted].
      * constructor. destruct (String.leb_total x y) as [H|H]; [congruence | exact H].
      * destruct (String.leb x z).
        -- constructor. destruct (String.leb_total x y) as [H|H]; [congruence | exact H].
        -- constructor. apply HdRel_inv in Hhd. exact Hhd.
Qed.

Lemma sorted_Sorted l : Sorted le (sorted l).
Proof.
  induction l as [|x l IH]; cbn [sorted fold_right]; [constructor|].
  apply insert_sorted_Sorted, IH.
Qed.

End NodedirFacts.

(** X9: [get_nodedirs] returns, in sorted order and each as often as it
    is listed, exactly the entries of the base directory that are
    directories holding a [tahoe.cfg] file, every one as a path below the
    base directory; a base directory that cannot be listed gives the empty
    list. *)
Theorem get_nodedirs_sorted_exact
    (listdir : string -> option (list string)) (fs : gmap string Fs.node)
    (basedir : string) :
  let result := Nodedirs.get_nodedirs listdir fs basedir in
  Sorted Nodedirs.le result /\
  (listdir basedir = None -> result = []) /\
  (forall filenames, listdir basedir = Some filenames ->
     Permutation result
       (List.filter (Nodedirs.is_nodedir fs) (map (PyStr.path_join basedir) filenames))) /\
  (forall p, In p result ->
     Fs.isdir fs p = true /\ Fs.isfile fs (PyStr.path_join p "tahoe.cfg") = true /\
     exists filename, p = PyStr.path_join basedir filename).
Proof.
  intros result. subst result. unfold Nodedirs.get_nodedirs.
  split; [destruct (listdir basedir); apply sorted_Sorted|].
  split; [intros ->; reflexivity|].
  split; [intros filenames ->; apply sorted_perm|].
  intros p Hp. destruct (listdir basedir) as [filenames|]; [|contradiction].
  apply (Permutation_in _ (sorted_perm _)) in Hp.
  apply List.filter_In in Hp as [Hin Hnode].
  unfold Nodedirs.is_nodedir in Hnode. apply andb_prop in Hnode as [Hd Hf].
  apply List.in_map_iff in Hin as (filename & <- & _). eauto.
Qed.

(** A base directory with two node directories, listed out of order, and
    a stray file. *)
Lemma get_nodedirs_sorted_exact_witness :
  let fs : gmap string Fs.node :=
    {[ "/m/b" := Fs.Dir; "/m/b/tahoe.cfg" := Fs.Reg "" 420;
       "/m/a" := Fs.Dir; "/m/a/tahoe.cfg" := Fs.Reg "" 420;
       "/m/notes" := Fs.Reg "" 420 ]} in
  let listdir := fun _ : string => Some ["b"; "notes"; "a"] in
  Permutation (Nodedirs.get_nodedirs listdir fs "/m")
    (List.filter (Nodedirs.is_nodedir fs) (map (PyStr.path_join "/m") ["b"; "notes"; "a"])) /\
  Nodedirs.get_nodedirs listdir fs "/m" = ["/m/a"; "/m/b"].
Proof.
  intros fs listdir. split; [|reflexivity].
  apply (get_nodedirs_sorted_exact listdir fs "/m"). reflexivity.
Defined.

(** *** The folder registry *)

Section RegistryFacts.
Import Registry.
Variable local_directory : string -> option string.

Lemma merge_table_lookup items : forall (m : gmap string Gateway.folder) k,
  merge_table m items !! k =
  match last_item k items with
  | Some v => Some v
  | None => m !! k
  end.
Proof.
  unfold merge_table.
  induction items as [|[k' v] rest IH]; intros m k; cbn [fold_left last_item]; [reflexivity|].
  rewrite IH. destruct (last_item k rest); [reflexivity|]. cbn [fst snd].
  destruct (String.eqb_spec k k') as [->|Hne].
  - apply lookup_insert_eq.
  - apply lookup_insert_ne. congruence.
Qed.

Lemma discover_keeps (m : gmap string Gateway.folder) nodedir k v :
  m !! k = Some v -> discover local_directory m nodedir !! k = Some v.
Proof.
  intros Hk. unfold discover.
  destruct (m !! PyStr.basename nodedir) eqn:E; [exact Hk|].
  rewrite lookup_insert_ne; [exact Hk | congruence].
Qed.

Lemma discovered_keeps nodedirs : forall (m : gmap string Gateway.folder) k v,
  m !! k = Some v -> fold_left (discover local_directory) nodedirs m !! k = Some v.
Proof.
  induction nodedirs as [|d ds IH]; intros m k v Hk; cbn [fold_left]; [exact Hk|].
  apply IH, discover_keeps, Hk.
Qed.

Lemma discover_registers (m : gmap string Gateway.folder) nodedir :
  is_Some (discover local_directory m nodedir !! PyStr.basename nodedir).
Proof.
  unfold discover. destruct (m !! PyStr.basename nodedir) eqn:E.
  - rewrite E. eauto.
  - rewrite lookup_insert_eq. eauto.
Qed.

Lemma discovered_registers nodedirs : forall (m : gmap string Gateway.folder) d,
  In d nodedirs ->
  is_Some (fold_left (discover local_directory) nodedirs m !! PyStr.basename d).
Proof.
  induction nodedirs as [|d' ds IH]; intros m d Hd; [contradiction|].
  cbn [fold_left]. destruct Hd as [->|Hd]; [|apply IH, Hd].
  destruct (discover_registers m d) as [v Hv].
  exists v. apply discovered_keeps, Hv.
Qed.

Lemma discover_again nodedirs : forall (m : gmap string Gateway.folder),
  (forall d, In d nodedirs -> is_Some (m !! PyStr.basename d)) ->
  fold_left (discover local_directory) nodedirs m = m.
Proof.
  induction nodedirs as [|d ds IH]; intros m Hm; cbn [fold_left]; [reflexivity|].
  assert (Hd : discover local_directory m d = m).
  { unfold discover. destruct (Hm d (or_introl eq_refl)) as [v ->]. reflexivity. }
  rewrite Hd. apply IH. intros d' Hd'. apply Hm. right. exact Hd'.
Qed.

Lemma merge_table_again items (m : gmap string Gateway.folder) :
  (forall k v, last_item k items = Some v -> m !! k = Some v) ->
  merge_table m items = m.
Proof.
  intros Hm. apply map_eq. intros k. rewrite merge_table_lookup.
  destruct (last_item k items) as [v|] eqn:E; [|reflexivity].
  symmetry. apply Hm, E.
Qed.

Lemma discovered_fresh before d after : forall (m : gmap string Gateway.folder),
  m !! PyStr.basename d = None ->
  (forall d', In d' before -> PyStr.basename d' <> PyStr.basename d) ->
  fold_left (discover local_directory) (before ++ d :: after)%list m !! PyStr.basename d
  = Some (Gateway.Folder (local_directory d) (Some d) None None None None).
Proof.
  intros m H0 Hbefore. rewrite fold_left_app. cbn [fold_left].
  apply discovered_keeps.
  assert (Hfree : fold_left (discover local_directory) before m !! PyStr.basename d = None).
  { revert m H0 Hbefore.
    induction before as [|b bs IH]; intros m H0 Hb; cbn [fold_left]; [exact H0|].
    apply IH; [|intros d' Hd'; apply Hb; right; exact Hd'].
    unfold discover. destruct (m !! PyStr.basename b); [exact H0|].
    rewrite lookup_insert_ne; [exact H0|]. apply Hb. left. reflexivity. }
  unfold discover at 1. rewrite Hfree. apply lookup_insert_eq.
Qed.

End RegistryFacts.

(** X10: [load_magic_folders] is idempotent: loading the same persisted
    table and the same node directories a second time leaves the gateway as
    the first load left it. *)
Theorem load_magic_folders_idempotent
    (local_directory : string -> option string)
    (data : option (list (string * Gateway.folder))) (nodedirs : list string)
    (self : Gateway.Tahoe) :
  Registry.load_magic_folders local_directory data nodedirs
    (Registry.load_magic_folders local_directory data nodedirs self)
  = Registry.load_magic_folders local_directory data nodedirs self.
Proof.
  unfold Registry.load_magic_folders.
  cbn [Gateway.magic_folders Gateway.set_magic_folders].
  set (m1 := fold_left (Registry.discover local_directory) nodedirs
               match data with
               | Some items => Registry.merge_table (Gateway.magic_folders self) items
               | None => Gateway.magic_folders self
               end).
  assert (Hmerge : match data with
                   | Some items => Registry.merge_table m1 items
                   | None => m1
                   end = m1).
  { destruct data as [items|]; [|reflexivity].
    apply merge_table_again. intros k v Hk. unfold m1.
    apply discovered_keeps. rewrite merge_table_lookup, Hk. reflexivity. }
  rewrite Hmerge.
  rewrite (discover_again local_directory nodedirs m1); [reflexivity|].
  intros d Hd. unfold m1. apply discovered_registers, Hd.
Qed.

(** X11: in [load_magic_folders] the persisted table wins. A name of the
    table ends up with the value of its last item, whatever the registry
    held and whatever is on disk; a node directory found on disk is
    registered, under its base name with its path and configured local
    directory, only when that name is neither registered nor in the table
    nor the base name of an earlier node directory; and no name is ever
    dropped from the registry. *)
Theorem load_magic_folders_precedence
    (local_directory : string -> option string)
    (data : option (list (string * Gateway.folder))) (nodedirs : list string)
    (self : Gateway.Tahoe) :
  let loaded := Gateway.magic_folders
                  (Registry.load_magic_folders local_directory data nodedirs self) in
  (forall items k v, data = Some items -> Registry.last_item k items = Some v ->
     loaded !! k = Some v) /\
  (forall k v, Gateway.magic_folders self !! k = Some v ->
     (forall items, data = Some items -> Registry.last_item k items = None) ->
     loaded !! k = Some v) /\
  (forall before d after, nodedirs = (before ++ d :: after)%list ->
     Gateway.magic_folders self !! PyStr.basename d = None ->
     (forall items, data = Some items ->
        Registry.last_item (PyStr.basename d) items = None) ->
     (forall d', In d' before -> PyStr.basename d' <> PyStr.basename d) ->
     loaded !! PyStr.basename d
     = Some (Gateway.Folder (local_directory d) (Some d) None None None None)) /\
  (forall k, is_Some (Gateway.magic_folders self !! k) -> is_Some (loaded !! k)).
Proof.
  intros loaded. subst loaded. unfold Registry.load_magic_folders.
  cbn [Gateway.magic_folders Gateway.set_magic_folders].
  set (m0 := match data with
             | Some items => Registry.merge_table (Gateway.magic_folders self) items
             | None => Gateway.magic_folders self
             end).
  assert (Hm0 : forall k, m0 !! k =
            match data with
            | Some items =>
                match Registry.last_item k items with
                | Some v => Some v
                | None => Gateway.magic_folders self !! k
                end
            | None => Gateway.magic_folders self !! k
            end).
  { intros k. unfold m0. destruct data; [apply merge_table_lookup | reflexivity]. }
  repeat split.
  - intros items k v -> Hk. apply discovered_keeps. rewrite Hm0, Hk. reflexivity.
  - intros k v Hk Hnone. apply discovered_keeps. rewrite Hm0.
    destruct data as [items|]; [rewrite (Hnone items eq_refl)|]; exact Hk.
  - intros before d after -> Hself Hdata Hbefore.
    apply discovered_fresh; [|exact Hbefore].
    rewrite Hm0. destruct data as [items|]; [rewrite (Hdata items eq_refl)|]; exact Hself.
  - intros k [v Hk]. destruct (m0 !! k) as [v0|] eqn:E.
    + exists v0. apply discovered_keeps, E.
    + rewrite Hm0 in E. destruct data as [items|];
        [destruct (Registry.last_item k items)|]; congruence.
Qed.

(** A gateway that knows no folder, a persisted table naming [Docs], and
    the node directories of [Docs] and [Music] on disk: [Music] is
    registered from the disk. *)
Lemma load_magic_folders_precedence_witness :
  let docs := Gateway.Folder (Some "/home/u/Docs") None None None None None in
  let d := "/home/u/.tahoe/magic-folders/Music" in
  Gateway.magic_folders
    (Registry.load_magic_folders (fun _ => Some "/home/u/Music") (Some [("Docs", docs)])
       ["/home/u/.tahoe/magic-folders/Docs"; d] MagicFolder.example_gateway) !! "Music"
  = Some (Gateway.Folder (Some "/home/u/Music") (Some d) None None None None).
Proof.
  intros docs d.
  destruct (load_magic_folders_precedence (fun _ => Some "/home/u/Music")
              (Some [("Docs", docs)]) ["/home/u/.tahoe/magic-folders/Docs"; d]
              MagicFolder.example_gateway) as (_ & _ & H & _).
  apply (H ["/home/u/.tahoe/magic-folders/Docs"] d []).
  - reflexivity.
  - reflexivity.
  - intros items [= <-]. reflexivity.
  - intros d' [<-|[]]. discriminate.
Defined.

(** *** Arguments of [create-client] *)

Section ClientArgsFacts.
Import ClientArgs.

Lemma option_args_long_key key value :
  option_args (long_key key, value) = option_args (key, value).
Proof.
  unfold long_key, mem. cbn [existsb].
  destruct (String.eqb_spec key "needed") as [->|H1]; [reflexivity|].
  destruct (String.eqb_spec key "happy") as [->|H2]; [reflexivity|].
  destruct (String.eqb_spec key "total") as [->|H3]; reflexivity.
Qed.

Lemma option_args_length item :
  length (option_args item) = if recognised (fst item) then 2%nat else 0%nat.
Proof.
  destruct item as [key value]. unfold option_args, recognised. cbn [fst].
  destruct (mem key valid_kwargs); [reflexivity|].
  destruct (mem key ["needed"; "happy"; "total"]); reflexivity.
Qed.

Lemma option_args_unrecognised item :
  recognised (fst item) = false -> option_args item = [].
Proof.
  destruct item as [key value]. unfold option_args, recognised. cbn [fst].
  destruct (mem key valid_kwargs); [discriminate|].
  destruct (mem key ["needed"; "happy"; "total"]); [discriminate | reflexivity].
Qed.

Lemma flat_args_length kwargs :
  length (flat_map option_args kwargs)
  = (2 * length (List.filter (fun item => recognised (fst item)) kwargs))%nat.
Proof.
  induction kwargs as [|item rest IH]; [reflexivity|].
  cbn [List.filter flat_map]. rewrite length_app, option_args_length, IH.
  destruct (recognised (fst item)); cbn [length]; lia.
Qed.

End ClientArgsFacts.

(** X12: the command line built by [create_client] depends only on the
    recognised keywords, in their order: the short keywords [needed],
    [happy], [total] give the same arguments as their long spellings, any
    other keyword is dropped, and each recognised one adds exactly a flag
    and a value after the two fixed arguments. Over an existing node
    directory the call raises [NodedirExistsError] whatever the command
    would have answered. *)
Theorem create_client_args_by_keyword (kwargs : list (string * ClientArgs.pyval)) :
  ClientArgs.create_client_args
    (map (fun item => (ClientArgs.long_key (fst item), snd item)) kwargs)
  = ClientArgs.create_client_args kwargs /\
  ClientArgs.create_client_args
    (List.filter (fun item => ClientArgs.recognised (fst item)) kwargs)
  = ClientArgs.create_client_args kwargs /\
  length (ClientArgs.create_client_args kwargs)
  = (2 + 2 * length (List.filter (fun item => ClientArgs.recognised (fst item)) kwargs))%nat /\
  (forall fs nodedir command,
      Fs.exists_ fs nodedir = true ->
      ClientArgs.create_client fs nodedir command kwargs = Raise NodedirExistsError).
Proof.
  unfold ClientArgs.create_client_args. repeat split.
  - f_equal. induction kwargs as [|[key value] rest IH]; [reflexivity|].
    cbn [map flat_map fst snd]. rewrite option_args_long_key, IH. reflexivity.
  - f_equal. induction kwargs as [|item rest IH]; [reflexivity|].
    cbn [List.filter flat_map].
    destruct (ClientArgs.recognised (fst item)) eqn:E; cbn [flat_map].
    + rewrite IH. reflexivity.
    + rewrite IH, (option_args_unrecognised item E). reflexivity.
  - cbn [app length]. rewrite flat_args_length. lia.
  - intros fs nodedir command Hex. unfold ClientArgs.create_client.
    rewrite Hex. reflexivity.
Qed.

(** A node directory that exists already. *)
Lemma create_client_args_by_keyword_witness :
  ClientArgs.create_client {[ "/home/u/.tahoe" := Fs.Dir ]} "/home/u/.tahoe"
    (fun _ => Ret (Process.Output "done")) [("nickname", ClientArgs.VStr "u")]
  = Raise NodedirExistsError.
Proof.
  apply (create_client_args_by_keyword [("nickname", ClientArgs.VStr "u")]). reflexivity.
Defined.

(** *** Choosing the executable *)

Section ExecutableFacts.
Import Executable.
Variable version_output : string -> outcome string.

Lemma version_names executable output r :
  version executable output = Ret r -> fst r = executable.
Proof.
  unfold version. destruct output as [text|]; [|discriminate].
  destruct (words text) as [|w [|v ws]]; try discriminate.
  intros [= <-]. reflexivity.
Qed.

Lemma first_accepted_split executables : forall results exe,
  gather (map (fun e => version e (version_output e)) executables) = Ret results ->
  first_accepted results = Some exe ->
  exists before after v,
    executables = (before ++ exe :: after)%list /\
    version exe (version_output exe) = Ret (exe, v) /\
    accepted v = true /\
    forall e, In e before ->
      exists v', version e (version_output e) = Ret (e, v') /\ accepted v' = false.
Proof.
  induction executables as [|e0 rest IH]; intros results exe; cbn [map gather].
  - intros [= <-]. discriminate.
  - destruct (version e0 (version_output e0)) as [[x v0]|] eqn:Ev; [|discriminate].
    pose proof (version_names _ _ _ Ev) as Hx. cbn [fst] in Hx. subst x.
    destruct (gather _) as [rs|] eqn:Eg; [|discriminate].
    intros [= <-]. cbn [first_accepted].
    destruct (accepted v0) eqn:Ea.
    + intros [= <-]. exists [], rest, v0. repeat split; auto. contradiction.
    + intros Hfirst. destruct (IH rs exe eq_refl Hfirst)
        as (before & after & v & -> & Hv & Hacc & Hbefore).
      exists (e0 :: before), after, v. repeat split; auto.
      intros e [<-|He]; [eauto | apply Hbefore, He].
Qed.

End ExecutableFacts.



(** *** Liveness of the link/unlink lock *)

Section LivenessFacts.
Import Lock Liveness.

Lemma lookup_update_inv (l : list pc) i k x y :
  <[i := x]> l !! k = Some y -> (k = i /\ y = x) \/ (k <> i /\ l !! k = Some y).
Proof.
  intros H. destruct (decide (i = k)) as [->|Hne].
  - destruct (decide (k < length l)%nat) as [Hlt|Hge].
    + rewrite list_lookup_insert_eq in H by exact Hlt. left. split; congruence.
    + rewrite list_insert_ge in H by lia. rewrite lookup_ge_None_2 in H by lia.
      discriminate.
  - rewrite list_lookup_insert_ne in H by exact Hne. right. split; congruence.
Qed.

Lemma settled_init n : settled n (init n).
Proof.
  constructor; cbn [init tasks waiting locked].
  - apply length_replicate.
  - intros i H. apply lookup_replicate in H as [H _]. discriminate.
  - intros H. contradiction.
Qed.

Lemma settled_step nodeurl ops n s s' :
  settled n s -> step nodeurl ops s s' -> settled n s'.
Proof.
  intros [Hlen Hq Hheld] Hstep.
  destruct Hstep as [i o s Hi Ho Hfree | i o s Hi Ho Hbusy | i answer s Hi].
  - assert (Hw : waiting s = []).
    { destruct (waiting s) eqn:E; [reflexivity|].
      rewrite Hheld in Hfree by discriminate. discriminate. }
    constructor; cbn [tasks waiting locked].
    + rewrite length_insert. exact Hlen.
    + intros k Hk. apply lookup_update_inv in Hk as [[_ [=]]|[_ Hk]]. apply Hq, Hk.
    + reflexivity.
  - constructor; cbn [tasks waiting locked].
    + rewrite length_insert. exact Hlen.
    + intros k Hk. apply lookup_update_inv in Hk as [[-> _]|[_ Hk]].
      * eexists. apply elem_of_app. right. apply list_elem_of_singleton. reflexivity.
      * destruct (Hq k Hk) as [url Hu]. exists url. apply elem_of_app. left. exact Hu.
    + reflexivity.
  - unfold release. cbn [tasks waiting locked log].
    destruct (waiting s) as [|[j url] rest] eqn:Hw.
    + constructor; cbn [tasks waiting locked].
      * rewrite length_insert. exact Hlen.
      * intros k Hk. apply lookup_update_inv in Hk as [[_ [=]]|[_ Hk]].
        destruct (Hq k Hk) as [u Hu]. inversion Hu.
      * intros H. contradiction.
    + constructor; cbn [tasks waiting locked].
      * rewrite !length_insert. exact Hlen.
      * intros k Hk. apply lookup_update_inv in Hk as [[_ [=]]|[Hkj Hk]].
        apply lookup_update_inv in Hk as [[_ [=]]|[_ Hk]].
        destruct (Hq k Hk) as [u Hu]. exists u.
        apply elem_of_cons in Hu as [[= ? ?]|Hu]; [congruence | exact Hu].
      * reflexivity.
Qed.

Lemma settled_reachable nodeurl ops s :
  reachable nodeurl ops s -> settled (length ops) s.
Proof.
  unfold reachable. revert s. apply rtc_ind_r.
  - apply settled_init.
  - intros y z _ Hstep IH. eapply settled_step; eauto.
Qed.

End LivenessFacts.

(** X14: calls to [link] and [unlink] on one gateway cannot get stuck.
    In every state they can reach, a free lock has no call waiting for it,
    a call waiting for the lock has a request in flight ahead of it, and as
    long as some call has not returned or raised the reactor can take
    another turn; so a state from which nothing can happen is one in which
    every call has concluded. *)
Theorem link_unlink_never_stuck (nodeurl : string) (ops : list Lock.op) (s : Lock.state) :
  Lock.reachable nodeurl ops s ->
  (Lock.locked s = false -> forall i, Lock.tasks s !! i <> Some Lock.Waiting) /\
  (forall i, Lock.tasks s !! i = Some Lock.Waiting ->
     exists j, j <> i /\ Lock.tasks s !! j = Some Lock.Posting) /\
  ((exists i p, Lock.tasks s !! i = Some p /\ Lock.is_finished p = false) ->
   exists s', Lock.step nodeurl ops s s') /\
  ((forall s', ~ Lock.step nodeurl ops s s') ->
   Forall (fun p => Lock.is_finished p = true) (Lock.tasks s)).
Proof.
  intros Hreach.
  destruct (inv_reachable _ _ _ Hreach) as [cur [_ Hpost Hlock _ _]].
  assert (Hheld : Lock.locked s = true <-> exists i, Lock.tasks s !! i = Some Lock.Posting).
  { rewrite Hlock. split.
    - intros [i ->]. exists i. apply Hpost. reflexivity.
    - intros [i Hi]. apply Hpost in Hi. eauto. }
  destruct (settled_reachable nodeurl ops s Hreach) as [Hlen Hq Hlocked].
  assert (Hwait : forall i, Lock.tasks s !! i = Some Lock.Waiting -> Lock.locked s = true).
  { intros i Hi. destruct (Hq i Hi) as [url Hu]. apply Hlocked.
    intros Hnil. rewrite Hnil in Hu. inversion Hu. }
  assert (Hprogress : (exists i p, Lock.tasks s !! i = Some p /\ Lock.is_finished p = false) ->
                      exists s', Lock.step nodeurl ops s s').
  { intros (i & p & Hi & Hp). destruct p as [| | |r]; [| | |discriminate].
    - assert (Ho : is_Some (ops !! i)).
      { apply lookup_lt_is_Some. rewrite <- Hlen. eapply lookup_lt_Some, Hi. }
      destruct Ho as [o Ho].
      destruct (Lock.locked s) eqn:Hl.
      + eexists. apply (Lock.step_call_busy nodeurl ops i o s Hi Ho Hl).
      + eexists. apply (Lock.step_call_free nodeurl ops i o s Hi Ho Hl).
    - destruct (proj1 Hheld (Hwait i Hi)) as [j Hj].
      eexists. apply (Lock.step_answer nodeurl ops j None s Hj).
    - eexists. apply (Lock.step_answer nodeurl ops i None s Hi). }
  split; [|split; [|split; [exact Hprogress|]]].
  - intros Hfree i Hi. rewrite (Hwait i Hi) in Hfree. discriminate.
  - intros i Hi. destruct (proj1 Hheld (Hwait i Hi)) as [j Hj].
    exists j. split; [congruence | exact Hj].
  - intros Hstuck. apply Forall_forall. intros p Hp.
    destruct (Lock.is_finished p) eqn:E; [reflexivity|]. exfalso.
    apply list_elem_of_lookup in Hp as [i Hi].
    destruct Hprogress as [s' Hs']; [eauto|]. apply (Hstuck s' Hs').
Qed.

(** Two calls on one gateway, the [link] posting and the [unlink] queued
    behind it: the answer to the [link] is a turn the reactor can take. *)
Lemma link_unlink_never_stuck_witness :
  let url := "http://127.0.0.1:3456/" in
  let ops := [Lock.Link "URI:DIR2:root" "Docs (collective)" "URI:DIR2:c";
              Lock.Unlink "URI:DIR2:root" "Bob"] in
  let s := Lock.State true [(1%nat, Lock.request url (Lock.Unlink "URI:DIR2:root" "Bob"))]
             [Lock.Posting; Lock.Waiting]
             [Lock.Enter 0 (Lock.request url (Lock.Link "URI:DIR2:root" "Docs (collective)"
                                                "URI:DIR2:c"))] in
  Lock.reachable url ops s /\
  (exists j, j <> 1%nat /\ Lock.tasks s !! j = Some Lock.Posting) /\
  (exists s', Lock.step url ops s s').
Proof.
  intros url ops s.
  assert (Hreach : Lock.reachable url ops s).
  { unfold Lock.reachable.
    eapply rtc_l.
    { apply (Lock.step_call_free url ops 0%nat
               (Lock.Link "URI:DIR2:root" "Docs (collective)" "URI:DIR2:c"));
        reflexivity. }
    eapply rtc_l.
    { apply (Lock.step_call_busy url ops 1%nat (Lock.Unlink "URI:DIR2:root" "Bob"));
        reflexivity. }
    apply rtc_refl. }
  destruct (link_unlink_never_stuck url ops s Hreach) as (_ & Hahead & Hturn & _).
  split; [exact Hreach|]. split.
  - apply (Hahead 1%nat). reflexivity.
  - apply Hturn. exists 1%nat, Lock.Waiting. split; reflexivity.
Defined.

Section TerminationFacts.
Import Lock Liveness.

Lemma remaining_update (l : list pc) : forall i x old,
  l !! i = Some old ->
  (sum_list (map weight (<[i := x]> l)) + weight old = sum_list (map weight l) + weight x)%nat.
Proof.
  induction l as [|p l IH]; intros [|i] x old H; try discriminate.
  - injection H as ->. simpl. lia.
  - simpl in H |- *. specialize (IH i x old H). simpl in IH. lia.
Qed.

Lemma step_decreases nodeurl ops s s' cur :
  inv s cur -> step nodeurl ops s s' -> remaining s = S (remaining s').
Proof.
  intros [_ Hpost _ Hwait _] Hstep. unfold remaining.
  destruct Hstep as [i o s Hi Ho Hfree | i o s Hi Ho Hbusy | i answer s Hi].
  - cbn [tasks]. pose proof (remaining_update _ i Posting _ Hi) as H. cbn [weight] in H. lia.
  - cbn [tasks]. pose proof (remaining_update _ i Waiting _ Hi) as H. cbn [weight] in H. lia.
  - pose proof (remaining_update _ i (Finished (conclude answer)) _ Hi) as H.
    cbn [weight] in H. unfold release. cbn [tasks waiting locked log].
    destruct (waiting s) as [|[j url] rest] eqn:Hw; cbn [tasks].
    + lia.
    + assert (Hj : tasks s !! j = Some Waiting).
      { apply (Hwait j url). rewrite ?Hw. apply elem_of_cons. left. reflexivity. }
      assert (Hj' : <[i := Finished (conclude answer)]> (tasks s) !! j = Some Waiting).
      { rewrite list_lookup_insert_ne; [exact Hj | congruence]. }
      pose proof (remaining_update _ j Posting _ Hj') as H'. cbn [weight] in H'. lia.
Qed.

Lemma remaining_init n : remaining (init n) = (2 * n)%nat.
Proof.
  unfold remaining, init. cbn [tasks].
  induction n as [|n IH]; [reflexivity|]. simpl in IH |- *. lia.
Qed.

Lemma finished_remaining s :
  Forall (fun p => is_finished p = true) (tasks s) -> remaining s = 0%nat.
Proof.
  unfold remaining. induction (tasks s) as [|p l IH]; intros H; [reflexivity|].
  apply Forall_cons in H as [Hp H]. cbn [map sum_list]. rewrite (IH H).
  destruct p; try discriminate. reflexivity.
Qed.

Lemma run_decreases nodeurl ops n s s' :
  nsteps (step nodeurl ops) n s s' -> reachable nodeurl ops s ->
  (n + remaining s')%nat = remaining s.
Proof.
  induction 1 as [s | n s s1 s' Hstep _ IH]; intros Hreach; [lia|].
  destruct (inv_reachable _ _ _ Hreach) as [cur Hinv].
  pose proof (step_decreases _ _ _ _ _ Hinv Hstep).
  assert (reachable nodeurl ops s1) by (eapply rtc_r; eauto).
  specialize (IH ltac:(assumption)). lia.
Qed.

End TerminationFacts.

(** X15: calls to [link] and [unlink] on one gateway come to an end, and
    none is served twice.  Every turn of the reactor is either a call
    being issued or a request being answered, so a run from the state in
    which [length ops] calls are about to be issued has taken, after [n]
    turns, exactly [n] of the two turns each call needs: no run is longer
    than twice the number of calls, and a run in which every call has
    concluded is exactly that long, however the calls and the answers
    interleave. *)
Theorem link_unlink_terminates (nodeurl : string) (ops : list Lock.op) (n : nat)
    (s : Lock.state) :
  nsteps (Lock.step nodeurl ops) n (Lock.init (length ops)) s ->
  (n + Liveness.remaining s = 2 * length ops)%nat /\
  (n <= 2 * length ops)%nat /\
  (Forall (fun p => Lock.is_finished p = true) (Lock.tasks s) -> n = (2 * length ops)%nat).
Proof.
  intros Hrun.
  assert (H : (n + Liveness.remaining s = 2 * length ops)%nat).
  { rewrite <- remaining_init.
    apply (run_decreases nodeurl ops n _ s Hrun). apply rtc_refl. }
  split; [exact H|]. split; [lia|].
  intros Hall. rewrite (finished_remaining _ Hall) in H. lia.
Qed.

(** A [link] whose request fails to connect and an [unlink] answered 200,
    one after the other: four turns, none left to take. *)
Lemma link_unlink_terminates_witness :
  let url := "http://127.0.0.1:3456/" in
  let ops := [Lock.Link "URI:DIR2:root" "Docs (collective)" "URI:DIR2:c";
              Lock.Unlink "URI:DIR2:root" "Bob"] in
  let s := Lock.State false []
             [Lock.Finished (Raise ConnectError); Lock.Finished (Ret tt)]
             [Lock.Enter 0 (Lock.request url (Lock.Link "URI:DIR2:root" "Docs (collective)"
                                                "URI:DIR2:c"));
              Lock.Exit 0;
              Lock.Enter 1 (Lock.request url (Lock.Unlink "URI:DIR2:root" "Bob"));
              Lock.Exit 1] in
  nsteps (Lock.step url ops) 4 (Lock.init (length ops)) s /\
  (4 + Liveness.remaining s = 2 * length ops)%nat.
Proof.
  intros url ops s.
  assert (Hrun : nsteps (Lock.step url ops) 4 (Lock.init (length ops)) s).
  { eapply nsteps_l.
    { apply (Lock.step_call_free url ops 0%nat
               (Lock.Link "URI:DIR2:root" "Docs (collective)" "URI:DIR2:c"));
        reflexivity. }
    eapply nsteps_l.
    { apply (Lock.step_answer url ops 0%nat None); reflexivity. }
    eapply nsteps_l.
    { apply (Lock.step_call_free url ops 1%nat (Lock.Unlink "URI:DIR2:root" "Bob"));
        reflexivity. }
    eapply nsteps_l.
    { apply (Lock.step_answer url ops 1%nat (Some (Response 200 "ok"))); reflexivity. }
    apply nsteps_O. }
  split; [exact Hrun|].
  apply (proj1 (link_unlink_terminates url ops 4 s Hrun)).
Defined.

(** *** Invitations *)

Section FrameFacts.
Import MagicFolder Sharing.

Lemma keeps_ret {A} (a : A) : keeps_self (mret a).
Proof. intros env st. reflexivity. Qed.

Lemma keeps_raise {A} e : keeps_self (@raise A e).
Proof. intros env st. reflexivity. Qed.

Lemma keeps_lift {A} (o : outcome A) : keeps_self (lift o).
Proof. intros env st. reflexivity. Qed.

Lemma keeps_ask c : keeps_self (ask c).
Proof. intros env st. reflexivity. Qed.

Lemma keeps_bind {A B} (m : M A) (f : A -> M B) :
  keeps_self m -> (forall a, keeps_self (f a)) -> keeps_self (m ≫= f).
Proof.
  intros Hm Hf env st. unfold mbind, M_bind.
  specialize (Hm env st). destruct (m env st) as [[a|e] st'].
  - rewrite Hf. exact Hm.
  - exact Hm.
Qed.

Lemma keeps_perform c : keeps_self (perform c).
Proof. apply keeps_bind; [apply keeps_ask | intros a; apply keeps_lift]. Qed.

Lemma keeps_ask_str c : keeps_self (ask_str c).
Proof. apply keeps_bind; [apply keeps_ask | intros a; apply keeps_lift]. Qed.

Lemma keeps_get_self {B} (f : Gateway.Tahoe -> M B) :
  (forall g, keeps_self (f g)) -> keeps_self (get_self ≫= f).
Proof. intros Hf env st. unfold mbind, M_bind, get_self. apply Hf. Qed.

End FrameFacts.

Ltac frame :=
  repeat first
    [ apply keeps_ret | apply keeps_raise | apply keeps_lift | apply keeps_ask
    | apply keeps_perform | apply keeps_ask_str
    | apply keeps_bind; [|intros ?]
    | match goal with
      | |- Sharing.keeps_self (match ?x with _ => _ end) => destruct x
      | |- Sharing.keeps_self (if ?b then _ else _) => destruct b
      end ].

Section RegistrationFacts.
Import PyStr Gateway MagicFolder Sharing.
Variable str_of_json : json -> string.

Lemma subclient_registered path join_code env g t :
  (_create_magic_folder_subclient str_of_json path join_code env (g, t)).2.1
  = set_magic_folders g
      (<[basename path :=
           Folder (Some path) None
             (Some (Client (path_join (magic_folders_dir g) (basename path)) (executable g)))
             None None None]> (magic_folders g)).
Proof.
  unfold _create_magic_folder_subclient. rewrite step_get_self. cbv beta zeta.
  unfold register. rewrite step_assoc, step_get_self. cbv beta.
  rewrite step_put_self. cbv beta.
  match goal with |- (?m env (?g', t)).2.1 = _ =>
    enough (H : keeps_self m) by apply (H env (g', t)) end.
  frame.
Qed.

End RegistrationFacts.

(** X16: a folder stays registered with its subclient once
    [_create_magic_folder_subclient] has been entered.  The entry is
    written before the subclient is provisioned and nothing removes it:
    whether the call returns or raises, on whatever step (the creation of
    the node, its start, the wait for it, the join or create command, the
    links), the registry then maps the folder's name to its directory and
    to the subclient in [magic_folders_dir], and the gateway object is
    otherwise what it was. *)
Theorem subclient_registration_persists (str_of_json : json -> string)
    (path : string) (join_code : option string)
    (env : MagicFolder.environment) (self : Gateway.Tahoe)
    (trace : list (MagicFolder.call * MagicFolder.answer)) :
  let name := PyStr.basename path in
  let subclient :=
    Gateway.Client (PyStr.path_join (Gateway.magic_folders_dir self) name)
                   (Gateway.executable self) in
  let self' :=
    (MagicFolder._create_magic_folder_subclient str_of_json path join_code env
       (self, trace)).2.1 in
  Gateway.magic_folders self' !! name
    = Some (Gateway.Folder (Some path) None (Some subclient) None None None) /\
  MagicFolder.get_magic_folder_client self' name = Some subclient /\
  (forall other, other <> name ->
     Gateway.magic_folders self' !! other = Gateway.magic_folders self !! other) /\
  Gateway.set_magic_folders self' (Gateway.magic_folders self) = self.
Proof.
  intros name subclient self'. subst self'.
  rewrite subclient_registered. fold name. fold subclient.
  unfold MagicFolder.get_magic_folder_client. cbn [Gateway.magic_folders Gateway.set_magic_folders].
  rewrite lookup_insert_eq. repeat split.
  - intros other Hne. apply lookup_insert_ne. congruence.
  - destruct self; reflexivity.
Qed.

(** The daemon too old for [-n]: creating the subclient of [Docs] leaves
    the entry of [Music] alone. *)
Lemma subclient_registration_persists_witness :
  Gateway.magic_folders
    (MagicFolder._create_magic_folder_subclient MagicFolder.str_of_string "/home/u/Docs" None
       MagicFolder.old_daemon (MagicFolder.example_gateway, [])).2.1 !! "Music"
  = Gateway.magic_folders MagicFolder.example_gateway !! "Music".
Proof.
  apply (subclient_registration_persists MagicFolder.str_of_string "/home/u/Docs" None
           MagicFolder.old_daemon MagicFolder.example_gateway []).
  discriminate.
Defined.

Section InviteFacts.
Import PyStr Gateway MagicFolder Sharing.

Lemma fallback_state {A} (m : M A) (k : bool -> M unit) env st :
  (forall st', (k true env st').2 = st') ->
  (((m ≫= fun _ => mret true) ≫= k) env st).2 = (m env st).2.
Proof.
  intros Hk. unfold mbind, M_bind, mret, M_ret.
  destruct (m env st) as [[a|e] st']; [apply Hk | reflexivity].
Qed.

Lemma invite_run name nickname env g t :
  magic_folder_invite name nickname env (g, t)
  = let c := match get_magic_folder_client g name with
             | Some client =>
                 RunCommand (client_nodedir client)
                   ["magic-folder"; "invite"; "magic:"; nickname]
             | None =>
                 RunCommand (nodedir g)
                   ["magic-folder"; "invite"; "-n"; name; name +:+ ":"; nickname]
             end in
    (invitation (env t c), (g, (t ++ [(c, env t c)])%list)).
Proof.
  unfold magic_folder_invite, invitation. rewrite step_get_self. cbv beta zeta.
  destruct (get_magic_folder_client g name) as [client|];
    rewrite step_ask_str; destruct (as_str _) as [[text|]|e]; reflexivity.
Qed.

End InviteFacts.

(** X17: an invitation to a folder created through the subclient
    fall-back is issued by that subclient.  When the daemon refuses
    [magic-folder create -n] as not recognised, [create_magic_folder]
    hands over to [_create_magic_folder_subclient]; afterwards, whether
    that returned or raised, [magic_folder_invite] for the folder's name
    sends one command, [magic-folder invite magic: nickname], to the node
    in [magic_folders_dir], never to the gateway itself, returns its
    output stripped and leaves the gateway object alone. *)
Theorem invite_follows_fallback (str_of_json : json -> string) (realpath : string -> string)
    (path : string) (join_code : option string) (nickname msg : string)
    (env env' : MagicFolder.environment) (self : Gateway.Tahoe)
    (trace : list (MagicFolder.call * MagicFolder.answer)) :
  (forall t p, MagicFolder.past_oserror
                 (MagicFolder.as_unit (env t (MagicFolder.Makedirs p))) = None) ->
  (forall t args,
     env t (MagicFolder.RunCommand (Gateway.nodedir self)
              ("magic-folder" :: "create" :: "-n" :: args))
     = MagicFolder.ARaise (TahoeCommandError msg)) ->
  PyStr.endswith "not recognized" msg = true ->
  let name := PyStr.basename (realpath path) in
  let sub := PyStr.path_join (Gateway.magic_folders_dir self) name in
  let created :=
    MagicFolder.create_magic_folder str_of_json realpath path join_code env (self, trace) in
  let c := MagicFolder.RunCommand sub ["magic-folder"; "invite"; "magic:"; nickname] in
  let invited := Sharing.magic_folder_invite name nickname env' created.2 in
  MagicFolder.get_magic_folder_client created.2.1 name
    = Some (Gateway.Client sub (Gateway.executable self)) /\
  invited.1 = Sharing.invitation (env' created.2.2 c) /\
  invited.2 = (created.2.1, (created.2.2 ++ [(c, env' created.2.2 c)])%list).
Proof.
  intros Hdirs Hold Hmsg name sub created c invited.
  assert (Hclient : MagicFolder.get_magic_folder_client created.2.1 name
                    = Some (Gateway.Client sub (Gateway.executable self))).
  { subst created. unfold MagicFolder.create_magic_folder.
    rewrite step_get_self. cbv beta zeta.
    rewrite step_makedirs, Hdirs, step_makedirs, Hdirs. fold name.
    rewrite step_try_command, Hold. cbn [MagicFolder.as_unit]. rewrite Hmsg.
    rewrite fallback_state by reflexivity.
    rewrite subclient_registered. fold name. fold sub.
    unfold MagicFolder.get_magic_folder_client.
    cbn [Gateway.magic_folders Gateway.set_magic_folders].
    rewrite lookup_insert_eq. reflexivity. }
  split; [exact Hclient|].
  subst invited. destruct created.2 as [g t] eqn:E. cbn [fst snd] in Hclient |- *.
  rewrite invite_run, Hclient. cbn [Gateway.client_nodedir fst snd]. split; reflexivity.
Qed.

(** The daemon too old for [-n], asked to create [/home/u/Docs]: the
    invitation of Bob is sent to the subclient in [magic-folders/Docs]. *)
Lemma invite_follows_fallback_witness :
  let created :=
    MagicFolder.create_magic_folder MagicFolder.str_of_string (fun p => p) "/home/u/Docs"
      None MagicFolder.old_daemon (MagicFolder.example_gateway, []) in
  let c := MagicFolder.RunCommand "/home/u/.tahoe/magic-folders/Docs"
             ["magic-folder"; "invite"; "magic:"; "Bob"] in
  (Sharing.magic_folder_invite "Docs" "Bob" (fun _ _ => MagicFolder.AStr " a+b ") created.2).2.2
  = (created.2.2 ++ [(c, MagicFolder.AStr " a+b ")])%list.
Proof.
  intros created c.
  pose proof (invite_follows_fallback MagicFolder.str_of_string (fun p => p) "/home/u/Docs"
                None "Bob" "Unknown command: -n not recognized"
                MagicFolder.old_daemon (fun _ _ => MagicFolder.AStr " a+b ")
                MagicFolder.example_gateway []
                ltac:(reflexivity) ltac:(reflexivity) ltac:(reflexivity)) as (_ & _ & H).
  cbv zeta in H. apply (f_equal snd) in H. exact H.
Defined.

Section DircapFacts.
Import PyStr Gateway MagicFolder.

Lemma dircap_run name env g t :
  get_magic_folder_dircap name env (g, t) =
  match magic_folders g !! name ≫= upload_dircap with
  | Some cap => (Ret (Some cap), (g, t))
  | None =>
      let c := ReadCapFromFile (dircap_file g name).1 in
      match as_str (env t c) with
      | Ret cap =>
          (Ret cap,
           (match if_truthy cap with
            | Some text => with_upload_dircap g (dircap_file g name).2 text
            | None => g
            end, (t ++ [(c, env t c)])%list))
      | Raise e => (Raise e, (g, (t ++ [(c, env t c)])%list))
      end
  end.
Proof.
  unfold get_magic_folder_dircap. rewrite step_get_self. cbv beta.
  destruct (magic_folders g !! name ≫= upload_dircap); [reflexivity|].
  rewrite step_ask_str. cbv zeta.
  destruct (as_str _) as [cap|e]; [|reflexivity].
  destruct (if_truthy cap); reflexivity.
Qed.

End DircapFacts.

(** X18: the upload capability of a folder owned by a subclient is read
    from its file once.  When [get_magic_folder_dircap] has returned a
    non-empty capability for such a folder, the next call for the same
    name returns the same capability without reading anything, whatever
    the file holds by then, and leaves the gateway object and the record of
    calls as they are. *)
Theorem upload_dircap_cached (name cap : string) (sub : Gateway.client_ref)
    (env env' : MagicFolder.environment) (self : Gateway.Tahoe)
    (trace : list (MagicFolder.call * MagicFolder.answer)) :
  MagicFolder.get_magic_folder_client self name = Some sub ->
  (MagicFolder.get_magic_folder_dircap name env (self, trace)).1 = Ret (Some cap) ->
  PyStr.nonempty cap = true ->
  let after := (MagicFolder.get_magic_folder_dircap name env (self, trace)).2 in
  MagicFolder.get_magic_folder_dircap name env' after = (Ret (Some cap), after).
Proof.
  intros Hsub Hfirst Hcap after. subst after. revert Hfirst.
  rewrite dircap_run.
  destruct (Gateway.magic_folders self !! name ≫= Gateway.upload_dircap) as [cached|] eqn:E.
  - cbn [fst snd]. intros [= ->]. rewrite dircap_run, E. reflexivity.
  - cbv zeta. unfold MagicFolder.dircap_file. rewrite Hsub. cbn [fst snd].
    destruct (MagicFolder.as_str _) as [[text|]|e]; cbn [fst snd]; intros [= ->].
    cbn [MagicFolder.if_truthy]. rewrite Hcap.
    rewrite dircap_run. unfold MagicFolder.with_upload_dircap.
    cbn [Gateway.magic_folders Gateway.set_magic_folders].
    rewrite lookup_insert_eq. reflexivity.
Qed.

(** The folder [Docs] of a subclient, its capability not yet read: the
    first call reads the file, the second answers from the registry. *)
Lemma upload_dircap_cached_witness :
  let sub := Gateway.Client "/home/u/.tahoe/magic-folders/Docs" None in
  let self := Gateway.set_magic_folders MagicFolder.example_gateway
                {[ "Docs" := Gateway.Folder (Some "/home/u/Docs") None (Some sub)
                                None None None ]} in
  let after := (MagicFolder.get_magic_folder_dircap "Docs" MagicFolder.old_daemon
                  (self, [])).2 in
  MagicFolder.calls after.2
    = [MagicFolder.ReadCapFromFile
         "/home/u/.tahoe/magic-folders/Docs/private/magic_folder_dircap"] /\
  MagicFolder.get_magic_folder_dircap "Docs" (fun _ _ => MagicFolder.ARaise (OSError "gone"))
    after = (Ret (Some "URI:DIR2:root:cap"), after).
Proof.
  intros sub self after. split; [reflexivity|].
  apply (upload_dircap_cached "Docs" "URI:DIR2:root:cap" sub MagicFolder.old_daemon
           (fun _ _ => MagicFolder.ARaise (OSError "gone")) self []);
    reflexivity.
Defined.

(** X19: the upload capability of a folder without a subclient is read
    from the gateway's file on every call.  The capability is stored under
    the key [default], not under the folder's name, so as long as the
    registry holds no capability under the name itself (and the name is
    not [default]) a second call reads
    [nodedir/private/magic_folder_dircap] again and returns what the file
    holds then. *)
Theorem upload_dircap_read_again (name : string)
    (env env' : MagicFolder.environment) (self : Gateway.Tahoe)
    (trace : list (MagicFolder.call * MagicFolder.answer)) :
  MagicFolder.get_magic_folder_client self name = None ->
  Gateway.magic_folders self !! name ≫= Gateway.upload_dircap = None ->
  name <> "default" ->
  let c := MagicFolder.ReadCapFromFile
             (PyStr.path_join (PyStr.path_join (Gateway.nodedir self) "private")
                "magic_folder_dircap") in
  let first := MagicFolder.get_magic_folder_dircap name env (self, trace) in
  let second := MagicFolder.get_magic_folder_dircap name env' first.2 in
  first.2.2 = (trace ++ [(c, env trace c)])%list /\
  second.2.2 = (first.2.2 ++ [(c, env' first.2.2 c)])%list /\
  second.1 = MagicFolder.as_str (env' first.2.2 c).
Proof.
  intros Hnone Hmiss Hname c first second.
  assert (Hfirst : first.2.2 = (trace ++ [(c, env trace c)])%list /\
                   MagicFolder.get_magic_folder_client first.2.1 name = None /\
                   Gateway.magic_folders first.2.1 !! name ≫= Gateway.upload_dircap = None /\
                   Gateway.nodedir first.2.1 = Gateway.nodedir self).
  { subst first. rewrite dircap_run, Hmiss. cbv zeta.
    unfold MagicFolder.dircap_file. rewrite Hnone. cbn [fst snd]. fold c.
    destruct (MagicFolder.as_str (env trace c)) as [cap|e]; cbn [fst snd];
      [|repeat split; assumption].
    destruct (MagicFolder.if_truthy cap) as [text|]; [|repeat split; assumption].
    unfold MagicFolder.with_upload_dircap, MagicFolder.get_magic_folder_client in *.
    cbn [Gateway.magic_folders Gateway.set_magic_folders Gateway.nodedir].
    rewrite lookup_insert_ne by congruence. repeat split; assumption. }
  destruct Hfirst as (Htrace & Hnone' & Hmiss' & Hdir).
  split; [exact Htrace|].
  subst second. destruct first.2 as [g t] eqn:E. cbn [fst snd] in *.
  rewrite dircap_run, Hmiss'. cbv zeta.
  unfold MagicFolder.dircap_file. rewrite Hnone'. cbn [fst snd]. rewrite Hdir. fold c.
  destruct (MagicFolder.as_str (env' t c)) as [cap|e]; cbn [fst snd]; split; reflexivity.
Qed.

(** A gateway with an empty registry asked twice for the capability of
    [Docs]: both calls read the gateway's own file. *)
Lemma upload_dircap_read_again_witness :
  let c := MagicFolder.ReadCapFromFile "/home/u/.tahoe/private/magic_folder_dircap" in
  let first := MagicFolder.get_magic_folder_dircap "Docs" MagicFolder.old_daemon
                 (MagicFolder.example_gateway, []) in
  let second := MagicFolder.get_magic_folder_dircap "Docs"
                  (fun _ _ => MagicFolder.AStr "URI:DIR2:other") first.2 in
  MagicFolder.calls second.2.2 = [c; c] /\ second.1 = Ret (Some "URI:DIR2:other").
Proof.
  intros c first second.
  destruct (upload_dircap_read_again "Docs" MagicFolder.old_daemon
              (fun _ _ => MagicFolder.AStr "URI:DIR2:other") MagicFolder.example_gateway []
              ltac:(reflexivity) ltac:(reflexivity) ltac:(discriminate))
    as (H1 & H2 & H3).
  cbv zeta in H1, H2, H3. fold first in H1, H2, H3. fold second in H2, H3.
  split.
  - rewrite H2, H1. reflexivity.
  - rewrite H3. reflexivity.
Defined.

(** *** Folders found under the rootcap *)

Section SuffixFacts.
Import PyStr Discovery.

Lemma prefix_refl s : String.prefix s s = true.
Proof.
  induction s as [|c s IH]; [reflexivity|].
  cbn [String.prefix]. destruct (ascii_dec c c); [exact IH | contradiction].
Qed.

Lemma before_app sep n :
  (forall u, u <> EmptyString -> String.prefix sep (u +:+ sep) = true ->
             String.prefix sep u = true) ->
  contains sep n = false -> before sep (n +:+ sep) = n.
Proof.
  intros Hsep. induction n as [|a r IH]; intros Hn.
  - change (EmptyString +:+ sep) with sep.
    destruct sep; cbn [before]; [reflexivity|]. rewrite prefix_refl. reflexivity.
  - cbn [contains] in Hn. apply orb_false_iff in Hn as [Hp Hr].
    change (String a r +:+ sep) with (String a (r +:+ sep)).
    cbn [before].
    destruct (String.prefix sep (String a (r +:+ sep))) eqn:E.
    + rewrite (Hsep (String a r)) in Hp; [discriminate | discriminate | exact E].
    + rewrite (IH Hr). reflexivity.
Qed.

Ltac straddle :=
  repeat match goal with
  | |- true = true => reflexivity
  | H : false = true |- _ => discriminate H
  | H : String.prefix _ (String ?c ?r +:+ ?b) = true |- _ =>
      change (String c r +:+ b) with (String c (r +:+ b)) in H;
      cbn [String.prefix] in H |- *
  | H : String.prefix _ (EmptyString +:+ ?b) = true |- _ =>
      change (EmptyString +:+ b) with b in H; cbn [String.prefix] in H |- *
  | H : (if ascii_dec ?a ?b then _ else false) = true |- _ =>
      destruct (ascii_dec a b) as [?|?]; [try discriminate; subst | discriminate H]
  | |- (if ascii_dec ?a ?a then _ else _) = true =>
      destruct (ascii_dec a a) as [_|?]; [|contradiction]
  | H : String.prefix _ (?r +:+ _) = true |- _ =>
      destruct r as [|? r]
  end.

Lemma collective_no_straddle u :
  u <> EmptyString -> String.prefix " (collective)" (u +:+ " (collective)") = true ->
  String.prefix " (collective)" u = true.
Proof.
  intros Hu H. destruct u as [|a r]; [contradiction|]. straddle.
Qed.

Lemma personal_no_straddle u :
  u <> EmptyString -> String.prefix " (personal)" (u +:+ " (personal)") = true ->
  String.prefix " (personal)" u = true.
Proof.
  intros Hu H. destruct u as [|a r]; [contradiction|]. straddle.
Qed.

Lemma personal_not_collective n :
  endswith " (collective)" (personal_name n) = false.
Proof.
  unfold personal_name. induction n as [|a r IH]; [reflexivity|].
  change (String a r +:+ " (personal)") with (String a (r +:+ " (personal)")).
  cbn [endswith]. rewrite IH, orb_false_r.
  apply String.eqb_neq. intros H. injection H as _ H.
  repeat (destruct r as [|? r]; [discriminate H|];
          change (String ?c r +:+ ?b) with (String c (r +:+ b)) in H;
          injection H as _ H).
  destruct r; discriminate H.
Qed.

Lemma collective_prefix n :
  plain n ->
  endswith " (collective)" (collective_name n) = true /\
  before " (collective)" (collective_name n) = n.
Proof.
  intros [Hc _]. unfold collective_name. split.
  - apply endswith_app_self.
  - apply before_app; [apply collective_no_straddle | exact Hc].
Qed.

Lemma personal_prefix n :
  plain n ->
  endswith " (personal)" (personal_name n) = true /\
  before " (personal)" (personal_name n) = n.
Proof.
  intros [_ Hp]. unfold personal_name. split.
  - apply endswith_app_self.
  - apply before_app; [apply personal_no_straddle | exact Hp].
Qed.

End SuffixFacts.

Section DiscoveryFacts.
Import PyStr Discovery Subscript.

Variable entry : json -> json.
Hypothesis entry_lists : forall cap, then_ (item (entry cap) (JNum 1)) uri_of = Ret cap.

Lemma collect_linked fs : forall acc,
  Forall plain fs.*1 ->
  collect acc (linked entry fs) = Ret (found_after acc fs).
Proof.
  induction fs as [|[n [c p]] fs IH]; intros acc Hplain; [reflexivity|].
  apply Forall_cons in Hplain as [Hn Hplain].
  destruct (collective_prefix n Hn) as [Hce Hcb].
  destruct (personal_prefix n Hn) as [Hpe Hpb].
  cbn [linked flat_map fst snd app collect found_after foldl].
  pose proof (entry_lists c) as Hc. pose proof (entry_lists p) as Hp.
  unfold then_ in Hc, Hp |- *.
  destruct (item (entry c) (JNum 1)) as [dc|]; [|discriminate].
  rewrite Hce, Hcb, Hc.
  destruct (item (entry p) (JNum 1)) as [dp|]; [|discriminate].
  rewrite personal_not_collective, Hpe, Hpb, Hp.
  rewrite lookup_insert_eq. cbn [default collective from_option id].
  rewrite insert_insert_eq. apply (IH _ Hplain).
Qed.

Lemma found_after_other fs : forall acc n,
  n ∉ fs.*1 -> found_after acc fs !! n = acc !! n.
Proof.
  induction fs as [|[m v] fs IH]; intros acc n Hn; [reflexivity|].
  cbn [fmap list_fmap fst] in Hn. apply not_elem_of_cons in Hn as [Hne Hn].
  cbn [found_after foldl fst snd]. fold (found_after (<[m := Links (Some v.1) (Some v.2)]> acc) fs).
  rewrite (IH _ _ Hn). apply lookup_insert_ne. congruence.
Qed.

Lemma found_after_linked fs : forall acc n c p,
  NoDup fs.*1 -> (n, (c, p)) ∈ fs ->
  found_after acc fs !! n = Some (Links (Some c) (Some p)).
Proof.
  induction fs as [|[m v] fs IH]; intros acc n c p Hnd Hin; [inversion Hin|].
  cbn [fmap list_fmap fst] in Hnd. apply NoDup_cons in Hnd as [Hm Hnd].
  cbn [found_after foldl fst snd]. fold (found_after (<[m := Links (Some v.1) (Some v.2)]> acc) fs).
  apply elem_of_cons in Hin as [[= -> <-]|Hin].
  - rewrite (found_after_other _ _ _ Hm). apply lookup_insert_eq.
  - apply (IH _ _ _ _ Hnd Hin).
Qed.

End DiscoveryFacts.



(** *** Members of a folder *)

Section MembersFacts.
Import PyStr Subscript Members.

Lemma assoc_unique (kids : list (string * json)) k d :
  NoDup kids.*1 -> (k, d) ∈ kids -> Json.assoc k kids = Some d.
Proof.
  induction kids as [|[k' d'] kids IH]; intros Hnd Hin; [inversion Hin|].
  cbn [fmap list_fmap fst] in Hnd. apply NoDup_cons in Hnd as [Hk Hnd].
  cbn [Json.assoc]. apply elem_of_cons in Hin as [[= -> ->]|Hin].
  - rewrite String.eqb_refl. reflexivity.
  - destruct (String.eqb k k') eqn:E; [|apply (IH Hnd Hin)].
    apply String.eqb_eq in E as ->. exfalso. apply Hk.
    apply list_elem_of_fmap. exists (k', d). split; [reflexivity | exact Hin].
Qed.

Lemma visit_listed children cap (rest : list (string * string)) :
  nonempty cap = true ->
  (forall m, m ∈ rest -> readcap_of children (JStr m.1) = Ret (JStr m.2)) ->
  forall members mine,
    visit children (Some cap) (map (fun m => JStr m.1) rest) members mine
    = (Ret (map as_json (rev (List.filter (is_mine cap) rest)) ++ members
            ++ map as_json (List.filter (fun m => negb (is_mine cap m)) rest))%list,
       match head (rev (List.filter (is_mine cap) rest)) with
       | Some m => Some (JStr m.1)
       | None => mine
       end).
Proof.
  intros Hcap. induction rest as [|m rest IH]; intros Hread members mine.
  - cbn. rewrite app_nil_r. reflexivity.
  - cbn [map visit]. rewrite (Hread m) by (apply elem_of_cons; left; reflexivity).
    cbn [MagicFolder.if_truthy]. rewrite Hcap.
    assert (Hrest : forall m', m' ∈ rest ->
                      readcap_of children (JStr m'.1) = Ret (JStr m'.2)).
    { intros m' Hm'. apply Hread. apply elem_of_cons. right. exact Hm'. }
    change (String.eqb (fingerprint m.2) (fingerprint cap)) with (is_mine cap m).
    cbn [List.filter].
    destruct (is_mine cap m) eqn:E; cbn [negb].
    + rewrite (IH Hrest). cbn [rev]. rewrite map_app. cbn [map].
      f_equal.
      * rewrite <- !app_assoc. reflexivity.
      * rewrite head_app.
        destruct (head (rev (List.filter (is_mine cap) rest))); reflexivity.
    + rewrite (IH Hrest). cbn [map]. f_equal. rewrite <- !app_assoc. reflexivity.
Qed.

End MembersFacts.

(** X21: the local member comes first in the list of members.  When the
    collective lists, for each member, a read capability that is a string,
    and the folder's upload capability is known, the loop of
    [get_magic_folder_members] returns every listed member once: those
    whose capability ends in the fingerprint of the upload capability come
    first (the last one listed first), the others follow in the order of
    the listing; and the member recorded as the local one is the first of
    the list, if any matches. *)
Theorem local_member_first (entry : string -> json) (kids : list (string * string))
    (kind : json) (listing : list (string * json)) (cap : string) :
  (forall readcap,
     Subscript.then_ (Subscript.item (entry readcap) (JNum 1))
       (fun metadata => Json.getitem metadata "ro_uri") = Ret (JStr readcap)) ->
  NoDup kids.*1 ->
  PyStr.nonempty cap = true ->
  Json.assoc "children" listing = Some (JObj (map (fun m => (m.1, entry m.2)) kids)) ->
  let mine := List.filter (Members.is_mine cap) kids in
  let others := List.filter (fun m => negb (Members.is_mine cap m)) kids in
  Members.members_of (JArr [kind; JObj listing]) (Some cap)
  = (Ret (map Members.as_json (rev mine ++ others)%list),
     (fun m => JStr m.1) <$> head (rev mine)).
Proof.
  intros Hentry Hnd Hcap Hchildren mine others.
  unfold Members.members_of. cbn [Subscript.item Subscript.as_index].
  change (Subscript.position (length [kind; JObj listing]) 1) with (Some 1%nat).
  cbn [mbind option_bind lookup list_lookup Subscript.then_ Json.getitem].
  rewrite Hchildren. cbn [Json.iterate]. rewrite map_map. cbn [fst].
  rewrite (visit_listed _ cap kids Hcap).
  - fold mine. fold others. rewrite map_app. cbn [app].
    destruct (head (rev mine)); reflexivity.
  - intros m Hm. unfold Members.readcap_of. cbn [Subscript.item].
    rewrite (assoc_unique _ m.1 (entry m.2)).
    + apply Hentry.
    + rewrite <- list_fmap_compose.
      replace (fst ∘ (fun m0 : string * string => (m0.1, entry m0.2))) with (@fst string string)
        by reflexivity.
      exact Hnd.
    + apply (list_elem_of_fmap_2 (fun m0 : string * string => (m0.1, entry m0.2))) in Hm.
      exact Hm.
Qed.

(** Three members, Bob being the local one. *)
Lemma local_member_first_witness :
  let entry := fun readcap => JArr [JStr "dirnode"; JObj [("ro_uri", JStr readcap)]] in
  let kids := [("Alice", "URI:DIR2-RO:aaa:111"); ("Bob", "URI:DIR2-RO:bbb:222");
               ("Carol", "URI:DIR2-RO:ccc:333")] in
  Members.members_of
    (JArr [JStr "dirnode"; JObj [("children", JObj (map (fun m => (m.1, entry m.2)) kids))]])
    (Some "URI:DIR2:xyz:222")
  = (Ret [(JStr "Bob", JStr "URI:DIR2-RO:bbb:222");
          (JStr "Alice", JStr "URI:DIR2-RO:aaa:111");
          (JStr "Carol", JStr "URI:DIR2-RO:ccc:333")],
     Some (JStr "Bob")).
Proof.
  intros entry kids.
  apply (local_member_first entry kids (JStr "dirnode")
           [("children", JObj (map (fun m => (m.1, entry m.2)) kids))] "URI:DIR2:xyz:222").
  - intros readcap. reflexivity.
  - compute_done.
  - reflexivity.
  - reflexivity.
Defined.

(** *** Subclients after a restart *)

(** X22: a subclient found on disk is attached again when the gateway
    starts.  [start] loads the registry and then starts the subclients:
    for a node directory of [magic_folders_dir] whose base name is neither
    registered, nor in the persisted table, nor the base name of an earlier
    node directory, the folder of that name then has a client for this
    very node directory, running the gateway's executable, and that client
    is among those started. *)
Theorem subclients_restored (local_directory : string -> option string)
    (data : option (list (string * Gateway.folder)))
    (nodedirs before after : list string) (d : string) (self : Gateway.Tahoe) :
  nodedirs = (before ++ d :: after)%list ->
  Gateway.magic_folders self !! PyStr.basename d = None ->
  (forall items, data = Some items -> Registry.last_item (PyStr.basename d) items = None) ->
  (forall d', In d' before -> PyStr.basename d' <> PyStr.basename d) ->
  PyStr.nonempty d = true ->
  let loaded := Registry.load_magic_folders local_directory data nodedirs self in
  let started := Restart._start_magic_folder_subclients loaded in
  MagicFolder.get_magic_folder_client started.1 (PyStr.basename d)
    = Some (Gateway.Client d (Gateway.executable self)) /\
  d ∈ started.2.
Proof.
  intros -> Hself Hdata Hbefore Hd loaded started.
  assert (Hloaded : Gateway.magic_folders loaded !! PyStr.basename d
                    = Some (Gateway.Folder (local_directory d) (Some d) None None None None)).
  { subst loaded. unfold Registry.load_magic_folders.
    cbn [Gateway.magic_folders Gateway.set_magic_folders].
    apply discovered_fresh; [|exact Hbefore].
    destruct data as [items|]; [|exact Hself].
    rewrite merge_table_lookup, (Hdata items eq_refl). exact Hself. }
  assert (Hexe : Gateway.executable loaded = Gateway.executable self) by reflexivity.
  subst started. unfold Restart._start_magic_folder_subclients. cbn [fst snd]. split.
  - unfold MagicFolder.get_magic_folder_client.
    cbn [Gateway.magic_folders Gateway.set_magic_folders].
    rewrite lookup_fmap, Hloaded. cbn [fmap option_fmap option_map mbind option_bind].
    unfold Restart.with_client. cbn [Gateway.folder_nodedir MagicFolder.if_truthy].
    rewrite Hd. cbn [Gateway.client]. rewrite Hexe. reflexivity.
  - apply list_elem_of_omap. exists (PyStr.basename d, Gateway.Folder (local_directory d) (Some d) None None None None).
    split.
    + apply elem_of_map_to_list. exact Hloaded.
    + cbn [snd Gateway.folder_nodedir MagicFolder.if_truthy]. rewrite Hd. reflexivity.
Qed.

(** The node directory of [Docs], found on disk by a gateway that knows no
    folder yet. *)
Lemma subclients_restored_witness :
  let d := "/home/u/.tahoe/magic-folders/Docs" in
  let loaded := Registry.load_magic_folders (fun _ => Some "/home/u/Docs") None [d]
                  MagicFolder.example_gateway in
  let started := Restart._start_magic_folder_subclients loaded in
  MagicFolder.get_magic_folder_client started.1 "Docs" = Some (Gateway.Client d None) /\
  d ∈ started.2.
Proof.
  intros d loaded started.
  apply (subclients_restored (fun _ => Some "/home/u/Docs") None [d] [] [] d
           MagicFolder.example_gateway).
  - reflexivity.
  - reflexivity.
  - intros items H. discriminate H.
  - intros d' H. destruct H.
  - reflexivity.
Defined.
